(** * watchf: the event-processing pipeline, embedded and verified

    A shallow embedding of the Go sources [executor.go], [filter.go] and
    [watchservice.go].  Go strings are byte strings ([string]), Go maps are
    finite maps ([gmap]), [int64]/[uint32] values are integers ([Z]) that the
    code only ever compares for equality, and every call that leaves the
    process (stat, open/read, clock, watcher registration, command execution)
    is answered by an explicit description of the outside world. *)

From Stdlib Require Import ZArith Ascii String Strings.Byte List Bool Lia.
From Stdlib Require DecimalString.
From stdpp Require Import base option list strings gmap fin_maps.

Open Scope string_scope.
Open Scope list_scope.

(** ** Go's [strings] package, as far as the sources use it *)

Module GoStrings.

(** [strings.HasPrefix s p]. *)
Definition HasPrefix (s p : string) : bool := String.prefix p s.

(** The scan behind [strings.Replace s old new (-1)] for a non-empty
    [old]: matches are taken leftmost and do not overlap; [skip] counts the
    bytes of the current match that are still to be consumed. *)
Fixpoint replace_from (old new : string) (skip : nat) (s : string) : string :=
  match s with
  | EmptyString => EmptyString
  | String c s' =>
      match skip with
      | S k => replace_from old new k s'
      | O =>
          if HasPrefix s old
          then new +:+ replace_from old new (String.length old - 1) s'
          else String c (replace_from old new 0 s')
      end
  end.

(** [strings.Replace s old new (-1)].  Both call sites pass a two-byte
    token for [old]; the empty [old] (which Go treats rune by rune) does
    not occur and is not what this definition describes. *)
Definition Replace (s old new : string) : string := replace_from old new 0 s.

(** [strings.Split s sep] for a one-byte separator: every separator byte
    ends a field, so the result always has at least one field and
    consecutive separators give empty fields. *)
Fixpoint Split (s : string) (sep : ascii) : list string :=
  match s with
  | EmptyString => [EmptyString]
  | String c s' =>
      if Ascii.eqb c sep then EmptyString :: Split s' sep
      else match Split s' sep with
           | f :: fs => String c f :: fs
           | [] => [String c EmptyString]
           end
  end.

End GoStrings.

(** ** Events of the notification source *)

(** The five kinds of the specification's RawEvent. *)
Inductive Kind := Create | Modify | Delete | Rename | AttributeChange.

(** [fsnotify.FileEvent] as the sources observe it: the event's [Name] and
    the answers of its five predicates. *)
Record FileEvent := {
  Name : string;
  IsCreate : bool;
  IsAttrib : bool;
  IsModify : bool;
  IsDelete : bool;
  IsRename : bool
}.

(** Modelled from the spec: the RawEvent {path, kind} of the data model, as
    the [fsnotify.FileEvent] the notification source delivers for it.  A
    metadata-only change answers both [IsAttrib] and [IsModify], as the
    library documents ("modify or attrib"). *)
Definition rawEvent (k : Kind) (path : string) : FileEvent :=
  {| Name := path;
     IsCreate := match k with Create => true | _ => false end;
     IsAttrib := match k with AttributeChange => true | _ => false end;
     IsModify := match k with Modify | AttributeChange => true | _ => false end;
     IsDelete := match k with Delete => true | _ => false end;
     IsRename := match k with Rename => true | _ => false end |}.

(** ** executor.go: variable substitution *)

Definition VarFilename : string := "%f".
Definition VarEventType : string := "%t".

(** [getEventType] (watchservice.go). *)
Definition getEventType (evt : FileEvent) : string :=
  if IsCreate evt then "ENTRY_CREATE"
  else if IsModify evt then "ENTRY_MODIFY"
  else if IsDelete evt then "ENTRY_DELETE"
  else if IsRename evt then "ENTRY_RENAME"
  else "".

(** [evaluateVariables]. *)
Definition evaluateVariables (command : string) (evt : FileEvent) : string :=
  let command := GoStrings.Replace command VarFilename (Name evt) in
  let command := GoStrings.Replace command VarEventType (getEventType evt) in
  command.

(** The argument vector [execute] hands to [exec.Command]:
    [strings.Split(evaluateVariables(command, evt), " ")]. *)
Definition commandArgs (command : string) (evt : FileEvent) : list string :=
  GoStrings.Split (evaluateVariables command evt) " "%char.

(** The name the specification gives to a classified kind. *)
Definition specTypeName (k : Kind) : string :=
  match k with
  | Create => "create"
  | Modify => "modify"
  | Delete => "delete"
  | Rename => "rename"
  | AttributeChange => ""
  end.

(** A command template cut at its tokens. *)
Inductive Segment := Lit (s : string) | PathToken | TypeToken.

Definition render (seg : Segment) : string :=
  match seg with
  | Lit s => s
  | PathToken => VarFilename
  | TypeToken => VarEventType
  end.

Definition flatten (pieces : list string) : string :=
  foldr String.append "" pieces.

Definition template (segs : list Segment) : string := flatten (map render segs).

Definition fill (evt : FileEvent) (seg : Segment) : string :=
  match seg with
  | Lit s => s
  | PathToken => Name evt
  | TypeToken => getEventType evt
  end.

(** The template after the first of the two replacements. *)
Definition fillPath (evt : FileEvent) (seg : Segment) : string :=
  match seg with
  | Lit s => s
  | PathToken => Name evt
  | TypeToken => VarEventType
  end.

(** The name [getEventType] gives to each kind of raw event. *)
Definition entryName (k : Kind) : string :=
  match k with
  | Create => "ENTRY_CREATE"
  | Modify | AttributeChange => "ENTRY_MODIFY"
  | Delete => "ENTRY_DELETE"
  | Rename => "ENTRY_RENAME"
  end.

(** Text that cannot form a token, alone or with what follows it: no
    percent sign stands at its end or before an f or a t. *)
Fixpoint tokenSafe (s : string) : bool :=
  match s with
  | EmptyString => true
  | String c s' =>
      (if Ascii.eqb c "%"
       then match s' with
            | EmptyString => false
            | String d _ => negb (Ascii.eqb d "f") && negb (Ascii.eqb d "t")
            end
       else true)
      && tokenSafe s'
  end.

Definition safeSegment (seg : Segment) : bool :=
  match seg with
  | Lit s => tokenSafe s
  | _ => true
  end.

(** ** The outside world and the effects of the program *)

(** What [os.Stat] reports about a path. *)
Record FileInfo := { fi_isDir : bool; fi_size : Z }.

(** The outside world.  The program's [n]-th question to it is answered by
    the fields at index [n]; nothing else is assumed, so files may change,
    vanish and reappear between any two questions. *)
Record World := {
  statAt : nat -> string -> option FileInfo;      (* os.Stat; [None]: error *)
  readAt : nat -> string -> option (list Byte.byte); (* os.Open, io.Copy *)
  nowAt : nat -> Z;                               (* time.Now, nanoseconds *)
  watchAt : nat -> string -> bool;                (* watcher.Watch succeeds *)
  runAt : nat -> list string -> bool              (* cmd.Run succeeds *)
}.

(** What a run of the program does, in order. *)
Inductive Action :=
| ACall (fn : string)                      (* a method of the service entered *)
| AStage (title : string)                  (* [decorator] entered *)
| AStat (p : string) (r : option FileInfo) (* os.Stat in the sync step *)
| ASize (p : string) (r : option Z)        (* getFileSize *)
| AHash (p : string) (r : option Z)        (* getContentHash *)
| ASleep                                   (* time.Sleep *)
| ANow (t : Z)                             (* time.Now in the worker *)
| AWatch (p : string) (ok : bool)          (* watcher.Watch *)
| ARemoveWatch (p : string)                (* watcher.RemoveWatch *)
| ARun (args : list string) (ok : bool).   (* cmd.Run *)

(** A computation either returns or is still inside the poll loop when its
    fuel is spent. *)
Inductive Outcome (A : Type) := Ret (a : A) | OutOfFuel.
Arguments Ret {A} a.
Arguments OutOfFuel {A}.

(** Computations: from the number of questions asked so far to an outcome,
    the new number of questions, and the actions performed. *)
Definition M (A : Type) : Type := nat -> Outcome A * nat * list Action.

Definition ret {A} (a : A) : M A := fun t => (Ret a, t, []).

Definition bind {A B} (m : M A) (f : A -> M B) : M B := fun t =>
  match m t with
  | (Ret a, t1, l1) => let '(o, t2, l2) := f a t1 in (o, t2, l1 ++ l2)
  | (OutOfFuel, t1, l1) => (OutOfFuel, t1, l1)
  end.

Notation "x <- m ; k" := (bind m (fun x => k))
  (at level 20, m at level 100, k at level 200, only parsing).
Notation "' p <- m ; k" := (bind m (fun x => match x with p => k end))
  (at level 20, p pattern, m at level 100, k at level 200, only parsing).

Definition emit (a : Action) : M unit := fun t => (Ret tt, t, [a]).

Definition stuck {A} : M A := fun t => (OutOfFuel, t, []).

Definition outcome {A} (r : Outcome A * nat * list Action) : Outcome A := r.1.1.
Definition clock {A} (r : Outcome A * nat * list Action) : nat := r.1.2.
Definition actions {A} (r : Outcome A * nat * list Action) : list Action := r.2.

(** [l] followed by what [r] did. *)
Definition prepend {A} (l : list Action) (r : Outcome A * nat * list Action)
  : Outcome A * nat * list Action :=
  (r.1.1, r.1.2, l ++ r.2).

(** Go's [error], where only its being nil matters. *)
Inductive error := nil_error | failed.

Definition is_nil (e : error) : bool :=
  match e with nil_error => true | failed => false end.

(** ** filter.go *)

Definition FileCloseCheckThreshold : Z := 2.

Record FileEntry := { size : Z; hash : Z }.

(** [hash/adler32]: the checksum [getContentHash] computes. *)
Definition adler32_step (ab : Z * Z) (x : Byte.byte) : Z * Z :=
  let a := ((ab.1 + Z.of_N (Byte.to_N x)) mod 65521)%Z in
  (a, ((ab.2 + a) mod 65521)%Z).

Definition adler32 (bs : list Byte.byte) : Z :=
  let ab := fold_left adler32_step bs (1%Z, 0%Z) in
  Z.lor (Z.shiftl ab.2 16%Z) ab.1.

(** [decorator]: announces the stage and runs it (its timing lines are
    only written when the verbose flag is set and change nothing). *)
Definition decorator {A} (title : string) (fn : M A) : M A :=
  '_ <- emit (AStage title) ; fn.

Definition isSizeFailure (a : Action) : bool :=
  match a with ASize _ None => true | _ => false end.

Definition isHashFailure (a : Action) : bool :=
  match a with AHash _ None => true | _ => false end.

Definition isReadFailure (a : Action) : bool :=
  isSizeFailure a || isHashFailure a.

Definition isRun (a : Action) : bool :=
  match a with ARun _ _ => true | _ => false end.

(** ** watchservice.go: event names and the service's data *)

(** A directory tree as [filepath.Walk] meets it: every node carries the
    path the walk passes to its function; [readable] tells whether the
    directory's names can be listed. *)
#[warnings="-register-all"]
Inductive Tree :=
| File (p : string)
| Dir (p : string) (readable : bool) (children : list Tree).

Definition isDirTree (t : Tree) : bool :=
  match t with Dir _ _ _ => true | File _ => false end.

(** The errors the walk distinguishes. *)
Inductive WalkError := walk_nil | SkipDir | walk_failed.

(** The directories of a tree, in the order the walk meets them. *)
Fixpoint dirPaths (t : Tree) : list string :=
  match t with
  | File _ => []
  | Dir p _ children => p :: flat_map dirPaths children
  end.

(** Every directory of the tree can be listed. *)
Fixpoint readableTree (t : Tree) : bool :=
  match t with
  | File _ => true
  | Dir _ readable children => readable && forallb readableTree children
  end.

Definition fsnCreate : Z := 1.
Definition fsnModify : Z := 2.
Definition fsnDelete : Z := 4.
Definition fsnRename : Z := 8.
Definition fsnAll : Z :=
  Z.lor (Z.lor (Z.lor fsnModify fsnDelete) fsnRename) fsnRename.

Module EventBit.
Record t := { Name : string; Value : Z; Desc : string }.
End EventBit.

Definition CreateEvent : EventBit.t :=
  {| EventBit.Name := "create"; EventBit.Value := fsnCreate;
     EventBit.Desc := "File/directory created in watched directory" |}.
Definition DeleteEvent : EventBit.t :=
  {| EventBit.Name := "delete"; EventBit.Value := fsnDelete;
     EventBit.Desc := "File/directory deleted from watched directory" |}.
Definition ModifyEvent : EventBit.t :=
  {| EventBit.Name := "modify"; EventBit.Value := fsnModify;
     EventBit.Desc := "File was modified or Metadata changed" |}.
Definition RenameEvent : EventBit.t :=
  {| EventBit.Name := "rename"; EventBit.Value := fsnRename;
     EventBit.Desc := "File moved out of watched directory" |}.

Definition ValidEvents : gmap string EventBit.t :=
  <["create" := CreateEvent]> (<["delete" := DeleteEvent]>
  (<["modify" := ModifyEvent]> (<["rename" := RenameEvent]> ∅))).

Record Config := {
  Recursive : bool;
  Events : list string;
  IncludePattern : string;
  Commands : list string;
  Interval : Z
}.

(** [WatchService]; the compiled pattern is kept as the predicate
    [MatchString] computes, the watcher and the executor's streams live in
    the outside world. *)
Record WatchService := {
  path : string;
  config : Config;
  watchFlags : gmap string EventBit.t;
  includePatternRegexp : string -> bool;
  dirs : gmap string bool;
  entries : gmap string FileEntry
}.

Definition setDirs (w : WatchService) (d : gmap string bool) : WatchService :=
  {| path := path w; config := config w; watchFlags := watchFlags w;
     includePatternRegexp := includePatternRegexp w;
     dirs := d; entries := entries w |}.

Definition setEntries (w : WatchService) (e : gmap string FileEntry)
  : WatchService :=
  {| path := path w; config := config w; watchFlags := watchFlags w;
     includePatternRegexp := includePatternRegexp w;
     dirs := dirs w; entries := e |}.

(** [isDir]. *)
Definition isDir (w : WatchService) (p : string) : bool :=
  bool_decide (is_Some (dirs w !! p)).

(** The zero [time.Time] the worker's [lastExec] starts from, in
    nanoseconds since the Unix epoch. *)
Definition zeroTime : Z := (-62135596800000000000)%Z.

(** The body of [checkEventType]: the first predicate the event answers
    decides the key that is looked up; [IsAttrib] comes before [IsModify]
    and looks nothing up. *)
Definition eventTypeMatched (watchedEvents : gmap string EventBit.t)
    (evt : FileEvent) : bool :=
  if IsCreate evt
  then bool_decide (is_Some (watchedEvents !! EventBit.Name CreateEvent))
  else if IsAttrib evt then false
  else if IsModify evt
  then bool_decide (is_Some (watchedEvents !! EventBit.Name ModifyEvent))
  else if IsDelete evt
  then bool_decide (is_Some (watchedEvents !! EventBit.Name DeleteEvent))
  else if IsRename evt
  then bool_decide (is_Some (watchedEvents !! EventBit.Name RenameEvent))
  else false.

(** [checkEventType]. *)
Definition checkEventType (watchedEvents : gmap string EventBit.t)
    (evt : FileEvent) : M bool :=
  decorator "check filesystem event is matching watch events flag"
    (ret (eventTypeMatched watchedEvents evt)).

(** [checkPatternMatching]. *)
Definition checkPatternMatching (pattern : string -> bool) (evt : FileEvent)
  : M bool :=
  decorator "check filename is matching the pattern"
    (ret (pattern (Name evt))).

(** [checkExecInterval].  Times and durations are nanosecond counts; Go's
    [Sub] saturates at the ends of [int64], which keeps the sign. *)
Definition checkExecInterval (lastExec interval now : Z) : M bool :=
  decorator "check execution interval"
    (ret (if (interval =? 0)%Z then true
           else (0 <? now - (lastExec + interval))%Z)).

(** The stages of the pipeline, as the worker's actions show them. *)
Inductive Stage := Sync | Pattern | Classify | Throttle | Debounce | Runner.

#[global] Instance Stage_eq_dec : EqDecision Stage.
Proof. solve_decision. Defined.

Definition stageOf (a : Action) : option Stage :=
  match a with
  | ACall fn =>
      if String.eqb fn "syncWatchersAndCaches" then Some Sync
      else if String.eqb fn "run" then Some Runner
      else None
  | AStage title =>
      if String.eqb title "check filename is matching the pattern"
      then Some Pattern
      else if String.eqb title
                "check filesystem event is matching watch events flag"
      then Some Classify
      else if String.eqb title "check execution interval" then Some Throttle
      else if String.eqb title "check the file content is changed"
      then Some Debounce
      else None
  | _ => None
  end.

Definition stagesOf (l : list Action) : list Stage := omap stageOf l.

(** The size a poll of [p] finds when it is the world's question [t]. *)
Definition pollAt (W : World) (p : string) (t : nat) : option Z :=
  fi_size <$> statAt W t p.

(** Poll [i] of a wait that starts at question [t] with [lastSize = last]
    succeeds and finds the size it is compared with: [last] for the first
    poll, the size of the poll before for the others. *)
Definition unchangedPoll (W : World) (p : string) (t : nat) (last : Z)
    (i : nat) : Prop :=
  match i with
  | O => pollAt W p t = Some last
  | S j => exists z, pollAt W p (t + j) = Some z /\ pollAt W p (t + S j) = Some z
  end.

(** Polls [n] and [n + 1] are both unchanged: the threshold of two
    consecutive unchanged polls is reached at poll [n + 1]. *)
Definition stableFrom (W : World) (p : string) (t : nat) (last : Z) (n : nat)
  : Prop :=
  unchangedPoll W p t last n /\ unchangedPoll W p t last (S n).

Section Program.

Variable W : World.

(** [getFileSize]: [os.Stat] and the size of what it found. *)
Definition getFileSize (filename : string) : M (option Z) := fun t =>
  let r := fi_size <$> statAt W t filename in
  (Ret r, S t, [ASize filename r]).

(** [getContentHash]: open, copy everything into the checksum, sum; a
    failure of either step is the error returned (the deferred [Close]
    has no part in the result). *)
Definition getContentHash (filename : string) : M (option Z) := fun t =>
  let r := adler32 <$> readAt W t filename in
  (Ret r, S t, [AHash filename r]).

Definition osStat (p : string) : M (option FileInfo) := fun t =>
  let r := statAt W t p in (Ret r, S t, [AStat p r]).

Definition timeNow : M Z := fun t =>
  let r := nowAt W t in (Ret r, S t, [ANow r]).

Definition watcherWatch (p : string) : M bool := fun t =>
  let r := watchAt W t p in (Ret r, S t, [AWatch p r]).

Definition watcherRemoveWatch (p : string) : M unit :=
  emit (ARemoveWatch p).

Definition cmdRun (args : list string) : M bool := fun t =>
  let r := runAt W t args in (Ret r, S t, [ARun args r]).

(** [newFileEntry]. *)
Definition newFileEntry (filename : string) : M (option FileEntry) :=
  r <- getFileSize filename ;
  match r with
  | None => ret None
  | Some contentSize =>
      r <- getContentHash filename ;
      match r with
      | None => ret None
      | Some sum => ret (Some {| size := contentSize; hash := sum |})
      end
  end.

(** The [for] loop of [waitForFileClose], from the loop variables
    [lastSize] and [counter]; one unit of fuel per iteration. *)
Fixpoint waitLoop (fuel : nat) (path : string) (lastSize counter : Z)
  : M error :=
  match fuel with
  | O => stuck
  | S fuel' =>
      r <- getFileSize path ;
      match r with
      | None => ret failed
      | Some currentSize =>
          if (lastSize =? currentSize)%Z then
            let counter := (counter + 1)%Z in
            if (counter >=? FileCloseCheckThreshold)%Z then ret nil_error
            else '_ <- emit ASleep ; waitLoop fuel' path currentSize counter
          else
            '_ <- emit ASleep ; waitLoop fuel' path currentSize 0%Z
      end
  end.

(** [waitForFileClose]: both loop variables start at zero. *)
Definition waitForFileClose (fuel : nat) (path : string) : M error :=
  waitLoop fuel path 0%Z 0%Z.

(** [checkFileContentChanged].  The map holds pointers, one per key, so
    the assignments to [cachedEntry]'s fields are updates of the map. *)
Definition checkFileContentChanged (fuel : nat)
    (entries : gmap string FileEntry) (path : string)
  : M (bool * gmap string FileEntry) :=
  decorator "check the file content is changed" (
    err <- waitForFileClose fuel path ;
    if negb (is_nil err) then ret (false, entries)
    else
      match entries !! path with
      | None =>
          r <- newFileEntry path ;
          match r with
          | None => ret (false, entries)
          | Some newEntry => ret (true, <[path := newEntry]> entries)
          end
      | Some cachedEntry =>
          r <- getFileSize path ;
          match r with
          | None => ret (false, entries)
          | Some contentSize =>
              let sizeDiffers := negb (size cachedEntry =? contentSize)%Z in
              let cachedEntry :=
                if sizeDiffers
                then {| size := contentSize; hash := hash cachedEntry |}
                else cachedEntry in
              let entries :=
                if sizeDiffers then <[path := cachedEntry]> entries
                else entries in
              r <- getContentHash path ;
              match r with
              | None => ret (false, entries)
              | Some contentHash =>
                  let hashDiffers :=
                    negb (hash cachedEntry =? contentHash)%Z in
                  let entries :=
                    if hashDiffers
                    then <[path := {| size := size cachedEntry;
                                      hash := contentHash |}]> entries
                    else entries in
                  ret (sizeDiffers || hashDiffers, entries)
              end
          end
      end).

(** ** watchservice.go: the service *)

Variable ToLower : string -> string.       (* strings.ToLower *)
Variable PathSeparator : ascii.            (* os.PathSeparator *)
Variable ContinueOnError : bool.           (* the package-level flag *)
Variable regexpCompile : string -> option (string -> bool).

(** The first loop of [validateWatchFlags]: [Some containsAll], or [None]
    at the first name that is neither valid nor "all". *)
Fixpoint scanEvents (events : list string) (containsAll : bool)
  : option bool :=
  match events with
  | [] => Some containsAll
  | event :: rest =>
      let eevent := ToLower event in
      if String.eqb eevent "all" then scanEvents rest true
      else if negb (bool_decide (is_Some (ValidEvents !! eevent))) then None
      else scanEvents rest containsAll
  end.

(** The second loop of [validateWatchFlags]. *)
Definition populate (events : list string) : gmap string EventBit.t :=
  fold_left (fun watchedFlags event =>
    let lcEvent := ToLower event in
    if String.eqb lcEvent (EventBit.Name CreateEvent)
    then <[EventBit.Name CreateEvent := CreateEvent]> watchedFlags
    else if String.eqb lcEvent (EventBit.Name DeleteEvent)
    then <[EventBit.Name DeleteEvent := DeleteEvent]> watchedFlags
    else if String.eqb lcEvent (EventBit.Name ModifyEvent)
    then <[EventBit.Name ModifyEvent := ModifyEvent]> watchedFlags
    else if String.eqb lcEvent (EventBit.Name RenameEvent)
    then <[EventBit.Name RenameEvent := RenameEvent]> watchedFlags
    else watchedFlags) events ∅.

(** [validateWatchFlags]; [None] stands for a non-nil error. *)
Definition validateWatchFlags (events : list string)
  : option (gmap string EventBit.t) :=
  if (List.length events =? 0)%nat then None
  else
    match scanEvents events false with
    | None => None
    | Some containsAll =>
        Some (if containsAll then ValidEvents else populate events)
    end.

(** [NewWatchService]. *)
Definition NewWatchService (p : string) (c : Config) : option WatchService :=
  match validateWatchFlags (Events c) with
  | None => None
  | Some flags =>
      match regexpCompile (IncludePattern c) with
      | None => None
      | Some re =>
          Some {| path := p; config := c; watchFlags := flags;
                  includePatternRegexp := re; dirs := ∅; entries := ∅ |}
      end
  end.

(** The purge loop of [syncWatchersAndCaches]: a pass over the cache that
    deletes every key with the prefix. *)
Definition purgePrefix (dirPath : string) (es : gmap string FileEntry)
  : gmap string FileEntry :=
  map_fold (fun entryPath _ acc =>
              if GoStrings.HasPrefix entryPath dirPath
              then delete entryPath acc else acc) es es.

(** [syncWatchersAndCaches]. *)
Definition syncWatchersAndCaches (w : WatchService) (evt : FileEvent)
  : M WatchService :=
  '_ <- emit (ACall "syncWatchersAndCaches") ;
  let p := Name evt in
  if IsCreate evt then
    st <- osStat p ;
    match st with
    | None => ret w
    | Some info =>
        if fi_isDir info then
          '_ <- watcherWatch p ;
          ret (setDirs w (<[p := true]> (dirs w)))
        else ret w
    end
  else if IsRename evt || IsDelete evt then
    if isDir w p then
      '_ <- watcherRemoveWatch p ;
      let dirPath := p +:+ String PathSeparator EmptyString in
      ret (setEntries (setDirs w (delete p (dirs w)))
                       (purgePrefix dirPath (entries w)))
    else ret (setEntries w (delete p (entries w)))
  else ret w.

(** [Executor.execute]: the argument vector is the same on both branches
    of the length test. *)
Definition execute (command : string) (evt : FileEvent) : M error :=
  let commandArgs := commandArgs command evt in
  let args :=
    if (1 <? List.length commandArgs)%nat
    then hd EmptyString commandArgs :: tl commandArgs
    else [hd EmptyString commandArgs] in
  ok <- cmdRun args ;
  ret (if ok : bool then nil_error else failed).

(** The loop of [run]. *)
Fixpoint runCommands (commands : list string) (evt : FileEvent) : M unit :=
  match commands with
  | [] => ret tt
  | command :: rest =>
      err <- execute command evt ;
      if negb (is_nil err) && negb ContinueOnError then ret tt
      else runCommands rest evt
  end.

(** [run]. *)
Definition run (w : WatchService) (evt : FileEvent) : M unit :=
  '_ <- emit (ACall "run") ;
  runCommands (Commands (config w)) evt.

(** The body of the worker's loop for one event; the result is the
    service and [lastExec] the next iteration starts from. *)
Definition handleEvent (fuel : nat) (w : WatchService) (lastExec : Z)
    (evt : FileEvent) : M (WatchService * Z) :=
  w <- syncWatchersAndCaches w evt ;
  matched <- checkPatternMatching (includePatternRegexp w) evt ;
  if matched then
    matched <- checkEventType (watchFlags w) evt ;
    if matched then
      now <- timeNow ;
      allowed <- checkExecInterval lastExec (Interval (config w)) now ;
      if allowed then
        if isDir w (Name evt) then
          lastExec <- timeNow ;
          '_ <- run w evt ;
          ret (w, lastExec)
        else if IsModify evt then
          '(changed, es) <- checkFileContentChanged fuel (entries w) (Name evt) ;
          let w := setEntries w es in
          if negb changed then ret (w, lastExec)
          else
            lastExec <- timeNow ;
            '_ <- run w evt ;
            ret (w, lastExec)
        else
          lastExec <- timeNow ;
          '_ <- run w evt ;
          ret (w, lastExec)
      else ret (w, lastExec)
    else ret (w, lastExec)
  else ret (w, lastExec).

(** [startWorker], over the events the channel delivers. *)
Fixpoint workerLoop (fuel : nat) (w : WatchService) (lastExec : Z)
    (events : list FileEvent) : M (WatchService * Z) :=
  match events with
  | [] => ret (w, lastExec)
  | evt :: rest =>
      '(w, lastExec) <- handleEvent fuel w lastExec evt ;
      workerLoop fuel w lastExec rest
  end.

Definition startWorker (fuel : nat) (w : WatchService)
    (events : list FileEvent) : M (WatchService * Z) :=
  workerLoop fuel w zeroTime events.

(** The function [watchFolders] passes to [filepath.Walk]: [d] is
    [w.dirs], [isdir] is [info.IsDir()], [errPath] tells whether the error
    argument is non-nil. *)
Definition walkFn (d : gmap string bool) (p : string) (isdir errPath : bool)
  : M (gmap string bool * WalkError) :=
  if isdir then
    let relativePath := "./" +:+ p in
    if negb errPath then
      let d := <[relativePath := true]> d in
      ok <- watcherWatch p ;
      ret (d, if ok : bool then walk_nil else walk_failed)
    else ret (d, SkipDir)
  else ret (d, walk_nil).

(** The loop of [filepath.Walk] over the entries of a directory, [visit]
    being the walk of one entry: [SkipDir] from a directory entry skips it,
    any other error ends the walk. *)
Definition walkList (visit : Tree -> gmap string bool ->
                             M (gmap string bool * WalkError))
  : list Tree -> gmap string bool -> M (gmap string bool * WalkError) :=
  fix loop (l : list Tree) (d : gmap string bool) :=
    match l with
    | [] => ret (d, walk_nil)
    | c :: cs =>
        '(d, err) <- visit c d ;
        match err with
        | walk_nil => loop cs d
        | SkipDir => if isDirTree c then loop cs d else ret (d, SkipDir)
        | walk_failed => ret (d, walk_failed)
        end
    end.

(** [filepath.Walk] below a root whose [Lstat] succeeded: the function is
    called on every node before its children; [SkipDir] from a directory
    skips it, any other error ends the walk; a directory that cannot be
    listed is reported to the function a second time, with the error. *)
Fixpoint walk (t : Tree) (d : gmap string bool)
  : M (gmap string bool * WalkError) :=
  match t with
  | File p => walkFn d p false false
  | Dir p readable children =>
      '(d, err) <- walkFn d p true false ;
      match err with
      | SkipDir => ret (d, walk_nil)
      | walk_failed => ret (d, walk_failed)
      | walk_nil =>
          if negb readable then walkFn d p true true
          else walkList walk children d
      end
  end.

(** [watchFolders]; [tree] is what the walk finds at [w.path]. *)
Definition watchFolders (w : WatchService) (tree : Tree)
  : M (WatchService * WalkError) :=
  if Recursive (config w) then
    '(d, err) <- walk tree (dirs w) ;
    ret (setDirs w d, err)
  else
    ok <- watcherWatch (path w) ;
    ret (w, if ok : bool then walk_nil else walk_failed).

End Program.


(** The result [r] of a walk that started with the watch set [d] is a
    success after which the watch set has gained the directories of [paths]
    under their relative names, each of them registered with the watcher. *)
Definition walked (paths : list string) (d : gmap string bool)
    (r : Outcome (gmap string bool * WalkError) * nat * list Action) : Prop :=
  exists d' t' l,
    r = (Ret (d', walk_nil), t', l)
    /\ (forall q, is_Some (d' !! q)
                  <-> is_Some (d !! q)
                      \/ exists p, In p paths /\ q = "./" +:+ p)
    /\ (forall p, In p paths -> In (AWatch p true) l).

(** ** Sample worlds and services *)

Definition regularFile (n : Z) : FileInfo := {| fi_isDir := false; fi_size := n |}.
Definition directory : FileInfo := {| fi_isDir := true; fi_size := 4096 |}.

(** Every path is a five-byte file that nobody touches. *)
Definition steadyWorld : World :=
  {| statAt := fun _ _ => Some (regularFile 5);
     readAt := fun _ _ => Some [Byte.x68; Byte.x65; Byte.x6c; Byte.x6c; Byte.x6f];
     nowAt := fun t => Z.of_nat t;
     watchAt := fun _ _ => true;
     runAt := fun _ _ => true |}.

(** Every path is a file that is longer each time it is looked at. *)
Definition growingWorld : World :=
  {| statAt := fun t _ => Some (regularFile (Z.of_nat t + 1));
     readAt := fun _ _ => Some [];
     nowAt := fun t => Z.of_nat t;
     watchAt := fun _ _ => true;
     runAt := fun _ _ => true |}.

(** Every path is a five-byte file that cannot be opened. *)
Definition unreadableWorld : World :=
  {| statAt := fun _ _ => Some (regularFile 5);
     readAt := fun _ _ => None;
     nowAt := fun t => Z.of_nat t;
     watchAt := fun _ _ => true;
     runAt := fun _ _ => true |}.

(** Every path is a five-byte file that vanishes after two questions. *)
Definition vanishingWorld : World :=
  {| statAt := fun t _ => if (t <? 2)%nat then Some (regularFile 5) else None;
     readAt := fun _ _ => None;
     nowAt := fun t => Z.of_nat t;
     watchAt := fun _ _ => true;
     runAt := fun _ _ => true |}.

(** Every path is a directory. *)
Definition directoryWorld : World :=
  {| statAt := fun _ _ => Some directory;
     readAt := fun _ _ => None;
     nowAt := fun t => Z.of_nat t;
     watchAt := fun _ _ => true;
     runAt := fun _ _ => true |}.

(** The predicate of the pattern [\.go$]. *)
Definition endsInGo (s : string) : bool :=
  String.eqb (String.substring (String.length s - 3) 3 s) ".go".

Definition sampleConfig (interval : Z) : Config :=
  {| Recursive := false;
     Events := ["modify"];
     IncludePattern := "\.go$";
     Commands := ["echo %f %t"];
     Interval := interval |}.

(** A service that reacts to modifications of Go files, watches the
    directory src and has seen src/a.go and srcs/b.go. *)
Definition sampleService (interval : Z) : WatchService :=
  {| path := "src";
     config := sampleConfig interval;
     watchFlags := <["modify" := ModifyEvent]> ∅;
     includePatternRegexp := endsInGo;
     dirs := <["src" := true]> ∅;
     entries := <["src/a.go" := {| size := 4; hash := 7 |}]>
                  (<["srcs/b.go" := {| size := 1; hash := 2 |}]> ∅) |}.

(** ** More of the sources: strings, configuration, padding *)

(** [strings.Join fields sep]. *)
Fixpoint Join (fields : list string) (sep : string) : string :=
  match fields with
  | [] => EmptyString
  | f :: rest =>
      match rest with
      | [] => f
      | _ :: _ => f +:+ sep +:+ Join rest sep
      end
  end.

(** [strings.Repeat s count] for a count that is not negative and a
    result whose length is a Go int (otherwise it panics). *)
Fixpoint Repeat (s : string) (count : nat) : string :=
  match count with
  | O => EmptyString
  | S n => s +:+ Repeat s n
  end.

(** Does byte [c] occur in [s]? *)
Fixpoint containsByte (c : ascii) (s : string) : bool :=
  match s with
  | EmptyString => false
  | String d s' => Ascii.eqb d c || containsByte c s'
  end.

(** config.go, [StringSet.Set]: appends the value. *)
Definition StringSet_Set (f : list string) (value : string) : list string :=
  f ++ [value].


(** A Go [int] after an arithmetic operation: the result wraps around at
    64 bits. *)
Definition wrap64 (z : Z) : Z := ((z + 2 ^ 63) mod 2 ^ 64 - 2 ^ 63)%Z.

(** util.go, [PaddingLeft]; [maxLen] is a Go [int]. *)
Definition PaddingLeft (original : string) (maxLen : Z) (char : string)
  : string :=
  let n := wrap64 (maxLen - Z.of_nat (String.length original)) in
  if (0 <? n)%Z then Repeat char (Z.to_nat n) +:+ original else original.

(** ** More of the sources: notions for the properties *)

Definition isSizeRead (a : Action) : bool :=
  match a with ASize _ _ => true | _ => false end.

Definition isSleep (a : Action) : bool :=
  match a with ASleep => true | _ => false end.

(** A size or checksum read, whatever its result. *)
Definition isFingerprintRead (a : Action) : bool :=
  match a with ASize _ _ | AHash _ _ => true | _ => false end.

(** The argument vectors of the commands run, in order. *)
Definition runArgs (l : list Action) : list (list string) :=
  omap (fun a => match a with ARun args _ => Some args | _ => None end) l.

(** The results of the commands run, in order. *)
Definition runResults (l : list Action) : list bool :=
  omap (fun a => match a with ARun _ ok => Some ok | _ => None end) l.



(** The worker's last two steps on an event it executes: note the time,
    run the commands. *)
Definition stampAndRun (W : World) (ContinueOnError : bool)
    (w : WatchService) (evt : FileEvent) : M (WatchService * Z) :=
  lastExec <- timeNow W ;
  '_ <- run W ContinueOnError w evt ;
  ret (w, lastExec).

(** What an action does to the set of paths registered with the watcher. *)
Definition registerAction (reg : gset string) (a : Action) : gset string :=
  match a with
  | AWatch p true => {[p]} ∪ reg
  | ARemoveWatch p => reg ∖ {[p]}
  | _ => reg
  end.

Definition registeredAfter (reg : gset string) (l : list Action)
  : gset string :=
  fold_left registerAction l reg.

(** [os.Stat] finds a directory at [p] when it is question [t]. *)
Definition statsAsDir (W : World) (t : nat) (p : string) : bool :=
  match statAt W t p with
  | Some info => fi_isDir info
  | None => false
  end.


(** The watch set [d'] holds [d] and beyond it only relative names of
    [paths]. *)
Definition grownBy (paths : list string) (d d' : gmap string bool) : Prop :=
  (forall q, is_Some (d !! q) -> is_Some (d' !! q))
  /\ (forall q, is_Some (d' !! q) ->
        is_Some (d !! q) \/ exists p, In p paths /\ q = "./" +:+ p).

(** An event name the validation accepts, in any case of its letters. *)
Definition accepted (ToLower : string -> string) (e : string) : Prop :=
  In (ToLower e) ["create"; "delete"; "modify"; "rename"; "all"].

(** The verdict of [checkExecInterval]. *)
Definition allowedAt (lastExec interval now : Z) : bool :=
  if (interval =? 0)%Z then true else (0 <? now - (lastExec + interval))%Z.

(** ** daemon/daemon.go: the daemon around a service *)

Module daemon.

(** [Daemon]; the [service] field is an interface value whose two methods
    are answered by the host below. *)
Record Daemon := {
  name : string;
  pid : Z;
  foreground : bool;
  running : bool
}.

(** The operating system and the managed service as the daemon meets them.
    The daemon's [n]-th call is answered by the fields at index [n], and
    nothing relates one answer to another.  [runningAt] answers
    [isOSProcessRunning], which is not among the sources. *)
Record Host := {
  Getpid : Z;                                    (* os.Getpid *)
  readFileAt : nat -> string -> option string;   (* ioutil.ReadFile; [None]: error *)
  writeFileAt : nat -> string -> string -> bool; (* ioutil.WriteFile succeeds *)
  removeAt : nat -> string -> bool;              (* os.Remove succeeds *)
  findProcessAt : nat -> Z -> bool;              (* os.FindProcess succeeds *)
  signalAt : nat -> Z -> bool;                   (* process.Signal succeeds *)
  runningAt : nat -> Z -> bool;                  (* isOSProcessRunning *)
  startAt : nat -> bool;                         (* service.Start returns nil *)
  stopAt : nat -> bool                           (* service.Stop returns nil *)
}.

(** The calls a daemon makes, with their answers. *)
Inductive Call :=
| ReadFile (filename : string) (data : option string)
| WriteFile (filename data : string) (ok : bool)
| Remove (filename : string) (ok : bool)
| FindProcess (p : Z) (ok : bool)
| Signal (p : Z) (ok : bool)
| ProcessRunning (p : Z) (r : bool)
| ServiceStart (ok : bool)
| ServiceStop (ok : bool).

(** The errors the methods return: none, [errors.New] of a message,
    [fmt.Errorf("cannot stop the process:%d", pid)], or the error of the
    call that failed. *)
Inductive Error :=
| no_error
| errorString (msg : string)
| cannot_stop (p : Z)
| call_error.

Definition D (A : Type) : Type := nat -> A * nat * list Call.

Definition pure {A} (a : A) : D A := fun t => (a, t, []).

Definition andThen {A B} (m : D A) (f : A -> D B) : D B := fun t =>
  let '(a, t1, l1) := m t in
  let '(b, t2, l2) := f a t1 in
  (b, t2, l1 ++ l2).

Notation "x <~ m ; k" := (andThen m (fun x => k))
  (at level 20, m at level 100, k at level 200, only parsing).
Notation "' p <~ m ; k" := (andThen m (fun x => match x with p => k end))
  (at level 20, p pattern, m at level 100, k at level 200, only parsing).

Definition result {A} (r : A * nat * list Call) : A := r.1.1.
Definition calls {A} (r : A * nat * list Call) : list Call := r.2.

Definition setPid (d : Daemon) (p : Z) : Daemon :=
  {| name := name d; pid := p; foreground := foreground d;
     running := running d |}.

Definition setRunning (d : Daemon) (r : bool) : Daemon :=
  {| name := name d; pid := pid d; foreground := foreground d;
     running := r |}.

Definition setForeground (d : Daemon) (f : bool) : Daemon :=
  {| name := name d; pid := pid d; foreground := f; running := running d |}.

(** [NewDaemon]. *)
Definition NewDaemon (n : string) : Daemon :=
  {| name := n; pid := 0; foreground := false; running := false |}.

(** [getPidFilename]. *)
Definition getPidFilename (d : Daemon) : string := "." +:+ name d +:+ ".pid".

(** [GetPid]. *)
Definition GetPid (d : Daemon) : Z := pid d.

Section Methods.

Variable H : Host.

(** [strconv.Itoa], and [strconv.Atoi] with [err == nil] as its second
    result (the first need not be zero when the second is false). *)
Variable Itoa : Z -> string.
Variable Atoi : string -> Z * bool.

Definition ioutilReadFile (filename : string) : D (option string) := fun t =>
  let r := readFileAt H t filename in (r, S t, [ReadFile filename r]).

Definition ioutilWriteFile (filename data : string) : D bool := fun t =>
  let r := writeFileAt H t filename data in
  (r, S t, [WriteFile filename data r]).

Definition osRemove (filename : string) : D bool := fun t =>
  let r := removeAt H t filename in (r, S t, [Remove filename r]).

Definition osFindProcess (p : Z) : D bool := fun t =>
  let r := findProcessAt H t p in (r, S t, [FindProcess p r]).

Definition processSignal (p : Z) : D bool := fun t =>
  let r := signalAt H t p in (r, S t, [Signal p r]).

Definition isOSProcessRunning (p : Z) : D bool := fun t =>
  let r := runningAt H t p in (r, S t, [ProcessRunning p r]).

Definition serviceStart : D bool := fun t =>
  let r := startAt H t in (r, S t, [ServiceStart r]).

Definition serviceStop : D bool := fun t =>
  let r := stopAt H t in (r, S t, [ServiceStop r]).

(** [readPidFromFile]: the pid and whether [err == nil]; the pid is zero
    when the file cannot be read. *)
Definition readPidFromFile (filename : string) : D (Z * bool) :=
  data <~ ioutilReadFile filename ;
  match data with
  | Some s => pure (Atoi s)
  | None => pure (0%Z, false)
  end.

(** [IsRunning]. *)
Definition IsRunning (d : Daemon) : D (Daemon * bool) :=
  if running d then pure (d, true)
  else
    '(p, ok) <~ readPidFromFile (getPidFilename d) ;
    let d := setPid d p in
    if ok : bool then
      r <~ isOSProcessRunning (pid d) ;
      let d := setRunning d r in
      pure (d, running d)
    else pure (d, running d).

(** [Start]. *)
Definition Start (d : Daemon) : D (Daemon * Error) :=
  '(d, isRunning) <~ IsRunning d ;
  if isRunning : bool then
    pure (d, errorString (name d +:+ " is already running"))
  else
    ok <~ ioutilWriteFile (getPidFilename d) (Itoa (Getpid H)) ;
    if negb ok then pure (d, call_error)
    else
      ok <~ serviceStart ;
      if negb ok then pure (d, call_error)
      else
        let d := setForeground d true in
        let d := setRunning d true in
        let d := setPid d (Getpid H) in
        pure (d, no_error).

(** [Stop]. *)
Definition Stop (d : Daemon) : D (Daemon * Error) :=
  '(d, isRunning) <~ IsRunning d ;
  if negb isRunning then pure (d, errorString (name d +:+ " does not exist"))
  else if foreground d then
    ok <~ serviceStop ;
    if negb ok then pure (d, call_error)
    else
      ok <~ osRemove (getPidFilename d) ;
      if negb ok then pure (d, call_error)
      else pure (setRunning d false, no_error)
  else
    ok <~ osFindProcess (pid d) ;
    if negb ok then pure (d, call_error)
    else
      ok <~ processSignal (pid d) ;
      if negb ok then pure (d, call_error)
      else
        r <~ isOSProcessRunning (pid d) ;
        let d := setRunning d r in
        if running d then pure (d, cannot_stop (pid d))
        else pure (d, no_error).

(** The exported methods, as a caller can invoke them one after the
    other on the same daemon. *)
Inductive Method := CallStart | CallStop | CallIsRunning.

Definition invoke (m : Method) (d : Daemon) : D Daemon :=
  match m with
  | CallStart => '(d, _) <~ Start d ; pure d
  | CallStop => '(d, _) <~ Stop d ; pure d
  | CallIsRunning => '(d, _) <~ IsRunning d ; pure d
  end.

Fixpoint invokeAll (ms : list Method) (d : Daemon) : D Daemon :=
  match ms with
  | [] => pure d
  | m :: rest => d <~ invoke m d ; invokeAll rest d
  end.

End Methods.

(** The calls that only a foreground stop makes, and those that only a
    background stop makes. *)
Definition isShutdown (c : Call) : bool :=
  match c with ServiceStop _ | Remove _ _ => true | _ => false end.

Definition isSignalling (c : Call) : bool :=
  match c with FindProcess _ _ | Signal _ _ => true | _ => false end.

Definition isStarted (c : Call) : bool :=
  match c with ServiceStart true => true | _ => false end.

(** A sequence of calls in which the service is stopped and the pid file
    removed only after a start of the service has succeeded ([started]
    tells whether one has before the sequence), and a process is looked up
    and signalled only before. *)
Fixpoint wellOrdered (started : bool) (l : list Call) : bool :=
  match l with
  | [] => true
  | c :: rest =>
      (if isShutdown c then started else true)
      && (if isSignalling c then negb started else true)
      && wellOrdered (started || isStarted c) rest
  end.

End daemon.

(** ** More of the sources: sample data *)

(** A service that watches src and what is below it, and has seen nothing
    yet. *)
Definition recursiveService : WatchService :=
  {| path := "src";
     config := {| Recursive := true;
                  Events := ["modify"];
                  IncludePattern := "\.go$";
                  Commands := ["echo %f %t"];
                  Interval := 0 |};
     watchFlags := <["modify" := ModifyEvent]> ∅;
     includePatternRegexp := endsInGo;
     dirs := ∅;
     entries := ∅ |}.

(** src with a file, a package and a directory that cannot be listed. *)
Definition sampleTree : Tree :=
  Dir "src" true
    [File "src/a.go";
     Dir "src/pkg" true [File "src/pkg/b.go"];
     Dir "src/secret" false [Dir "src/secret/keys" true []]].

(** A host on which every call succeeds but, perhaps, the start of the
    service: the process is 4242, there is no pid file at the daemon's
    first call and one that holds 4242 afterwards, and every process asked
    about is running. *)
Definition sampleHost (starts : bool) : daemon.Host :=
  {| daemon.Getpid := 4242;
     daemon.readFileAt := fun t _ =>
       if (t =? 0)%nat then None else Some "4242";
     daemon.writeFileAt := fun _ _ _ => true;
     daemon.removeAt := fun _ _ => true;
     daemon.findProcessAt := fun _ _ => true;
     daemon.signalAt := fun _ _ => true;
     daemon.runningAt := fun _ _ => true;
     daemon.startAt := fun _ => starts;
     daemon.stopAt := fun _ => true |}.

(** Decimal numerals, for [strconv.Itoa] and [strconv.Atoi] on the sample
    host. *)
Definition decimalItoa (z : Z) : string :=
  DecimalString.NilZero.string_of_int (Z.to_int z).

Definition decimalAtoi (s : string) : Z * bool :=
  match DecimalString.NilZero.int_of_string s with
  | Some i => (Z.of_int i, true)
  | None => (0%Z, false)
  end.

(** * Properties *)

(** ** Replacement *)

Module GoStringsFacts.
Import GoStrings.

Lemma append_cons (c : ascii) (a b : string) :
  String c a +:+ b = String c (a +:+ b).
Proof. reflexivity. Qed.

Lemma append_empty_r (a : string) : a +:+ EmptyString = a.
Proof.
  induction a as [|x a IH]; [reflexivity|]. rewrite append_cons. now f_equal.
Qed.

Lemma append_assoc (a b c : string) : (a +:+ b) +:+ c = a +:+ (b +:+ c).
Proof.
  induction a as [|x a IH]; [reflexivity|].
  rewrite !append_cons. now f_equal.
Qed.

Lemma prefix_self_append (x b : string) : String.prefix x (x +:+ b) = true.
Proof.
  induction x as [|c x IH].
  - now destruct b.
  - rewrite append_cons. cbn [String.prefix].
    destruct (ascii_dec c c) as [_|n]; [exact IH | now destruct n].
Qed.

(** Where no match starts, the scan copies. *)
Lemma replace_miss (old new : string) (c : ascii) (s : string) :
  HasPrefix (String c s) old = false ->
  replace_from old new 0 (String c s)
  = String c (replace_from old new 0 s).
Proof. intros H. cbn [replace_from]. now rewrite H. Qed.

(** Consuming the rest of a match. *)
Lemma replace_skip (old new x b : string) :
  replace_from old new (String.length x) (x +:+ b)
  = replace_from old new 0 b \/ b = EmptyString.
Proof.
  destruct b as [|c b]; [now right | left].
  induction x as [|d x IH]; [reflexivity|].
  rewrite append_cons. exact IH.
Qed.

Lemma replace_skip_end (old new x : string) :
  replace_from old new (String.length x) x = EmptyString.
Proof. induction x as [|d x IH]; [reflexivity | exact IH]. Qed.

(** A token at the head of the string is replaced, and the scan resumes
    behind it. *)
Lemma replace_token (o : ascii) (r new b : string) :
  replace_from (String o r) new 0 (String o r +:+ b)
  = new +:+ replace_from (String o r) new 0 b.
Proof.
  pose proof (prefix_self_append (String o r) b) as Hpre.
  rewrite append_cons in *. cbn [replace_from]. unfold HasPrefix at 1.
  rewrite Hpre. f_equal.
  replace (String.length (String o r) - 1) with (String.length r)
    by (cbn [String.length]; lia).
  destruct (replace_skip (String o r) new r b) as [H | ->]; [exact H|].
  rewrite append_empty_r. apply replace_skip_end.
Qed.

End GoStringsFacts.

(** ** Substitution of the command variables *)

Section Substitution.
Import GoStrings GoStringsFacts.

Lemma flatten_cons (x : string) (l : list string) :
  flatten (x :: l) = x +:+ flatten l.
Proof. reflexivity. Qed.

Lemma getEventType_rawEvent (k : Kind) (p : string) :
  getEventType (rawEvent k p) = entryName k.
Proof. destruct k; reflexivity. Qed.

(** Text that cannot form a token passes the scan for either token
    unchanged, and the scan resumes behind it. *)
Lemma replace_app_safe (x : ascii) (new a b : string) :
  x = "f"%char \/ x = "t"%char ->
  tokenSafe a = true ->
  replace_from (String "%" (String x "")) new 0 (a +:+ b)
  = a +:+ replace_from (String "%" (String x "")) new 0 b.
Proof.
  intros Hx. induction a as [|c a IH]; intros Hs; [reflexivity|].
  cbn [tokenSafe] in Hs. apply andb_true_iff in Hs as [Hc Ha].
  rewrite !append_cons, replace_miss; [now rewrite IH|].
  unfold HasPrefix. cbn [String.prefix].
  destruct (ascii_dec "%" c) as [<-|_]; [|reflexivity].
  rewrite Ascii.eqb_refl in Hc.
  destruct a as [|d a]; [discriminate|].
  rewrite append_cons. cbn [String.prefix].
  apply andb_true_iff in Hc as [Hf Ht].
  apply negb_true_iff, Ascii.eqb_neq in Hf, Ht.
  destruct (ascii_dec x d) as [<-|_]; [|reflexivity].
  destruct Hx; congruence.
Qed.

(** The scan for the path token steps over a type token. *)
Lemma replace_path_over_type (new b : string) :
  replace_from VarFilename new 0 (VarEventType +:+ b)
  = VarEventType +:+ replace_from VarFilename new 0 b.
Proof.
  unfold VarFilename, VarEventType. rewrite !append_cons.
  change (EmptyString +:+ ?x) with x.
  cbn [replace_from HasPrefix String.prefix].
  destruct (ascii_dec "%" "%"); [|congruence].
  destruct (ascii_dec "f" "t"); [discriminate|].
  destruct (ascii_dec "%" "t"); [discriminate|].
  reflexivity.
Qed.

(** The first replacement fills the path tokens and nothing else. *)
Lemma replace_path_template (segs : list Segment) (evt : FileEvent) :
  forallb safeSegment segs = true ->
  Replace (template segs) VarFilename (Name evt)
  = flatten (map (fillPath evt) segs).
Proof.
  unfold Replace, template.
  induction segs as [|seg segs IH]; intros Hp; [reflexivity|].
  cbn [forallb] in Hp. apply andb_true_iff in Hp as [Hs Hrest].
  cbn [map]. rewrite !flatten_cons.
  destruct seg as [s| |]; cbn [render fillPath].
  - unfold VarFilename in *. rewrite replace_app_safe; auto.
    now rewrite IH.
  - unfold VarFilename in *. rewrite replace_token. now rewrite IH.
  - rewrite replace_path_over_type. now rewrite IH.
Qed.

(** The second replacement fills the type tokens; the path it meets is
    left alone when it cannot form a token. *)
Lemma replace_type_filled (segs : list Segment) (evt : FileEvent) :
  forallb safeSegment segs = true ->
  tokenSafe (Name evt) = true ->
  Replace (flatten (map (fillPath evt) segs)) VarEventType (getEventType evt)
  = flatten (map (fill evt) segs).
Proof.
  unfold Replace, VarEventType. intros Hp Hn.
  induction segs as [|seg segs IH]; [reflexivity|].
  cbn [forallb] in Hp. apply andb_true_iff in Hp as [Hs Hrest].
  cbn [map]. rewrite !flatten_cons.
  destruct seg as [s| |]; cbn [fill fillPath].
  - rewrite replace_app_safe; auto. now rewrite IH.
  - rewrite replace_app_safe; auto. now rewrite IH.
  - unfold VarEventType. rewrite replace_token. now rewrite IH.
Qed.

Lemma evaluateVariables_template (segs : list Segment) (evt : FileEvent) :
  forallb safeSegment segs = true ->
  tokenSafe (Name evt) = true ->
  evaluateVariables (template segs) evt = flatten (map (fill evt) segs).
Proof.
  intros Hp Hn. unfold evaluateVariables.
  rewrite replace_path_template by exact Hp.
  now apply replace_type_filled.
Qed.

(** C1 (as the code has it): in a command template whose text outside
    the tokens cannot form a token (no percent sign at its end or before
    an f or a t), for an event whose path cannot either,
    [evaluateVariables] puts the event's path in place of every path token
    and, in place of every type token, the name [getEventType] gives the
    event: ENTRY_CREATE, ENTRY_MODIFY, ENTRY_DELETE or ENTRY_RENAME; the
    executor splits the result of that at the spaces. *)
Theorem evaluateVariables_fills_tokens
    (segs : list Segment) (k : Kind) (p : string) :
  forallb safeSegment segs = true ->
  tokenSafe p = true ->
  let filled :=
    flatten (map (fun seg => match seg with
                             | Lit s => s
                             | PathToken => p
                             | TypeToken => entryName k
                             end) segs) in
  evaluateVariables (template segs) (rawEvent k p) = filled
  /\ commandArgs (template segs) (rawEvent k p)
     = Split filled " "%char.
Proof.
  intros Hp Hn filled.
  assert (H : evaluateVariables (template segs) (rawEvent k p) = filled).
  { rewrite evaluateVariables_template by assumption.
    subst filled. f_equal. apply map_ext.
    intros [s| |]; cbn [fill]; try reflexivity.
    apply getEventType_rawEvent. }
  split; [exact H|]. unfold commandArgs. now rewrite H.
Qed.

End Substitution.

(** Scenario C on the code: the template "echo %f %t" and a modify event on
    /tmp/a.txt give the command "echo /tmp/a.txt ENTRY_MODIFY". *)
Lemma evaluateVariables_scenario_C :
  (forallb safeSegment [Lit "echo "; PathToken; Lit " "; TypeToken] = true
   /\ tokenSafe "/tmp/a.txt" = true)
  /\ evaluateVariables "echo %f %t" (rawEvent Modify "/tmp/a.txt")
     = "echo /tmp/a.txt ENTRY_MODIFY"
  /\ commandArgs "echo %f %t" (rawEvent Modify "/tmp/a.txt")
     = ["echo"; "/tmp/a.txt"; "ENTRY_MODIFY"].
Proof.
  split; [split; reflexivity|].
  exact (evaluateVariables_fills_tokens
           [Lit "echo "; PathToken; Lit " "; TypeToken] Modify "/tmp/a.txt"
           eq_refl eq_refl).
Defined.

(** C1 as the specification words it fails: the type token is not replaced
    by the lower-case kind name, neither in the command string nor in the
    argument vector handed to the executor; and a path that holds a type
    token does not arrive as it is. *)
Lemma evaluateVariables_not_spec_names :
  evaluateVariables "echo %f %t" (rawEvent Modify "/tmp/a.txt")
  <> "echo /tmp/a.txt " +:+ specTypeName Modify
  /\ commandArgs "echo %f %t" (rawEvent Modify "/tmp/a.txt")
     <> ["echo"; "/tmp/a.txt"; "modify"]
  /\ evaluateVariables "cat %f" (rawEvent Modify "/tmp/100%t.txt")
     <> "cat /tmp/100%t.txt".
Proof. repeat split; vm_compute; discriminate. Qed.

(** ** The event classifier *)

Section Classifier.

Variable ToLower : string -> string.

Lemma checkEventType_runs (M : gmap string EventBit.t) (evt : FileEvent)
    (t : nat) :
  checkEventType M evt t
  = (Ret (eventTypeMatched M evt), t,
     [AStage "check filesystem event is matching watch events flag"]).
Proof. reflexivity. Qed.

(** On the events the notification source delivers, the classifier is a
    lookup of the kind's name; a metadata-only change looks nothing up. *)
Lemma eventTypeMatched_rawEvent (M : gmap string EventBit.t) (k : Kind)
    (p : string) :
  eventTypeMatched M (rawEvent k p)
  = match k with
    | AttributeChange => false
    | _ => bool_decide (is_Some (M !! specTypeName k))
    end.
Proof. destruct k; reflexivity. Qed.

Lemma ValidEvents_lookup (k : Kind) :
  k <> AttributeChange -> is_Some (ValidEvents !! specTypeName k).
Proof.
  intros Hk. unfold ValidEvents.
  destruct k; try congruence; cbn [specTypeName]; simplify_map_eq; eauto.
Qed.

(** What the first loop of the validation finds out. *)
Lemma scanEvents_all (events : list string) (acc b : bool) :
  scanEvents ToLower events acc = Some b ->
  b = true <-> (acc = true \/ In "all" (map ToLower events)).
Proof.
  revert acc. induction events as [|e events IH]; intros acc H.
  - cbn in H. injection H as <-. cbn. tauto.
  - cbn [scanEvents] in H. cbn [map In].
    destruct (String.eqb_spec (ToLower e) "all") as [He|He].
    + apply IH in H. rewrite H. intuition.
    + destruct (negb _); [discriminate|].
      apply IH in H. rewrite H. intuition congruence.
Qed.

(** What the second loop of the validation builds. *)
Lemma populate_lookup (events : list string) (k : Kind) :
  k <> AttributeChange ->
  is_Some (populate ToLower events !! specTypeName k)
  <-> In (specTypeName k) (map ToLower events).
Proof.
  intros Hk. unfold populate.
  set (step := fun (watchedFlags : gmap string EventBit.t) event => _).
  assert (Hgen : forall acc : gmap string EventBit.t,
    is_Some (fold_left step events acc !! specTypeName k)
    <-> is_Some (acc !! specTypeName k)
        \/ In (specTypeName k) (map ToLower events)).
  { induction events as [|e events IH]; intros acc.
    - cbn. tauto.
    - cbn [fold_left map In]. rewrite IH. clear IH.
      assert (Hstep : is_Some (step acc e !! specTypeName k)
                      <-> is_Some (acc !! specTypeName k)
                          \/ ToLower e = specTypeName k).
      { unfold step. cbn [EventBit.Name CreateEvent DeleteEvent ModifyEvent
                          RenameEvent].
        destruct k; try congruence; cbn [specTypeName];
          repeat match goal with
            | |- context [String.eqb (ToLower e) ?s] =>
                destruct (String.eqb_spec (ToLower e) s) as [->|?]
            end;
          rewrite ?lookup_insert_eq, ?lookup_insert_ne by discriminate;
          split; intros; try tauto; eauto;
          intuition (eauto; congruence). }
      rewrite Hstep. tauto. }
  rewrite Hgen, lookup_empty. split; [intros [[x Hx]|?]|]; try tauto.
  discriminate.
Qed.

(** Membership in a validated mask, in terms of the configured names. *)
Lemma validateWatchFlags_member (events : list string)
    (M : gmap string EventBit.t) (k : Kind) :
  k <> AttributeChange ->
  validateWatchFlags ToLower events = Some M ->
  is_Some (M !! specTypeName k)
  <-> In "all" (map ToLower events)
      \/ In (specTypeName k) (map ToLower events).
Proof.
  intros Hk. unfold validateWatchFlags.
  destruct (_ =? _)%nat; [discriminate|].
  destruct (scanEvents ToLower events false) as [b|] eqn:Hscan;
    [|discriminate].
  intros [= <-]. apply scanEvents_all in Hscan.
  destruct b.
  - split; [|intros _; now apply ValidEvents_lookup].
    intros _. left. destruct Hscan as [Hall _].
    destruct (Hall eq_refl) as [?|?]; [discriminate | assumption].
  - rewrite populate_lookup by exact Hk. split; [tauto|].
    intros [Hall|?]; [|assumption].
    destruct Hscan as [_ Hscan].
    assert (false = true) by (apply Hscan; now right). discriminate.
Qed.

(** C3: against a validated mask, an event that is a create, modify,
    delete or rename is admitted exactly when its kind is in the mask (its
    name is a key of the mask, which is the case exactly when the
    configuration names the kind or "all"); a metadata-only change is not
    admitted, whatever the mask, "all" included. *)
Theorem checkEventType_admits_iff_member
    (events : list string) (M : gmap string EventBit.t)
    (k : Kind) (p : string) (t : nat) :
  validateWatchFlags ToLower events = Some M ->
  let admitted :=
    outcome (checkEventType M (rawEvent k p) t) = Ret true in
  (k <> AttributeChange ->
     (admitted <-> is_Some (M !! specTypeName k))
     /\ (admitted <-> In "all" (map ToLower events)
                      \/ In (specTypeName k) (map ToLower events)))
  /\ (k = AttributeChange -> ~ admitted)
  /\ outcome (checkEventType ValidEvents (rawEvent AttributeChange p) t)
     = Ret false.
Proof.
  intros Hv admitted. subst admitted.
  rewrite checkEventType_runs. unfold outcome. cbn [fst].
  rewrite eventTypeMatched_rawEvent.
  split; [|split].
  - intros Hk.
    assert (Hadm : Ret (match k with
                        | AttributeChange => false
                        | _ => bool_decide (is_Some (M !! specTypeName k))
                        end) = Ret true
                   <-> is_Some (M !! specTypeName k)).
    { destruct k; try congruence;
        (split; [intros [= H]; now apply bool_decide_eq_true in H
                | intros H; f_equal; now apply bool_decide_eq_true]). }
    split; [exact Hadm|].
    rewrite Hadm. now apply validateWatchFlags_member.
  - intros ->. discriminate.
  - reflexivity.
Qed.

End Classifier.

(** ** Computations *)

Section Computations.

Context {A B : Type}.

Lemma bind_ret_eq (m : M A) (f : A -> M B) (t : nat) a t1 l1 :
  m t = (Ret a, t1, l1) -> bind m f t = prepend l1 (f a t1).
Proof.
  intros H. unfold bind, prepend. rewrite H.
  now destruct (f a t1) as [[o t2] l2].
Qed.

Lemma bind_stuck_eq (m : M A) (f : A -> M B) (t : nat) t1 l1 :
  m t = (OutOfFuel, t1, l1) -> bind m f t = (OutOfFuel, t1, l1).
Proof. intros H. unfold bind. now rewrite H. Qed.

Lemma outcome_prepend l (r : Outcome A * nat * list Action) :
  outcome (prepend l r) = outcome r.
Proof. reflexivity. Qed.

Lemma clock_prepend l (r : Outcome A * nat * list Action) :
  clock (prepend l r) = clock r.
Proof. reflexivity. Qed.

Lemma actions_prepend l (r : Outcome A * nat * list Action) :
  actions (prepend l r) = l ++ actions r.
Proof. reflexivity. Qed.

End Computations.

(** ** The poll loop of the debouncer *)

Section PollLoop.

Variable W : World.
Variable p : string.

(** One iteration of the loop. *)
Lemma waitLoop_step (fuel : nat) (last c : Z) (t : nat) :
  waitLoop W (S fuel) p last c t
  = match pollAt W p t with
    | None => (Ret failed, S t, [ASize p None])
    | Some z =>
        if (last =? z)%Z then
          if (c + 1 >=? FileCloseCheckThreshold)%Z
          then (Ret nil_error, S t, [ASize p (Some z)])
          else prepend [ASize p (Some z); ASleep]
                 (waitLoop W fuel p z (c + 1)%Z (S t))
        else prepend [ASize p (Some z); ASleep]
               (waitLoop W fuel p z 0%Z (S t))
    end.
Proof.
  cbn [waitLoop]. unfold bind at 1, getFileSize at 1. fold (pollAt W p t).
  destruct (pollAt W p t) as [z|]; [|reflexivity].
  destruct (last =? z)%Z.
  - destruct (c + 1 >=? FileCloseCheckThreshold)%Z; [reflexivity|].
    unfold bind, emit, prepend.
    now destruct (waitLoop W fuel p z (c + 1)%Z (S t)) as [[[?|] ?] ?].
  - unfold bind, emit, prepend.
    now destruct (waitLoop W fuel p z 0%Z (S t)) as [[[?|] ?] ?].
Qed.

(** After a successful poll, the polls of the rest of the wait are the
    later polls of the whole wait. *)
Lemma unchangedPoll_shift (t : nat) (last z : Z) (i : nat) :
  pollAt W p t = Some z ->
  unchangedPoll W p (S t) z i <-> unchangedPoll W p t last (S i).
Proof.
  intros Hz. destruct i as [|i]; cbn [unchangedPoll].
  - rewrite Nat.add_0_r, Nat.add_1_r. split.
    + intros H. exists z. now split.
    + intros (z' & H1 & H2). congruence.
  - now rewrite <- !Nat.add_succ_comm.
Qed.

Lemma stableFrom_shift (t : nat) (last z : Z) (n : nat) :
  pollAt W p t = Some z ->
  stableFrom W p (S t) z n <-> stableFrom W p t last (S n).
Proof.
  intros Hz. unfold stableFrom.
  now rewrite !(unchangedPoll_shift t last z) by exact Hz.
Qed.

Lemma threshold_reached (c : Z) :
  (c + 1 >=? FileCloseCheckThreshold)%Z = true <-> (1 <= c)%Z.
Proof. unfold FileCloseCheckThreshold. rewrite Z.geb_le. lia. Qed.

Lemma later_polls_succeed (t n : nat) (z : Z) :
  (forall i, i < S n -> is_Some (pollAt W p (t + i))) ->
  forall i, i < n -> is_Some (pollAt W p (S t + i)).
Proof.
  intros Hok i Hi. rewrite Nat.add_succ_comm. apply Hok. lia.
Qed.

(** The loop returns without error only at the second of two consecutive
    unchanged polls, every poll before having succeeded. *)
Lemma waitLoop_success_stable (fuel : nat) (last c : Z) (t : nat) :
  outcome (waitLoop W fuel p last c t) = Ret nil_error ->
  ((1 <= c)%Z /\ unchangedPoll W p t last 0)
  \/ exists n, (forall i, i < n -> is_Some (pollAt W p (t + i)))
              /\ stableFrom W p t last n.
Proof.
  revert last c t. induction fuel as [|fuel IH]; intros last c t.
  { cbn. discriminate. }
  rewrite waitLoop_step.
  destruct (pollAt W p t) as [z|] eqn:Hz; [|cbn; discriminate].
  assert (Hlift : forall n,
    (forall i, i < n -> is_Some (pollAt W p (S t + i))) ->
    stableFrom W p (S t) z n ->
    exists n0, (forall i, i < n0 -> is_Some (pollAt W p (t + i)))
               /\ stableFrom W p t last n0).
  { intros n Hok Hst. exists (S n). split.
    - intros [|i] Hi; [rewrite Nat.add_0_r, Hz; eauto|].
      rewrite <- Nat.add_succ_comm. apply Hok. lia.
    - now apply (stableFrom_shift t last z n). }
  destruct (Z.eqb_spec last z) as [->|Hne].
  - destruct (c + 1 >=? FileCloseCheckThreshold)%Z eqn:Hc.
    + intros _. left. split; [now apply threshold_reached | exact Hz].
    + rewrite outcome_prepend. intros H.
      apply IH in H as [[_ Hu]|(n & Hok & Hst)]; right; [|eauto].
      exists 0. split; [intros i Hi; lia|].
      split; [exact Hz | now apply (unchangedPoll_shift t z z 0 Hz)].
  - rewrite outcome_prepend. intros H.
    apply IH in H as [[Hc _]|(n & Hok & Hst)]; [lia | right; eauto].
Qed.

(** Two consecutive unchanged polls after successful ones end the loop
    without error, at the latest at the second of them. *)
Lemma waitLoop_stable_success (n : nat) (last c : Z) (t fuel : nat) :
  (0 <= c)%Z ->
  (forall i, i < n -> is_Some (pollAt W p (t + i))) ->
  stableFrom W p t last n ->
  n + 2 <= fuel ->
  outcome (waitLoop W fuel p last c t) = Ret nil_error.
Proof.
  revert last c t fuel.
  induction n as [|n IH]; intros last c t fuel Hc Hok Hst Hf;
    (destruct fuel as [|fuel]; [lia|]); rewrite waitLoop_step.
  - destruct Hst as [Hu0 (z & Hz0 & Hz1)]. cbn [unchangedPoll] in Hu0.
    rewrite Nat.add_0_r in Hz0. rewrite Nat.add_1_r in Hz1.
    rewrite Hu0, Z.eqb_refl.
    destruct (c + 1 >=? FileCloseCheckThreshold)%Z; [reflexivity|].
    rewrite outcome_prepend. destruct fuel as [|fuel]; [lia|].
    rewrite waitLoop_step.
    replace z with last in Hz1 by congruence.
    rewrite Hz1, Z.eqb_refl.
    now rewrite (proj2 (threshold_reached (c + 1))) by lia.
  - destruct (Hok 0 ltac:(lia)) as [z Hz]. rewrite Nat.add_0_r in Hz.
    rewrite Hz.
    assert (Hst' : stableFrom W p (S t) z n)
      by now apply (stableFrom_shift t last z n).
    pose proof (later_polls_succeed t n z Hok) as Hok'.
    destruct (last =? z)%Z.
    + destruct (c + 1 >=? FileCloseCheckThreshold)%Z; [reflexivity|].
      rewrite outcome_prepend. apply IH; auto; lia.
    + rewrite outcome_prepend. apply IH; auto; lia.
Qed.

(** While every poll succeeds and no two consecutive polls are unchanged,
    the loop is still running, whatever the number of iterations. *)
Lemma waitLoop_never_stable (fuel : nat) (last c : Z) (t : nat) :
  (forall i, is_Some (pollAt W p (t + i))) ->
  ~ ((1 <= c)%Z /\ unchangedPoll W p t last 0) ->
  (forall n, ~ stableFrom W p t last n) ->
  outcome (waitLoop W fuel p last c t) = OutOfFuel
  /\ clock (waitLoop W fuel p last c t) = t + fuel.
Proof.
  revert last c t. induction fuel as [|fuel IH]; intros last c t Hok Hc Hns.
  { cbn. split; [reflexivity | lia]. }
  rewrite waitLoop_step.
  destruct (Hok 0) as [z Hz]. rewrite Nat.add_0_r in Hz. rewrite Hz.
  assert (Hok' : forall i, is_Some (pollAt W p (S t + i))).
  { intros i. rewrite Nat.add_succ_comm. apply Hok. }
  assert (Hns' : forall n, ~ stableFrom W p (S t) z n).
  { intros n Hst. apply (Hns (S n)).
    now apply (stableFrom_shift t last z n). }
  destruct (Z.eqb_spec last z) as [->|Hne].
  - destruct (c + 1 >=? FileCloseCheckThreshold)%Z eqn:Hthr.
    + exfalso. apply Hc. split; [now apply threshold_reached | exact Hz].
    + rewrite outcome_prepend, clock_prepend.
      replace (t + S fuel) with (S t + fuel) by lia.
      apply IH; auto.
      intros [_ Hu]. apply (Hns 0). split; [exact Hz|].
      now apply (unchangedPoll_shift t z z 0 Hz).
  - rewrite outcome_prepend, clock_prepend.
    replace (t + S fuel) with (S t + fuel) by lia.
    apply IH; auto. intros [? _]. lia.
Qed.

(** The first failing poll, when no two consecutive polls before it were
    unchanged, ends the loop with the error, and is the last question the
    loop asks. *)
Lemma waitLoop_first_failure (k : nat) (last c : Z) (t fuel : nat) :
  pollAt W p (t + k) = None ->
  (forall i, i < k -> is_Some (pollAt W p (t + i))) ->
  ~ ((1 <= c)%Z /\ unchangedPoll W p t last 0) ->
  (forall n, S n < k -> ~ stableFrom W p t last n) ->
  k < fuel ->
  outcome (waitLoop W fuel p last c t) = Ret failed
  /\ clock (waitLoop W fuel p last c t) = S (t + k).
Proof.
  revert last c t fuel.
  induction k as [|k IH]; intros last c t fuel Hfail Hok Hc Hns Hf;
    (destruct fuel as [|fuel]; [lia|]); rewrite waitLoop_step.
  - rewrite Nat.add_0_r in Hfail. rewrite Hfail.
    split; [reflexivity | cbn; lia].
  - destruct (Hok 0 ltac:(lia)) as [z Hz]. rewrite Nat.add_0_r in Hz.
    rewrite Hz.
    pose proof (later_polls_succeed t k z Hok) as Hok'.
    assert (Hfail' : pollAt W p (S t + k) = None)
      by now rewrite Nat.add_succ_comm.
    assert (Hns' : forall n, S n < k -> ~ stableFrom W p (S t) z n).
    { intros n Hn Hst. apply (Hns (S n)); [lia|].
      now apply (stableFrom_shift t last z n). }
    destruct (Z.eqb_spec last z) as [->|Hne].
    + destruct (c + 1 >=? FileCloseCheckThreshold)%Z eqn:Hthr.
      * exfalso. apply Hc. split; [now apply threshold_reached | exact Hz].
      * rewrite outcome_prepend, clock_prepend.
        replace (t + S k) with (S t + k) by lia.
        apply IH; auto; [|lia].
        intros [_ Hu]. cbn [unchangedPoll] in Hu.
        destruct k as [|k];
          [rewrite Nat.add_0_r in Hfail'; congruence|].
        apply (Hns 0); [lia|]. split; [exact Hz|].
        now apply (unchangedPoll_shift t z z 0 Hz).
    + rewrite outcome_prepend, clock_prepend.
      replace (t + S k) with (S t + k) by lia.
      apply IH; auto; [|lia]. intros [? _]. lia.
Qed.

(** C8: started at question [t] of the world, [waitForFileClose] returns
    without error (given enough iterations) exactly when the size polls,
    all successful up to there, contain two consecutive unchanged polls;
    it returns the error at the first poll that fails, asking nothing
    after it; and while every poll succeeds without two consecutive
    unchanged polls it never returns: after any number of iterations it is
    still polling. *)
Theorem waitForFileClose_termination (t : nat) :
  ((exists fuel, outcome (waitForFileClose W fuel p t) = Ret nil_error)
   <-> exists n, (forall i, i < n -> is_Some (pollAt W p (t + i)))
                 /\ stableFrom W p t 0 n)
  /\ (forall k fuel,
        pollAt W p (t + k) = None ->
        (forall i, i < k -> is_Some (pollAt W p (t + i))) ->
        (forall n, S n < k -> ~ stableFrom W p t 0 n) ->
        k < fuel ->
        outcome (waitForFileClose W fuel p t) = Ret failed
        /\ clock (waitForFileClose W fuel p t) = S (t + k))
  /\ ((forall i, is_Some (pollAt W p (t + i))) ->
      (forall n, ~ stableFrom W p t 0 n) ->
      forall fuel,
        outcome (waitForFileClose W fuel p t) = OutOfFuel
        /\ clock (waitForFileClose W fuel p t) = t + fuel).
Proof.
  unfold waitForFileClose. split; [split|split].
  - intros [fuel H]. apply waitLoop_success_stable in H as [[? _]|H];
      [lia | exact H].
  - intros (n & Hok & Hst). exists (n + 2).
    now apply (waitLoop_stable_success n).
  - intros k fuel Hfail Hok Hns Hf.
    apply waitLoop_first_failure; auto. intros [? _]. lia.
  - intros Hok Hns fuel.
    apply waitLoop_never_stable; auto. intros [? _]. lia.
Qed.

End PollLoop.

(** ** Watch-set synchronisation *)

Section WatchSet.

Variable W : World.
Variable PathSeparator : ascii.

(** The purge deletes the keys with the prefix and keeps the others. *)
Lemma lookup_purgePrefix (dirPath : string) (es : gmap string FileEntry)
    (q : string) :
  purgePrefix dirPath es !! q
  = if GoStrings.HasPrefix q dirPath then None else es !! q.
Proof.
  unfold purgePrefix.
  set (f := fun (entryPath : string) (_ : FileEntry)
                (acc : gmap string FileEntry) => _).
  assert (Hgen : forall acc : gmap string FileEntry,
    map_fold f acc es !! q
    = if GoStrings.HasPrefix q dirPath && bool_decide (is_Some (es !! q))
      then None else acc !! q).
  { intros acc.
    refine (map_fold_weak_ind
             (fun r (m : gmap string FileEntry) =>
                r !! q
                = if GoStrings.HasPrefix q dirPath
                     && bool_decide (is_Some (m !! q))
                  then None else acc !! q) f acc _ _ es).
    - rewrite lookup_empty, bool_decide_eq_false_2 by (intros [? ?]; done).
      now rewrite andb_false_r.
    - intros i x m r Hi IH. unfold f.
      destruct (decide (i = q)) as [->|Hne].
      + rewrite lookup_insert_eq.
        rewrite (bool_decide_eq_true_2 (is_Some (Some x))) by eauto.
        rewrite andb_true_r.
        rewrite Hi, bool_decide_eq_false_2, andb_false_r in IH
          by (intros [? ?]; done).
        destruct (GoStrings.HasPrefix q dirPath);
          [apply lookup_delete_eq | exact IH].
      + rewrite (lookup_insert_ne m i q) by exact Hne.
        destruct (GoStrings.HasPrefix i dirPath);
          [rewrite lookup_delete_ne by exact Hne|]; exact IH. }
  rewrite Hgen.
  destruct (GoStrings.HasPrefix q dirPath); [|reflexivity].
  cbn [andb]. case_bool_decide as Hs; [reflexivity|].
  symmetry. destruct (es !! q) eqn:E; [|reflexivity].
  exfalso. apply Hs. eauto.
Qed.

(** C4: a rename or delete event on a member of the watch set leaves the
    sync step with that path removed from the watch set (and from the
    watcher), every other member as it was, the fingerprints whose path
    begins with the directory path and the separator gone, and every
    other fingerprint as it was. *)
Theorem sync_unwatches_and_purges
    (w : WatchService) (evt : FileEvent) (t : nat) :
  IsCreate evt = false ->
  IsRename evt = true \/ IsDelete evt = true ->
  is_Some (dirs w !! Name evt) ->
  exists w',
    syncWatchersAndCaches W PathSeparator w evt t
    = (Ret w', t, [ACall "syncWatchersAndCaches"; ARemoveWatch (Name evt)])
    /\ dirs w' !! Name evt = None
    /\ (forall q, q <> Name evt -> dirs w' !! q = dirs w !! q)
    /\ (forall q,
          GoStrings.HasPrefix q (Name evt +:+ String PathSeparator "") = true
          -> entries w' !! q = None)
    /\ (forall q,
          GoStrings.HasPrefix q (Name evt +:+ String PathSeparator "") = false
          -> entries w' !! q = entries w !! q).
Proof.
  intros Hc Hrd Hdir. eexists. split.
  - unfold syncWatchersAndCaches. rewrite Hc.
    assert (Hor : IsRename evt || IsDelete evt = true)
      by (destruct Hrd as [-> | ->]; [reflexivity | apply orb_true_r]).
    rewrite Hor. unfold isDir.
    rewrite bool_decide_eq_true_2 by exact Hdir. reflexivity.
  - cbn [dirs entries setDirs setEntries]. repeat split.
    + apply lookup_delete_eq.
    + intros q Hq. now apply lookup_delete_ne.
    + intros q Hq. now rewrite lookup_purgePrefix, Hq.
    + intros q Hq. now rewrite lookup_purgePrefix, Hq.
Qed.

(** Induction on trees, with the property available for every child. *)
Lemma Tree_forall_ind (P : Tree -> Prop) :
  (forall p, P (File p)) ->
  (forall p readable children,
     Forall P children -> P (Dir p readable children)) ->
  forall t, P t.
Proof.
  intros Hfile Hdir. fix IH 1. intros [p|p readable children].
  - apply Hfile.
  - apply Hdir. induction children as [|c cs IHcs]; constructor.
    + apply IH.
    + exact IHcs.
Qed.

Lemma walkFn_directory (d : gmap string bool) (p : string) (t : nat) :
  watchAt W t p = true ->
  walkFn W d p true false t
  = (Ret (<["./" +:+ p := true]> d, walk_nil), S t, [AWatch p true]).
Proof.
  intros Hw. unfold walkFn, bind, watcherWatch, ret. cbn. now rewrite Hw.
Qed.

Lemma walked_nil (d : gmap string bool) (t : nat) :
  walked [] d (Ret (d, walk_nil), t, []).
Proof.
  exists d, t, []. split; [reflexivity|]. split.
  - intros q. split; [tauto|]. intros [?|(p & [] & _)]. assumption.
  - intros p [].
Qed.

(** Two walks in a row. *)
Lemma walked_app (paths1 paths2 : list string) (d : gmap string bool)
    (l0 : list Action) (d1 : gmap string bool) (t1 : nat) (l1 : list Action)
    (r : Outcome (gmap string bool * WalkError) * nat * list Action) :
  walked paths1 d (Ret (d1, walk_nil), t1, l1) ->
  walked paths2 d1 r ->
  walked (paths1 ++ paths2) d (prepend l1 r).
Proof.
  intros (d1' & t1' & l1' & [= <- <- <-] & Hd1 & Hl1)
         (d2 & t2 & l2 & -> & Hd2 & Hl2).
  exists d2, t2, (l1 ++ l2). split; [reflexivity|]. split.
  - intros q. rewrite Hd2, Hd1. split.
    + intros [[?|(p & Hp & ->)]|(p & Hp & ->)]; [now left|right..];
        exists p; (split; [apply in_app_iff; auto | reflexivity]).
    + intros [?|(p & Hp & ->)]; [now do 2 left|].
      apply in_app_iff in Hp as [Hp|Hp]; [left; right | right]; eauto.
  - intros p Hp. apply in_app_iff.
    apply in_app_iff in Hp as [Hp|Hp]; [left | right]; auto.
Qed.

(** With the flag, the bootstrap reaches every directory of a tree whose
    directories can all be listed and registered. *)
Lemma walk_registers (tree : Tree) :
  (forall t p, watchAt W t p = true) ->
  forall d t,
    readableTree tree = true ->
    walked (dirPaths tree) d (walk W tree d t).
Proof.
  intros Hwatch. induction tree as [p|p readable children IH]
    using Tree_forall_ind; intros d t Hr.
  - apply walked_nil.
  - cbn [readableTree] in Hr. apply andb_true_iff in Hr as [-> Hcs].
    cbn [walk dirPaths negb].
    rewrite (bind_ret_eq _ _ _ _ _ _ (walkFn_directory d p t (Hwatch t p))).
    apply (walked_app [p] (flat_map dirPaths children) d []
             (<["./" +:+ p := true]> d) (S t) [AWatch p true]).
    { eexists _, _, _. split; [reflexivity|]. split.
      - intros q. destruct (decide (q = "./" +:+ p)) as [->|Hne].
        + rewrite lookup_insert_eq. split; [|eauto].
          intros _. right. exists p. split; [now left | reflexivity].
        + rewrite lookup_insert_ne by congruence. split; [tauto|].
          intros [?|(p' & [<-|[]] & ->)]; [assumption | congruence].
      - intros p' [<-|[]]. now left. }
    clear Hwatch. generalize (<["./" +:+ p := true]> d) (S t).
    induction IH as [|c cs Hc _ IHcs]; intros d0 t0.
    + apply walked_nil.
    + cbn [forallb] in Hcs. apply andb_true_iff in Hcs as [Hc' Hcs].
      cbn [walkList flat_map].
      destruct (Hc d0 t0 Hc') as (d1 & t1 & l1 & Hrun & Hd1 & Hl1).
      rewrite (bind_ret_eq _ _ _ _ _ _ Hrun).
      apply (walked_app _ _ d0 [] d1 t1 l1).
      * exists d1, t1, l1. split; [reflexivity|]. split; assumption.
      * now apply IHcs.
Qed.

(** C9: a create event whose target stats as a directory puts the target
    into the watch set and registers it with the watcher, whatever the
    service's recursive flag; without the flag the bootstrap registers the
    root alone and leaves the watch set as it is; with it the bootstrap
    walks the tree, and where every directory can be listed and registered
    each of them is registered and enters the watch set. *)
Theorem sync_watches_created_directory
    (w : WatchService) (evt : FileEvent) (t : nat) (info : FileInfo)
    (tree : Tree) :
  IsCreate evt = true ->
  statAt W t (Name evt) = Some info ->
  fi_isDir info = true ->
  (exists w',
     syncWatchersAndCaches W PathSeparator w evt t
     = (Ret w', S (S t),
        [ACall "syncWatchersAndCaches"; AStat (Name evt) (Some info);
         AWatch (Name evt) (watchAt W (S t) (Name evt))])
     /\ dirs w' = <[Name evt := true]> (dirs w)
     /\ isDir w' (Name evt) = true
     /\ entries w' = entries w)
  /\ (Recursive (config w) = false ->
      watchFolders W w tree t
      = (Ret (w, if watchAt W t (path w) then walk_nil else walk_failed),
         S t, [AWatch (path w) (watchAt W t (path w))]))
  /\ (Recursive (config w) = true ->
      (forall t' p, watchAt W t' p = true) ->
      readableTree tree = true ->
      exists d' t' l,
        watchFolders W w tree t = (Ret (setDirs w d', walk_nil), t', l)
        /\ (forall q, is_Some (d' !! q)
                      <-> is_Some (dirs w !! q)
                          \/ exists p, In p (dirPaths tree)
                                       /\ q = "./" +:+ p)
        /\ (forall p, In p (dirPaths tree) -> In (AWatch p true) l)).
Proof.
  intros Hc Hstat Hdir. split; [|split].
  - eexists. split.
    + unfold syncWatchersAndCaches. rewrite Hc.
      unfold bind, emit, osStat, watcherWatch, ret. cbn.
      rewrite Hstat, Hdir. cbn. reflexivity.
    + unfold isDir. cbn [dirs entries setDirs]. repeat split.
      apply bool_decide_eq_true_2. rewrite lookup_insert_eq. eauto.
  - intros Hr. unfold watchFolders. rewrite Hr. reflexivity.
  - intros Hr Hwatch Hread. unfold watchFolders. rewrite Hr.
    destruct (walk_registers tree Hwatch (dirs w) t Hread)
      as (d' & t' & l & Hrun & Hd & Hl).
    exists d', t', l. split; [|now split].
    rewrite (bind_ret_eq _ _ _ _ _ _ Hrun). unfold prepend, ret. cbn.
    now rewrite app_nil_r.
Qed.

End WatchSet.

(** ** The debouncer *)

Section Debouncer.

Variable W : World.

Lemma checkFileContentChanged_unfold (fuel : nat)
    (es : gmap string FileEntry) (p : string) (t : nat) :
  checkFileContentChanged W fuel es p t
  = prepend [AStage "check the file content is changed"]
      (match waitForFileClose W fuel p t with
       | (OutOfFuel, t1, l1) => (OutOfFuel, t1, l1)
       | (Ret failed, t1, l1) => (Ret (false, es), t1, l1)
       | (Ret nil_error, t1, l1) =>
           prepend l1
             (match es !! p with
              | None =>
                  match pollAt W p t1 with
                  | None => (Ret (false, es), S t1, [ASize p None])
                  | Some sz =>
                      match readAt W (S t1) p with
                      | None =>
                          (Ret (false, es), S (S t1),
                           [ASize p (Some sz); AHash p None])
                      | Some bs =>
                          (Ret (true,
                                <[p := {| size := sz; hash := adler32 bs |}]>
                                  es),
                           S (S t1),
                           [ASize p (Some sz); AHash p (Some (adler32 bs))])
                      end
                  end
              | Some cached =>
                  match pollAt W p t1 with
                  | None => (Ret (false, es), S t1, [ASize p None])
                  | Some sz =>
                      let differs := negb (size cached =? sz)%Z in
                      let es1 :=
                        if differs
                        then <[p := {| size := sz; hash := hash cached |}]> es
                        else es in
                      match readAt W (S t1) p with
                      | None =>
                          (Ret (false, es1), S (S t1),
                           [ASize p (Some sz); AHash p None])
                      | Some bs =>
                          (Ret (differs || negb (hash cached =? adler32 bs)%Z,
                                if negb (hash cached =? adler32 bs)%Z
                                then <[p := {| size := sz;
                                               hash := adler32 bs |}]> es1
                                else es1),
                           S (S t1),
                           [ASize p (Some sz); AHash p (Some (adler32 bs))])
                      end
                  end
              end)
       end).
Proof.
  unfold checkFileContentChanged, decorator.
  unfold bind at 1, emit at 1. unfold prepend at 1.
  destruct (waitForFileClose W fuel p t) as [[[[|]|] t1] l1] eqn:Hw.
  - rewrite (bind_ret_eq _ _ _ _ _ _ Hw). unfold prepend. cbn [is_nil negb].
    destruct (es !! p) as [cached|].
    + unfold bind, getFileSize, getContentHash, ret, pollAt.
      destruct (statAt W t1 p) as [info|]; cbn; [|reflexivity].
      destruct (Z.eqb_spec (size cached) (fi_size info)) as [Heq|Hne]; cbn;
        (destruct (readAt W (S t1) p) as [bs|]; cbn; [|reflexivity]);
        destruct (hash cached =? adler32 bs)%Z; cbn;
        rewrite ?Heq; reflexivity.
    + unfold newFileEntry, bind, getFileSize, getContentHash, ret, pollAt.
      destruct (statAt W t1 p) as [info|]; cbn; [|reflexivity].
      destruct (readAt W (S t1) p) as [bs|]; reflexivity.
  - rewrite (bind_ret_eq _ _ _ _ _ _ Hw). unfold prepend.
    cbn. now rewrite app_nil_r.
  - rewrite (bind_stuck_eq _ _ _ _ _ Hw). reflexivity.
Qed.

Lemma stagesOf_app (l l' : list Action) :
  stagesOf (l ++ l') = stagesOf l ++ stagesOf l'.
Proof. apply omap_app. Qed.

(** The poll loop enters no stage and runs no command, and a failed read
    among its actions is the error it returns. *)
Lemma waitLoop_trace (fuel : nat) (p : string) (last c : Z) (t : nat) :
  stagesOf (actions (waitLoop W fuel p last c t)) = []
  /\ existsb isRun (actions (waitLoop W fuel p last c t)) = false
  /\ (existsb isReadFailure (actions (waitLoop W fuel p last c t)) = true
      <-> outcome (waitLoop W fuel p last c t) = Ret failed).
Proof.
  revert last c t. induction fuel as [|fuel IH]; intros last c t.
  { cbn. repeat split; discriminate. }
  rewrite waitLoop_step.
  destruct (pollAt W p t) as [z|].
  - assert (Hnext : forall c',
      stagesOf (actions (prepend [ASize p (Some z); ASleep]
                           (waitLoop W fuel p z c' (S t)))) = []
      /\ existsb isRun (actions (prepend [ASize p (Some z); ASleep]
                                   (waitLoop W fuel p z c' (S t)))) = false
      /\ (existsb isReadFailure
            (actions (prepend [ASize p (Some z); ASleep]
                        (waitLoop W fuel p z c' (S t)))) = true
          <-> outcome (prepend [ASize p (Some z); ASleep]
                         (waitLoop W fuel p z c' (S t))) = Ret failed)).
    { intros c'. destruct (IH z c' (S t)) as (H1 & H2 & H3).
      rewrite actions_prepend, outcome_prepend, stagesOf_app, !existsb_app.
      rewrite H1, H2. cbn. repeat split; try tauto. }
    destruct (last =? z)%Z; [|apply Hnext].
    destruct (c + 1 >=? FileCloseCheckThreshold)%Z; [|apply Hnext].
    cbn. repeat split; discriminate.
  - cbn. repeat split; reflexivity.
Qed.

(** The debouncer enters its own stage only and runs no command; a failed
    read among its actions makes it return "unchanged". *)
Lemma checkFileContentChanged_trace (fuel : nat)
    (es : gmap string FileEntry) (p : string) (t : nat) :
  stagesOf (actions (checkFileContentChanged W fuel es p t)) = [Debounce]
  /\ existsb isRun (actions (checkFileContentChanged W fuel es p t)) = false
  /\ (existsb isReadFailure
        (actions (checkFileContentChanged W fuel es p t)) = true ->
      exists es',
        outcome (checkFileContentChanged W fuel es p t) = Ret (false, es')).
Proof.
  rewrite checkFileContentChanged_unfold.
  destruct (waitLoop_trace fuel p 0 0 t) as (Hst & Hrun & Hfail).
  fold (waitForFileClose W fuel p t) in Hst, Hrun, Hfail.
  destruct (waitForFileClose W fuel p t) as [[[[|]|] t1] l1];
    unfold actions, outcome in Hst, Hrun, Hfail; cbn [fst snd] in *;
    rewrite !actions_prepend, !outcome_prepend.
  - assert (Hl1 : existsb isReadFailure l1 = false).
    { destruct (existsb isReadFailure l1); [|reflexivity].
      destruct Hfail as [Hfail _]. specialize (Hfail eq_refl). discriminate. }
    destruct (es !! p) as [cached|];
      (destruct (pollAt W p t1) as [sz|];
       [destruct (readAt W (S t1) p) as [bs|]|]);
      cbn [actions snd outcome fst];
      rewrite ?stagesOf_app, ?existsb_app, ?Hst, ?Hrun, ?Hl1;
      cbn; repeat split; first [discriminate | eauto].
  - cbn [actions snd outcome fst].
    rewrite stagesOf_app, !existsb_app, Hst, Hrun. cbn. eauto.
  - cbn [actions snd outcome fst].
    rewrite stagesOf_app, !existsb_app, Hst, Hrun. cbn. repeat split.
    intros H. apply Hfail in H. discriminate.
Qed.

(** A file whose size stays the same is found closed within three
    polls. *)
Lemma waitForFileClose_steady (fuel : nat) (p : string) (sz : Z) (t : nat) :
  (forall t', pollAt W p t' = Some sz) ->
  3 <= fuel ->
  outcome (waitForFileClose W fuel p t) = Ret nil_error.
Proof.
  intros Hsz Hf. apply (waitLoop_stable_success W p 1); try lia.
  - intros i _. rewrite Hsz. eauto.
  - split; exists sz; split; apply Hsz.
Qed.

(** C5: a file absent from the cache whose stat and read succeed at every
    question with the same size and the same contents is reported
    "changed" by the first call, which inserts its fingerprint, and
    "unchanged" by the next call, which leaves the cache as the first call
    left it. *)
Theorem checkFileContentChanged_twice
    (fuel : nat) (es : gmap string FileEntry) (p : string)
    (info : FileInfo) (bs : list Byte.byte) (t : nat) :
  (forall t', statAt W t' p = Some info) ->
  (forall t', readAt W t' p = Some bs) ->
  es !! p = None ->
  3 <= fuel ->
  let entry := {| size := fi_size info; hash := adler32 bs |} in
  exists t1 l1 t2 l2,
    checkFileContentChanged W fuel es p t
    = (Ret (true, <[p := entry]> es), t1, l1)
    /\ checkFileContentChanged W fuel (<[p := entry]> es) p t1
       = (Ret (false, <[p := entry]> es), t2, l2).
Proof.
  intros Hstat Hread Hnew Hf entry.
  assert (Hpoll : forall t', pollAt W p t' = Some (fi_size info)).
  { intros t'. unfold pollAt. now rewrite Hstat. }
  pose proof (waitForFileClose_steady fuel p _ t Hpoll Hf) as Hw1.
  rewrite !checkFileContentChanged_unfold.
  destruct (waitForFileClose W fuel p t) as [[o1 t1] l1].
  unfold outcome in Hw1. cbn [fst] in Hw1. subst o1.
  rewrite Hnew, Hpoll, Hread. unfold prepend. cbn [fst snd].
  do 2 eexists.
  pose proof (waitForFileClose_steady fuel p _ (S (S t1)) Hpoll Hf) as Hw2.
  destruct (waitForFileClose W fuel p (S (S t1))) as [[o2 t2] l2] eqn:E2.
  unfold outcome in Hw2. cbn [fst] in Hw2. subst o2.
  do 2 eexists. split; [reflexivity|].
  rewrite checkFileContentChanged_unfold, E2.
  rewrite lookup_insert_eq, Hpoll, Hread.
  subst entry. cbn [size hash]. rewrite !Z.eqb_refl. reflexivity.
Qed.

(** C10: for a path with a cache entry, when the wait has ended without
    error, the size read that follows finds a size other than the cached
    one and the checksum read after it fails, the debouncer answers
    "unchanged" and the cache entry already holds the new size, next to
    the old checksum. *)
Theorem checkFileContentChanged_keeps_new_size
    (fuel : nat) (es : gmap string FileEntry) (p : string)
    (cached : FileEntry) (sz : Z) (t t1 : nat) (l1 : list Action) :
  es !! p = Some cached ->
  waitForFileClose W fuel p t = (Ret nil_error, t1, l1) ->
  pollAt W p t1 = Some sz ->
  sz <> size cached ->
  readAt W (S t1) p = None ->
  checkFileContentChanged W fuel es p t
  = (Ret (false, <[p := {| size := sz; hash := hash cached |}]> es),
     S (S t1),
     AStage "check the file content is changed"
     :: l1 ++ [ASize p (Some sz); AHash p None])
  /\ <[p := {| size := sz; hash := hash cached |}]> es !! p <> es !! p.
Proof.
  intros Hes Hw Hsz Hne Hread.
  rewrite checkFileContentChanged_unfold, Hw, Hes, Hsz, Hread.
  assert (Hd : (size cached =? sz)%Z = false) by (apply Z.eqb_neq; congruence).
  rewrite Hd. split; [reflexivity|].
  rewrite lookup_insert_eq. intros [= H]. destruct cached; cbn in *.
  congruence.
Qed.

End Debouncer.

(** ** The worker *)

Section Worker.

Variable W : World.
Variable PathSeparator : ascii.
Variable ContinueOnError : bool.

Lemma decorator_ret_bind {A B} (title : string) (a : A) (f : A -> M B)
    (t : nat) :
  bind (decorator title (ret a)) f t = prepend [AStage title] (f a t).
Proof.
  unfold decorator, bind, emit, ret, prepend.
  now destruct (f a t) as [[o t2] l2].
Qed.

Lemma timeNow_bind {B} (f : Z -> M B) (t : nat) :
  bind (timeNow W) f t = prepend [ANow (nowAt W t)] (f (nowAt W t) (S t)).
Proof.
  unfold bind, timeNow, prepend.
  now destruct (f (nowAt W t) (S t)) as [[o t2] l2].
Qed.

(** The sync step always returns; it is the only step that enters the
    sync stage, it runs no command and reads no fingerprint, and it leaves
    the configuration alone. *)
Lemma sync_returns (w : WatchService) (evt : FileEvent) (t : nat) :
  exists w1 t1 l1,
    syncWatchersAndCaches W PathSeparator w evt t = (Ret w1, t1, l1)
    /\ stagesOf l1 = [Sync]
    /\ existsb isRun l1 = false
    /\ existsb isReadFailure l1 = false
    /\ includePatternRegexp w1 = includePatternRegexp w
    /\ watchFlags w1 = watchFlags w
    /\ config w1 = config w
    /\ (IsCreate evt = false -> IsRename evt = false ->
        IsDelete evt = false -> w1 = w).
Proof.
  unfold syncWatchersAndCaches.
  unfold bind, emit, osStat, watcherWatch, watcherRemoveWatch, ret.
  destruct (IsCreate evt).
  - destruct (statAt W t (Name evt)) as [info|]; cbn;
      [destruct (fi_isDir info); cbn|];
      do 3 eexists; (split; [reflexivity|]); repeat split; discriminate.
  - destruct (IsRename evt), (IsDelete evt); cbn;
      try destruct (isDir w (Name evt)); cbn;
      do 3 eexists; (split; [reflexivity|]); repeat split;
      try discriminate.
Qed.

Lemma stagesOf_cons (a : Action) (l : list Action) :
  stagesOf (a :: l)
  = match stageOf a with
    | Some s => s :: stagesOf l
    | None => stagesOf l
    end.
Proof. reflexivity. Qed.

Lemma trace_cons (a : Action) (l : list Action) :
  stageOf a = None -> isReadFailure a = false ->
  stagesOf l = [] -> existsb isReadFailure l = false ->
  stagesOf (a :: l) = [] /\ existsb isReadFailure (a :: l) = false.
Proof.
  intros Ha Hb Hst Hf. rewrite stagesOf_cons, Ha. cbn [existsb].
  now rewrite Hb, Hst, Hf.
Qed.

(** Running the commands returns, and only runs commands. *)
Lemma runCommands_trace (commands : list string) (evt : FileEvent)
    (t : nat) :
  exists t' l,
    runCommands W ContinueOnError commands evt t = (Ret tt, t', l)
    /\ stagesOf l = []
    /\ existsb isReadFailure l = false.
Proof.
  revert t. induction commands as [|c cs IH]; intros t.
  { do 2 eexists. split; [reflexivity|]. split; reflexivity. }
  cbn [runCommands]. unfold bind at 1, execute at 1.
  unfold bind at 1, cmdRun, ret. cbn.
  destruct (runAt W t _); cbn.
  - destruct (IH (S t)) as (t' & l & -> & Hst & Hf).
    do 2 eexists. split; [reflexivity|]. now apply trace_cons.
  - destruct ContinueOnError; cbn.
    + destruct (IH (S t)) as (t' & l & -> & Hst & Hf).
      do 2 eexists. split; [reflexivity|]. now apply trace_cons.
    + do 2 eexists. split; [reflexivity|]. split; reflexivity.
Qed.

Lemma run_trace (w : WatchService) (evt : FileEvent) (t : nat) :
  exists t' l,
    run W ContinueOnError w evt t = (Ret tt, t', l)
    /\ stagesOf l = [Runner]
    /\ existsb isReadFailure l = false.
Proof.
  unfold run, bind, emit.
  destruct (runCommands_trace (Commands (config w)) evt t)
    as (t' & l & -> & Hst & Hf).
  do 2 eexists. split; [reflexivity|].
  rewrite stagesOf_app, existsb_app, Hst, Hf. split; reflexivity.
Qed.

(** The worker's last two steps on an admitted event: note the time, run
    the commands. *)
Lemma stamp_and_run (w : WatchService) (evt : FileEvent) (t : nat) :
  exists t' l,
    bind (timeNow W) (fun lastExec =>
      bind (run W ContinueOnError w evt) (fun _ => ret (w, lastExec))) t
    = (Ret (w, nowAt W t), t', l)
    /\ stagesOf l = [Runner]
    /\ existsb isReadFailure l = false.
Proof.
  rewrite timeNow_bind.
  destruct (run_trace w evt (S t)) as (t' & l & Hr & Hst & Hf).
  rewrite (bind_ret_eq _ _ _ _ _ _ Hr). unfold prepend, ret. cbn.
  do 2 eexists. split; [reflexivity|].
  rewrite app_nil_r, stagesOf_cons. cbn [stageOf existsb isReadFailure
    isSizeFailure isHashFailure orb]. now rewrite Hst, Hf.
Qed.

(** Splits the actions of nested [prepend]s into their pieces. *)
Ltac flatten_trace :=
  rewrite ?actions_prepend, ?outcome_prepend, ?stagesOf_app, ?existsb_app;
  unfold actions, outcome; cbn [fst snd].

(** The six ways the worker can deal with one event; [w1] and [t1] are
    the service and the number of questions asked when the sync step is
    done. *)
Lemma handleEvent_shape (fuel : nat) (w : WatchService) (lastExec : Z)
    (evt : FileEvent) (t : nat) :
  exists w1 t1 l1,
    syncWatchersAndCaches W PathSeparator w evt t = (Ret w1, t1, l1) /\
    let r := handleEvent W PathSeparator ContinueOnError fuel w lastExec
               evt t in
    let matches := includePatternRegexp w (Name evt) in
    let admitted := eventTypeMatched (watchFlags w) evt in
    let debounced :=
      outcome (checkFileContentChanged W fuel (entries w1) (Name evt)
                 (S t1)) in
    let file_modify :=
      IsModify evt = true /\ isDir w1 (Name evt) = false in
    (matches = false
     /\ stagesOf (actions r) = [Sync; Pattern]
     /\ existsb isRun (actions r) = false
     /\ existsb isReadFailure (actions r) = false
     /\ exists w', outcome r = Ret (w', lastExec))
    \/ (matches = true /\ admitted = false
        /\ stagesOf (actions r) = [Sync; Pattern; Classify]
        /\ existsb isRun (actions r) = false
        /\ existsb isReadFailure (actions r) = false
        /\ exists w', outcome r = Ret (w', lastExec))
    \/ (matches = true /\ admitted = true
        /\ stagesOf (actions r) = [Sync; Pattern; Classify; Throttle]
        /\ existsb isRun (actions r) = false
        /\ existsb isReadFailure (actions r) = false
        /\ exists w', outcome r = Ret (w', lastExec))
    \/ (matches = true /\ admitted = true
        /\ (isDir w1 (Name evt) = true \/ IsModify evt = false)
        /\ stagesOf (actions r)
           = [Sync; Pattern; Classify; Throttle; Runner]
        /\ existsb isReadFailure (actions r) = false
        /\ exists w' lastExec', outcome r = Ret (w', lastExec'))
    \/ (matches = true /\ admitted = true /\ file_modify
        /\ (forall es, debounced <> Ret (true, es))
        /\ stagesOf (actions r)
           = [Sync; Pattern; Classify; Throttle; Debounce]
        /\ existsb isRun (actions r) = false
        /\ (existsb isReadFailure (actions r) = true ->
            exists w', outcome r = Ret (w', lastExec)))
    \/ (matches = true /\ admitted = true /\ file_modify
        /\ (exists es, debounced = Ret (true, es))
        /\ stagesOf (actions r)
           = [Sync; Pattern; Classify; Throttle; Debounce; Runner]
        /\ existsb isReadFailure (actions r) = false
        /\ exists w' lastExec', outcome r = Ret (w', lastExec')).
Proof.
  destruct (sync_returns w evt t)
    as (w1 & t1 & l1 & Hs & Hst & Hrun & Hfail & Hre & Hfl & Hcfg & Hsame).
  exists w1, t1, l1. split; [exact Hs|].
  intros r matches admitted debounced file_modify.
  subst r matches admitted debounced file_modify.
  unfold handleEvent.
  rewrite (bind_ret_eq _ _ _ _ _ _ Hs).
  unfold checkPatternMatching. rewrite decorator_ret_bind, Hre.
  destruct (includePatternRegexp w (Name evt)) eqn:Hp.
  2:{ left. split; [reflexivity|]. flatten_trace.
      rewrite Hst, Hrun, Hfail. cbn. eauto 10. }
  right. unfold checkEventType. rewrite decorator_ret_bind, Hfl.
  destruct (eventTypeMatched (watchFlags w) evt) eqn:Ha.
  2:{ left. do 2 (split; [reflexivity|]). flatten_trace.
      rewrite Hst, Hrun, Hfail. cbn. eauto 10. }
  right. rewrite timeNow_bind. unfold checkExecInterval.
  rewrite decorator_ret_bind.
  destruct (if (Interval (config w1) =? 0)%Z then true else _) eqn:Hallow.
  2:{ left. do 2 (split; [reflexivity|]). flatten_trace.
      rewrite Hst, Hrun, Hfail. cbn. eauto 10. }
  right.
  assert (Hdirect :
    exists t' l,
      bind (timeNow W) (fun lastExec0 =>
        bind (run W ContinueOnError w1 evt)
             (fun _ => ret (w1, lastExec0))) (S t1)
      = (Ret (w1, nowAt W (S t1)), t', l)
      /\ stagesOf l = [Runner] /\ existsb isReadFailure l = false)
    by apply stamp_and_run.
  destruct (isDir w1 (Name evt)) eqn:Hd.
  { left. do 2 (split; [reflexivity|]). split; [now left|].
    destruct Hdirect as (t' & l & -> & Hst' & Hf'). flatten_trace.
    rewrite Hst, Hfail, Hst', Hf'. cbn. eauto 10. }
  destruct (IsModify evt) eqn:Hm.
  2:{ left. do 2 (split; [reflexivity|]). split; [now right|].
      destruct Hdirect as (t' & l & -> & Hst' & Hf'). flatten_trace.
      rewrite Hst, Hfail, Hst', Hf'. cbn. eauto 10. }
  right.
  destruct (checkFileContentChanged_trace W fuel (entries w1) (Name evt)
              (S t1)) as (Hdst & Hdrun & Hdfail).
  destruct (checkFileContentChanged W fuel (entries w1) (Name evt) (S t1))
    as [[[[changed es]|] t2] l2] eqn:Hdeb;
    unfold actions, outcome in Hdst, Hdrun, Hdfail; cbn [fst snd] in *.
  - rewrite (bind_ret_eq _ _ _ _ _ _ Hdeb).
    destruct changed; cbn [negb].
    + right. do 3 (split; [first [reflexivity | now split]|]).
      split; [now exists es|].
      destruct (stamp_and_run (setEntries w1 es) evt t2)
        as (t' & l & -> & Hst' & Hf').
      assert (Hl2 : existsb isReadFailure l2 = false).
      { destruct (existsb isReadFailure l2); [|reflexivity].
        destruct (Hdfail eq_refl) as [es' [=]]. }
      flatten_trace.
      rewrite Hst, Hfail, Hdst, Hl2, Hst', Hf'. cbn. eauto 10.
    + left. do 3 (split; [first [reflexivity | now split]|]).
      split; [intros es'; unfold outcome; cbn; congruence|].
      flatten_trace.
      rewrite Hst, Hrun, Hdst, Hdrun. cbn. eauto 10.
  - left. do 3 (split; [first [reflexivity | now split]|]).
    split; [intros es'; unfold outcome; cbn; congruence|].
    rewrite (bind_stuck_eq _ _ _ _ _ Hdeb). flatten_trace.
    rewrite Hst, Hrun, Hfail, Hdst, Hdrun. cbn.
    repeat split. intros H. destruct (Hdfail H) as [es' [=]].
Qed.

Ltac absent :=
  let H := fresh in
  intros H;
  repeat (apply elem_of_cons in H as [H|H]; [discriminate H|]);
  now apply elem_of_nil in H.


(** C7: an event whose path the include pattern does not match is dropped
    behind the pattern filter: the worker returns with [lastExec] as it
    was, no further stage is entered and no command is run; whenever the
    command runner is entered or a command is run, the path matches the
    pattern and the classifier admits the event. *)
Theorem pattern_gate (fuel : nat) (w : WatchService) (lastExec : Z)
    (evt : FileEvent) (t : nat) :
  let r := handleEvent W PathSeparator ContinueOnError fuel w lastExec evt t in
  (includePatternRegexp w (Name evt) = false ->
     stagesOf (actions r) = [Sync; Pattern]
     /\ existsb isRun (actions r) = false
     /\ exists w', outcome r = Ret (w', lastExec))
  /\ (Runner ∈ stagesOf (actions r) \/ existsb isRun (actions r) = true ->
      includePatternRegexp w (Name evt) = true
      /\ eventTypeMatched (watchFlags w) evt = true).
Proof.
  destruct (handleEvent_shape fuel w lastExec evt t)
    as (w1 & t1 & l1 & Hs & Hshape).
  cbn zeta in *.
  destruct Hshape as
    [(Hp & Hst & Hrun & _ & Hout)|[(Hp & Ha & Hst & Hrun & _)|
     [(Hp & Ha & Hst & Hrun & _)|[(Hp & Ha & _)|
     [(Hp & Ha & _ & _ & Hst & Hrun & _)|(Hp & Ha & _)]]]]].
  all: split; [intros Hno; try congruence|]; try (now split).
  all: rewrite Hst, Hrun; intros [Hin|?]; [|discriminate].
  all: exfalso; revert Hin; absent.
Qed.

(** C6: a size or checksum read that fails makes the debouncer return
    "unchanged"; and an event during whose handling such a read fails is a
    modify event for which the worker returns with [lastExec] as it was,
    without entering the command runner and without running a command. *)
Theorem read_failure_runs_nothing (fuel : nat) (w : WatchService)
    (lastExec : Z) (evt : FileEvent) (es : gmap string FileEntry)
    (p : string) (t : nat) :
  let d := checkFileContentChanged W fuel es p t in
  let r := handleEvent W PathSeparator ContinueOnError fuel w lastExec evt t in
  (existsb isReadFailure (actions d) = true ->
     exists es', outcome d = Ret (false, es'))
  /\ (existsb isReadFailure (actions r) = true ->
      IsModify evt = true
      /\ (exists w', outcome r = Ret (w', lastExec))
      /\ (Runner ∉ stagesOf (actions r))
      /\ existsb isRun (actions r) = false).
Proof.
  split; [apply checkFileContentChanged_trace|].
  destruct (handleEvent_shape fuel w lastExec evt t)
    as (w1 & t1 & l1 & Hs & Hshape).
  cbn zeta in *.
  destruct Hshape as
    [(_ & _ & _ & Hf & _)|[(_ & _ & _ & _ & Hf & _)|
     [(_ & _ & _ & _ & Hf & _)|[(_ & _ & _ & _ & Hf & _)|
     [(_ & _ & [Hm _] & _ & Hst & Hrun & Hret)|(_ & _ & _ & _ & _ & Hf & _)]]]]];
    try (rewrite Hf; discriminate).
  intros Hfail. repeat split; auto. rewrite Hst. absent.
Qed.

End Worker.

(** ** The theorems at sample inputs *)



Lemma checkEventType_admits_sample :
  validateWatchFlags (fun s => s) ["modify"; "rename"]
  = Some (populate (fun s => s) ["modify"; "rename"])
  /\ outcome (checkEventType (populate (fun s => s) ["modify"; "rename"])
                (rawEvent Modify "src/main.go") 0) = Ret true
  /\ outcome (checkEventType (populate (fun s => s) ["modify"; "rename"])
                (rawEvent AttributeChange "src/main.go") 0) <> Ret true.
Proof.
  assert (Hv : validateWatchFlags (fun s => s) ["modify"; "rename"]
               = Some (populate (fun s => s) ["modify"; "rename"]))
    by reflexivity.
  split; [exact Hv|].
  split.
  - destruct (checkEventType_admits_iff_member (fun s => s)
                ["modify"; "rename"] _ Modify "src/main.go" 0 Hv)
      as (Hin & _ & _).
    destruct (Hin ltac:(discriminate)) as [_ Hnames].
    apply Hnames. right. left. reflexivity.
  - destruct (checkEventType_admits_iff_member (fun s => s)
                ["modify"; "rename"] _ AttributeChange "src/main.go" 0 Hv)
      as (_ & Hattr & _).
    exact (Hattr eq_refl).
Defined.

Lemma sync_unwatches_and_purges_sample :
  (IsCreate (rawEvent Delete "src") = false
   /\ (IsRename (rawEvent Delete "src") = true
       \/ IsDelete (rawEvent Delete "src") = true)
   /\ is_Some (dirs (sampleService 0) !! "src"))
  /\ exists w',
       syncWatchersAndCaches steadyWorld "/" (sampleService 0)
         (rawEvent Delete "src") 0
       = (Ret w', 0, [ACall "syncWatchersAndCaches"; ARemoveWatch "src"])
       /\ dirs w' !! "src" = None
       /\ entries w' !! "src/a.go" = None
       /\ entries w' !! "srcs/b.go" = Some {| size := 1; hash := 2 |}.
Proof.
  assert (H1 : IsCreate (rawEvent Delete "src") = false) by reflexivity.
  assert (H2 : IsRename (rawEvent Delete "src") = true
               \/ IsDelete (rawEvent Delete "src") = true)
    by (right; reflexivity).
  assert (H3 : is_Some (dirs (sampleService 0) !! "src"))
    by (vm_compute; eauto).
  split; [auto|].
  destruct (sync_unwatches_and_purges steadyWorld "/" (sampleService 0)
              (rawEvent Delete "src") 0 H1 H2 H3)
    as (w' & Hrun & Hdir & _ & Hgone & Hkept).
  exists w'. split; [exact Hrun|]. split; [exact Hdir|]. split.
  - apply Hgone. reflexivity.
  - rewrite Hkept by reflexivity. reflexivity.
Defined.

Lemma checkFileContentChanged_twice_sample :
  exists t1 l1 t2 l2,
    checkFileContentChanged steadyWorld 3 ∅ "src/main.go" 0
    = (Ret (true, <["src/main.go" := {| size := 5; hash := 103547413 |}]> ∅),
       t1, l1)
    /\ checkFileContentChanged steadyWorld 3
         (<["src/main.go" := {| size := 5; hash := 103547413 |}]> ∅)
         "src/main.go" t1
       = (Ret (false,
               <["src/main.go" := {| size := 5; hash := 103547413 |}]> ∅),
          t2, l2).
Proof.
  exact (checkFileContentChanged_twice steadyWorld 3 ∅ "src/main.go"
           (regularFile 5)
           [Byte.x68; Byte.x65; Byte.x6c; Byte.x6c; Byte.x6f] 0
           (fun _ => eq_refl) (fun _ => eq_refl) eq_refl (le_n 3)).
Defined.

Lemma read_failure_runs_nothing_sample :
  existsb isReadFailure
    (actions (handleEvent vanishingWorld "/" false 3 (sampleService 0)
                zeroTime (rawEvent Modify "src/main.go") 0)) = true
  /\ (exists w',
        outcome (handleEvent vanishingWorld "/" false 3 (sampleService 0)
                   zeroTime (rawEvent Modify "src/main.go") 0)
        = Ret (w', zeroTime))
  /\ existsb isRun
       (actions (handleEvent vanishingWorld "/" false 3 (sampleService 0)
                   zeroTime (rawEvent Modify "src/main.go") 0)) = false.
Proof.
  assert (Hfail : existsb isReadFailure
            (actions (handleEvent vanishingWorld "/" false 3 (sampleService 0)
                        zeroTime (rawEvent Modify "src/main.go") 0)) = true)
    by (vm_compute; reflexivity).
  split; [exact Hfail|].
  destruct (read_failure_runs_nothing vanishingWorld "/" false 3
              (sampleService 0) zeroTime (rawEvent Modify "src/main.go")
              ∅ "src/main.go" 0) as [_ Hworker].
  destruct (Hworker Hfail) as (_ & Hret & _ & Hrun).
  split; [exact Hret | exact Hrun].
Defined.

Lemma pattern_gate_sample :
  includePatternRegexp (sampleService 0) "src/README" = false
  /\ stagesOf (actions (handleEvent steadyWorld "/" false 3 (sampleService 0)
                         zeroTime (rawEvent Modify "src/README") 0))
     = [Sync; Pattern]
  /\ existsb isRun
       (actions (handleEvent steadyWorld "/" false 3 (sampleService 0)
                   zeroTime (rawEvent Modify "src/README") 0)) = false.
Proof.
  assert (Hno : includePatternRegexp (sampleService 0)
                  (Name (rawEvent Modify "src/README")) = false)
    by reflexivity.
  split; [exact Hno|].
  destruct (pattern_gate steadyWorld "/" false 3 (sampleService 0) zeroTime
              (rawEvent Modify "src/README") 0) as [Hdrop _].
  destruct (Hdrop Hno) as (Hst & Hrun & _).
  split; [exact Hst | exact Hrun].
Defined.

Lemma waitForFileClose_termination_sample :
  (outcome (waitForFileClose growingWorld 100 "app.log" 0) = OutOfFuel
   /\ clock (waitForFileClose growingWorld 100 "app.log" 0) = 100)
  /\ (outcome (waitForFileClose vanishingWorld 3 "app.log" 0) = Ret failed
      /\ clock (waitForFileClose vanishingWorld 3 "app.log" 0) = 3)
  /\ exists fuel,
       outcome (waitForFileClose steadyWorld fuel "app.log" 0) = Ret nil_error.
Proof.
  split; [|split].
  - destruct (waitForFileClose_termination growingWorld "app.log" 0)
      as (_ & _ & Hforever).
    apply Hforever.
    + intros i. eexists. reflexivity.
    + intros n [_ (z & H1 & H2)].
      assert (Hpoll : forall t,
                pollAt growingWorld "app.log" t = Some (Z.of_nat t + 1)%Z)
        by reflexivity.
      rewrite Hpoll in H1, H2.
      assert (H : (Z.of_nat (0 + n) + 1 = Z.of_nat (0 + S n) + 1)%Z)
        by congruence.
      clear -H. lia.
  - destruct (waitForFileClose_termination vanishingWorld "app.log" 0)
      as (_ & Hfails & _).
    apply (Hfails 2 3).
    + reflexivity.
    + intros i Hi. destruct i as [|[|i]]; [eexists; reflexivity ..|lia].
    + intros n Hn [H0 _]. destruct n as [|n]; [discriminate H0 | lia].
    + lia.
  - destruct (waitForFileClose_termination steadyWorld "app.log" 0)
      as (Hiff & _ & _).
    apply Hiff. exists 1. split.
    + intros i _. eexists. reflexivity.
    + split; exists 5%Z; split; reflexivity.
Defined.

Lemma sync_watches_created_directory_sample :
  (IsCreate (rawEvent Create "src/pkg") = true
   /\ statAt directoryWorld 0 "src/pkg" = Some directory
   /\ fi_isDir directory = true
   /\ Recursive (config (sampleService 0)) = false)
  /\ exists w',
       syncWatchersAndCaches directoryWorld "/" (sampleService 0)
         (rawEvent Create "src/pkg") 0
       = (Ret w', 2,
          [ACall "syncWatchersAndCaches"; AStat "src/pkg" (Some directory);
           AWatch "src/pkg" true])
       /\ isDir w' "src/pkg" = true.
Proof.
  split; [repeat split|].
  destruct (sync_watches_created_directory directoryWorld "/"
              (sampleService 0) (rawEvent Create "src/pkg") 0 directory
              (File "src") eq_refl eq_refl eq_refl)
    as ((w' & Hrun & _ & Hdir & _) & _ & _).
  exists w'. split; [exact Hrun | exact Hdir].
Defined.

Lemma checkFileContentChanged_keeps_new_size_sample :
  (entries (sampleService 0) !! "src/a.go" = Some {| size := 4; hash := 7 |}
   /\ pollAt unreadableWorld "src/a.go" 3 = Some 5%Z
   /\ readAt unreadableWorld 4 "src/a.go" = None)
  /\ outcome (checkFileContentChanged unreadableWorld 3
               (entries (sampleService 0)) "src/a.go" 0)
     = Ret (false,
            <["src/a.go" := {| size := 5; hash := 7 |}]>
              (entries (sampleService 0))).
Proof.
  split; [repeat split|].
  destruct (checkFileContentChanged_keeps_new_size unreadableWorld 3
              (entries (sampleService 0)) "src/a.go"
              {| size := 4; hash := 7 |} 5 0 3
              [ASize "src/a.go" (Some 5%Z); ASleep;
               ASize "src/a.go" (Some 5%Z); ASleep;
               ASize "src/a.go" (Some 5%Z)]
              eq_refl eq_refl eq_refl ltac:(discriminate) eq_refl)
    as [Hrun _].
  now rewrite Hrun.
Defined.

(** * More properties of the sources *)

(** ** Splitting and joining *)

Section SplitJoin.
Import GoStrings GoStringsFacts.

Variable sep : ascii.

Lemma Split_cons_inv (s : string) :
  exists f fs, Split s sep = f :: fs.
Proof.
  destruct s as [|c s]; cbn [Split]; [eauto|].
  destruct (Ascii.eqb c sep); [eauto|].
  destruct (Split s sep); eauto.
Qed.

Lemma Join_cons (f g : string) (rest : list string) (sp : string) :
  Join (f :: g :: rest) sp = f +:+ sp +:+ Join (g :: rest) sp.
Proof. reflexivity. Qed.

Lemma Join_Split (s : string) :
  Join (Split s sep) (String sep EmptyString) = s.
Proof.
  induction s as [|c s IH]; [reflexivity|]. cbn [Split].
  destruct (Split_cons_inv s) as (f & fs & Hs). rewrite Hs in *.
  destruct (Ascii.eqb_spec c sep) as [->|_].
  - rewrite Join_cons, IH. reflexivity.
  - destruct fs as [|g fs].
    + cbn [Join] in *. now rewrite IH.
    + rewrite Join_cons in *. rewrite append_cons. now rewrite IH.
Qed.

Lemma Split_fields_free (s : string) :
  Forall (fun f => containsByte sep f = false) (Split s sep).
Proof.
  induction s as [|c s IH]; [repeat constructor|]. cbn [Split].
  destruct (Ascii.eqb_spec c sep) as [->|Hne].
  - constructor; [reflexivity | exact IH].
  - destruct (Split s sep) as [|f fs]; [repeat constructor|].
    + cbn [containsByte]. apply orb_false_iff. split; [|reflexivity].
      now apply Ascii.eqb_neq.
    + inversion IH as [|? ? Hf Hfs]; subst. constructor; [|exact Hfs].
      cbn [containsByte]. apply orb_false_iff. split; [|exact Hf].
      now apply Ascii.eqb_neq.
Qed.

(** A field without the separator is not cut. *)
Lemma Split_free (f : string) :
  containsByte sep f = false -> Split f sep = [f].
Proof.
  induction f as [|c f IH]; intros Hf; [reflexivity|].
  cbn [containsByte] in Hf. apply orb_false_iff in Hf as [Hc Hf].
  cbn [Split]. rewrite Hc, IH by exact Hf. reflexivity.
Qed.

(** The first separator ends the first field. *)
Lemma Split_app_sep (f rest : string) :
  containsByte sep f = false ->
  Split (f +:+ String sep rest) sep = f :: Split rest sep.
Proof.
  induction f as [|c f IH]; intros Hf.
  - change (EmptyString +:+ String sep rest) with (String sep rest).
    cbn [Split]. now rewrite Ascii.eqb_refl.
  - cbn [containsByte] in Hf. apply orb_false_iff in Hf as [Hc Hf].
    rewrite append_cons. cbn [Split]. rewrite Hc, IH by exact Hf.
    reflexivity.
Qed.

Lemma Split_Join_parts (s : string) :
  Split s sep <> []
  /\ Forall (fun f => containsByte sep f = false) (Split s sep)
  /\ Join (Split s sep) (String sep EmptyString) = s.
Proof.
  split; [|split].
  - destruct (Split_cons_inv s) as (f & fs & ->). discriminate.
  - apply Split_fields_free.
  - apply Join_Split.
Qed.


(** X1: cutting a string at a separator byte and joining the fields with
    that byte are inverse to each other: the cut never gives an empty list,
    none of its fields holds the separator, joining them gives the string
    back, and a non-empty list of fields without the separator is what the
    cut of its join gives. *)
Theorem Split_Join_round_trip (s : string) (fields : list string) :
  (Split s sep <> []
   /\ Forall (fun f => containsByte sep f = false) (Split s sep)
   /\ Join (Split s sep) (String sep EmptyString) = s)
  /\ (fields <> [] ->
      Forall (fun f => containsByte sep f = false) fields ->
      Split (Join fields (String sep EmptyString)) sep = fields).
Proof.
  split; [apply Split_Join_parts|].
  intros Hne Hfree. induction Hfree as [|f rest Hf Hrest IH]; [congruence|].
  destruct rest as [|g rest].
  - cbn [Join]. now apply Split_free.
  - rewrite Join_cons.
    change (f +:+ String sep EmptyString
            +:+ Join (g :: rest) (String sep EmptyString))
      with (f +:+ String sep (Join (g :: rest) (String sep EmptyString))).
    rewrite Split_app_sep by exact Hf. f_equal. apply IH. discriminate.
Qed.

End SplitJoin.

(** ** The executor and the configuration flags *)

Section ExecutorAndFlags.
Import GoStrings GoStringsFacts.

Variable W : World.

(** What [execute] does: one command, with the argument vector of both
    branches of its length test. *)
Lemma execute_result (command : string) (evt : FileEvent) (t : nat) :
  execute W command evt t
  = (Ret (if runAt W t (commandArgs command evt) then nil_error else failed),
     S t,
     [ARun (commandArgs command evt) (runAt W t (commandArgs command evt))]).
Proof.
  unfold execute, bind, cmdRun, ret.
  destruct (Split_Join_parts " " (evaluateVariables command evt))
    as (Hne & _ & _). fold (commandArgs command evt) in Hne.
  destruct (commandArgs command evt) as [|f fs]; [congruence|].
  assert (Hargs : (if (1 <? List.length (f :: fs))%nat
                   then hd EmptyString (f :: fs) :: tl (f :: fs)
                   else [hd EmptyString (f :: fs)]) = f :: fs).
  { destruct fs; reflexivity. }
  rewrite Hargs. cbn. now destruct (runAt W t (f :: fs)).
Qed.

(** X2: [execute] runs exactly one command; on both branches of its length
    test the argument vector is the substituted command line cut at the
    spaces, which is never empty (so the program name always exists), has no
    space in any field and gives the command line back when joined with
    spaces; the error it returns is the command's. *)
Theorem execute_runs_the_split_command (command : string) (evt : FileEvent)
    (t : nat) :
  let args := commandArgs command evt in
  execute W command evt t
  = (Ret (if runAt W t args then nil_error else failed), S t,
     [ARun args (runAt W t args)])
  /\ args <> []
  /\ Forall (fun f => containsByte " " f = false) args
  /\ Join args " " = evaluateVariables command evt.
Proof.
  intros args. subst args. split; [apply execute_result|].
  unfold commandArgs.
  now destruct (Split_Join_parts " " (evaluateVariables command evt))
    as (Hne & Hfree & Hjoin).
Qed.



End ExecutorAndFlags.

(** ** Padding *)

Section Padding.
Import GoStringsFacts.

Lemma length_append (a b : string) :
  String.length (a +:+ b) = String.length a + String.length b.
Proof.
  induction a as [|c a IH]; [reflexivity|].
  rewrite append_cons. cbn [String.length]. now rewrite IH.
Qed.

Lemma length_Repeat (s : string) (n : nat) :
  String.length (Repeat s n) = n * String.length s.
Proof.
  induction n as [|n IH]; [reflexivity|].
  cbn [Repeat]. rewrite length_append, IH. lia.
Qed.

Lemma wrap64_small (z : Z) :
  (- 2 ^ 63 <= z < 2 ^ 63)%Z -> wrap64 z = z.
Proof.
  intros Hz. unfold wrap64. rewrite Z.mod_small; lia.
Qed.

(** X4: where the subtraction of the lengths does not leave the range of a
    Go int and the padded string is not too long for one, [PaddingLeft]
    gives the original back when it is at least [maxLen] long, and
    otherwise puts [maxLen - len] copies of the padding in front of it;
    with a one-byte padding the result is [max maxLen len] bytes long. *)
Theorem PaddingLeft_pads (original : string) (maxLen : Z) (char : string) :
  let len := Z.of_nat (String.length original) in
  (- 2 ^ 63 <= maxLen - len < 2 ^ 63)%Z ->
  ((len < maxLen)%Z ->
   (Z.of_nat (String.length char) * (maxLen - len) + len < 2 ^ 63)%Z) ->
  ((maxLen <= len)%Z -> PaddingLeft original maxLen char = original)
  /\ ((len < maxLen)%Z ->
      PaddingLeft original maxLen char
      = Repeat char (Z.to_nat (maxLen - len)) +:+ original)
  /\ (String.length char = 1 ->
      Z.of_nat (String.length (PaddingLeft original maxLen char))
      = Z.max maxLen len).
Proof.
  intros len Hrange _. unfold PaddingLeft. fold len.
  rewrite (wrap64_small _ Hrange).
  destruct (Z.ltb_spec 0 (maxLen - len)) as [Hpos|Hneg].
  - split; [lia|]. split; [reflexivity|].
    intros Hc. rewrite length_append, length_Repeat, Hc. fold len. lia.
  - split; [reflexivity|]. split; [lia|].
    intros _. fold len. lia.
Qed.

End Padding.

(** ** The checksum *)

Section Checksum.

Lemma adler32_step_range (ab : Z * Z) (x : Byte.byte) :
  (0 <= (adler32_step ab x).1 < 65521)%Z
  /\ (0 <= (adler32_step ab x).2 < 65521)%Z.
Proof.
  unfold adler32_step. cbn [fst snd].
  split; apply Z.mod_pos_bound; lia.
Qed.

Lemma adler32_fold_range (bs : list Byte.byte) (ab : Z * Z) :
  (0 <= ab.1 < 65521)%Z -> (0 <= ab.2 < 65521)%Z ->
  (0 <= (fold_left adler32_step bs ab).1 < 65521)%Z
  /\ (0 <= (fold_left adler32_step bs ab).2 < 65521)%Z.
Proof.
  revert ab. induction bs as [|x bs IH]; intros ab Ha Hb; [now split|].
  cbn [fold_left]. apply IH; apply adler32_step_range.
Qed.

(** X5: the checksum of any contents is the pair of two sums below 65521,
    the second in the upper and the first in the lower sixteen bits, so it
    always fits the thirty-two bits of the cache entry; the checksum of
    empty contents is 1. *)
Theorem adler32_fits_uint32 (bs : list Byte.byte) :
  (0 <= adler32 bs < 2 ^ 32)%Z
  /\ (0 <= adler32 bs mod 2 ^ 16 < 65521)%Z
  /\ (0 <= adler32 bs / 2 ^ 16 < 65521)%Z
  /\ adler32 [] = 1%Z.
Proof.
  unfold adler32.
  destruct (adler32_fold_range bs (1, 0)%Z) as [Ha Hb]; cbn [fst snd];
    try lia.
  set (ab := fold_left adler32_step bs (1%Z, 0%Z)) in *.
  assert (Hsum : Z.lor (Z.shiftl ab.2 16) ab.1 = (ab.2 * 2 ^ 16 + ab.1)%Z).
  { rewrite Z.shiftl_mul_pow2 by lia.
    assert (Hdisj : Z.land (ab.2 * 2 ^ 16) ab.1 = 0%Z).
    { apply Z.bits_inj'. intros n Hn. rewrite Z.land_spec, Z.bits_0.
      destruct (Z.lt_ge_cases n 16) as [Hlt|Hge].
      - now rewrite Z.mul_pow2_bits_low by lia.
      - destruct (Z.eq_dec ab.1 0%Z) as [Hz|Hnz].
        + rewrite Hz, Z.bits_0. apply andb_false_r.
        + rewrite (Z.bits_above_log2 ab.1 n), andb_false_r; [reflexivity|lia|].
          apply Z.lt_le_trans with 16%Z; [|lia].
          apply Z.log2_lt_pow2; lia. }
    rewrite <- Z.lxor_lor by exact Hdisj.
    symmetry. now apply Z.add_nocarry_lxor. }
  rewrite Hsum. split; [|split; [|split]].
  - nia.
  - rewrite Z.add_comm, Z.mod_add by lia. rewrite Z.mod_small; lia.
  - rewrite Z.add_comm, Z.div_add by lia. rewrite Z.div_small; lia.
  - reflexivity.
Qed.

End Checksum.

(** ** Polls and sleeps of the wait *)

Section PollCounts.

Variable W : World.
Variable p : string.

Lemma waitLoop_counts (fuel : nat) (last c : Z) (t : nat) :
  let r := waitLoop W fuel p last c t in
  let polls := List.length (List.filter isSizeRead (actions r)) in
  let sleeps := List.length (List.filter isSleep (actions r)) in
  clock r = t + polls
  /\ List.length (actions r) = polls + sleeps
  /\ (forall e, outcome r = Ret e -> polls = S sleeps)
  /\ (outcome r = Ret nil_error -> (c < 1)%Z -> 2 <= polls)
  /\ (outcome r = OutOfFuel -> polls = fuel /\ sleeps = fuel).
Proof.
  revert last c t. induction fuel as [|fuel IH]; intros last c t.
  { cbn. repeat split; try discriminate; lia. }
  cbn zeta. rewrite waitLoop_step.
  destruct (pollAt W p t) as [z|].
  - assert (Hnext : forall c',
      let r := prepend [ASize p (Some z); ASleep]
                 (waitLoop W fuel p z c' (S t)) in
      let polls := List.length (List.filter isSizeRead (actions r)) in
      let sleeps := List.length (List.filter isSleep (actions r)) in
      clock r = t + polls
      /\ List.length (actions r) = polls + sleeps
      /\ (forall e, outcome r = Ret e -> polls = S sleeps)
      /\ (outcome r = Ret nil_error -> 2 <= polls)
      /\ (outcome r = OutOfFuel -> polls = S fuel /\ sleeps = S fuel)).
    { intros c'. cbn zeta.
      destruct (IH z c' (S t)) as (H1 & H2 & H3 & _ & H5).
      rewrite actions_prepend, outcome_prepend, clock_prepend.
      rewrite !List.filter_app, !List.length_app. cbn [List.filter isSizeRead
        isSleep List.length]. rewrite H1.
      split; [lia|]. split; [lia|]. split; [|split].
      - intros e He. specialize (H3 e He). lia.
      - intros He. specialize (H3 _ He). lia.
      - intros He. specialize (H5 He). lia. }
    destruct (last =? z)%Z.
    + destruct (c + 1 >=? FileCloseCheckThreshold)%Z eqn:Hthr.
      * cbn. repeat split; try discriminate; try lia.
        intros _ Hc. apply threshold_reached in Hthr. lia.
      * destruct (Hnext (c + 1)%Z) as (H1 & H2 & H3 & H4 & H5).
        repeat split; auto; apply H5; assumption.
    + destruct (Hnext 0%Z) as (H1 & H2 & H3 & H4 & H5).
      repeat split; auto; apply H5; assumption.
  - cbn. repeat split; try discriminate; lia.
Qed.

(** X6: every iteration of [waitForFileClose] asks for the size once, so
    its questions to the world are its polls; it sleeps once between two
    polls and never after the last one; it needs at least two polls to
    declare the file closed; and while it has not returned it has polled
    and slept in every iteration. *)
Theorem waitForFileClose_polls_and_sleeps (fuel : nat) (t : nat) :
  let r := waitForFileClose W fuel p t in
  let polls := List.length (List.filter isSizeRead (actions r)) in
  let sleeps := List.length (List.filter isSleep (actions r)) in
  clock r = t + polls
  /\ List.length (actions r) = polls + sleeps
  /\ (forall e, outcome r = Ret e -> polls = S sleeps)
  /\ (outcome r = Ret nil_error -> 2 <= polls)
  /\ (outcome r = OutOfFuel -> polls = fuel /\ sleeps = fuel).
Proof.
  cbn zeta. unfold waitForFileClose.
  destruct (waitLoop_counts fuel 0 0 t) as (H1 & H2 & H3 & H4 & H5).
  repeat split; auto; try (apply H5; assumption).
  intros He. apply H4; [exact He | lia].
Qed.

End PollCounts.

(** ** Validation of the event names *)

Section Validation.

Variable ToLower : string -> string.

Lemma ValidEvents_keys (x : string) :
  is_Some (ValidEvents !! x)
  <-> In x ["create"; "delete"; "modify"; "rename"].
Proof.
  unfold ValidEvents. cbn [In].
  destruct (decide (x = "create")) as [->|H1];
    [rewrite lookup_insert_eq; split; eauto|].
  rewrite lookup_insert_ne by congruence.
  destruct (decide (x = "delete")) as [->|H2];
    [rewrite lookup_insert_eq; split; eauto|].
  rewrite lookup_insert_ne by congruence.
  destruct (decide (x = "modify")) as [->|H3];
    [rewrite lookup_insert_eq; split; eauto|].
  rewrite lookup_insert_ne by congruence.
  destruct (decide (x = "rename")) as [->|H4];
    [rewrite lookup_insert_eq; split; eauto 6|].
  rewrite lookup_insert_ne by congruence. rewrite lookup_empty.
  split; [intros [? ?]; discriminate|].
  intros [?|[?|[?|[?|[]]]]]; congruence.
Qed.

Lemma accepted_iff (e : string) :
  accepted ToLower e
  <-> ToLower e = "all" \/ is_Some (ValidEvents !! ToLower e).
Proof.
  unfold accepted. rewrite ValidEvents_keys. cbn [In].
  split; intros H; repeat destruct H as [H|H]; auto 10; contradiction.
Qed.

Lemma classic_accepted (e : string) :
  accepted ToLower e \/ ~ accepted ToLower e.
Proof.
  unfold accepted.
  destruct (in_dec string_dec (ToLower e)
              ["create"; "delete"; "modify"; "rename"; "all"]); auto.
Qed.

(** The first loop fails exactly when it meets a name that is not
    accepted. *)
Lemma scanEvents_fails (events : list string) (acc : bool) :
  scanEvents ToLower events acc = None
  <-> exists e, In e events /\ ~ accepted ToLower e.
Proof.
  revert acc. induction events as [|e events IH]; intros acc.
  - cbn. split; [discriminate | intros (e & [] & _)].
  - cbn [scanEvents In].
    destruct (String.eqb_spec (ToLower e) "all") as [He|He].
    + rewrite IH. split.
      * intros (x & Hx & Hn). eauto.
      * intros (x & [<-|Hx] & Hn); [|eauto].
        exfalso. apply Hn. apply accepted_iff. now left.
    + case_bool_decide as Hv; cbn [negb].
      * rewrite IH. split.
        -- intros (x & Hx & Hn). eauto.
        -- intros (x & [<-|Hx] & Hn); [|eauto].
           exfalso. apply Hn. apply accepted_iff. now right.
      * split; [|reflexivity]. intros _. exists e. split; [now left|].
        intros Ha. apply accepted_iff in Ha as [?|?]; contradiction.
Qed.

(** When the first loop succeeds, every name is accepted. *)
Lemma scanEvents_accepts (events : list string) (acc b : bool) :
  scanEvents ToLower events acc = Some b ->
  forall e, In e events -> accepted ToLower e.
Proof.
  intros Hs e He.
  destruct (classic_accepted e) as [Ha|Hn]; [exact Ha|].
  assert (Hnone : scanEvents ToLower events acc = None)
    by (apply scanEvents_fails; eauto).
  congruence.
Qed.

(** X7: the validation fails exactly for an empty list of names and for a
    list that holds a name which, in lower case, is none of create, delete,
    modify, rename and all. *)
Theorem validateWatchFlags_fails_iff (events : list string) :
  validateWatchFlags ToLower events = None
  <-> events = [] \/ exists e, In e events /\ ~ accepted ToLower e.
Proof.
  unfold validateWatchFlags. destruct events as [|e0 events].
  { cbn. split; auto. }
  cbn [List.length Nat.eqb].
  destruct (scanEvents ToLower (e0 :: events) false) as [b|] eqn:Hs.
  - split; [discriminate|]. intros [?|Hbad]; [discriminate|].
    apply scanEvents_fails with (acc := false) in Hbad. congruence.
  - split; [|reflexivity]. intros _. right.
    now apply scanEvents_fails with (acc := false).
Qed.

Lemma insert_within (acc : gmap string EventBit.t) (key : string)
    (bit : EventBit.t) :
  ValidEvents !! key = Some bit ->
  (forall k v, acc !! k = Some v -> ValidEvents !! k = Some v) ->
  forall k v, <[key := bit]> acc !! k = Some v -> ValidEvents !! k = Some v.
Proof.
  intros Hkey Hacc k v. destruct (decide (key = k)) as [<-|Hne].
  - rewrite lookup_insert_eq. congruence.
  - rewrite lookup_insert_ne by exact Hne. apply Hacc.
Qed.

(** Each step of the second loop keeps the mask inside the table of the
    valid events. *)
Lemma populate_within (events : list string) (k : string) (v : EventBit.t) :
  populate ToLower events !! k = Some v -> ValidEvents !! k = Some v.
Proof.
  unfold populate.
  set (step := fun (watchedFlags : gmap string EventBit.t) event => _).
  assert (Hgen : forall acc : gmap string EventBit.t,
    (forall k v, acc !! k = Some v -> ValidEvents !! k = Some v) ->
    forall k v, fold_left step events acc !! k = Some v ->
                ValidEvents !! k = Some v).
  { induction events as [|e events IH]; intros acc Hacc; [exact Hacc|].
    cbn [fold_left]. apply IH. unfold step.
    repeat match goal with
      | |- context [String.eqb (ToLower e) ?s] =>
          destruct (String.eqb_spec (ToLower e) s) as [_|_]
      end; first [exact Hacc | now apply insert_within]. }
  apply Hgen. intros k' v'. rewrite lookup_empty. discriminate.
Qed.

(** X8: a mask the validation returns is never empty, every entry of it
    is an entry of the table of the valid events, and so every key is one
    of create, delete, modify and rename and is the name of the bit stored
    under it. *)
Theorem validateWatchFlags_mask_valid (events : list string)
    (M : gmap string EventBit.t) :
  validateWatchFlags ToLower events = Some M ->
  M <> ∅
  /\ (forall k v, M !! k = Some v -> ValidEvents !! k = Some v)
  /\ (forall k v, M !! k = Some v ->
        In k ["create"; "delete"; "modify"; "rename"]
        /\ EventBit.Name v = k).
Proof.
  intros Hv.
  assert (Hwithin : forall k v, M !! k = Some v -> ValidEvents !! k = Some v).
  { revert Hv. unfold validateWatchFlags.
    destruct (_ =? _)%nat; [discriminate|].
    destruct (scanEvents ToLower events false) as [[|]|]; intros [= <-];
      [auto | apply populate_within]. }
  split; [|split; [exact Hwithin|]].
  - revert Hv. unfold validateWatchFlags. destruct events as [|e0 events].
    { discriminate. }
    cbn [List.length Nat.eqb].
    destruct (scanEvents ToLower (e0 :: events) false) as [b|] eqn:Hs;
      [|discriminate].
    intros [= <-] Hempty.
    pose proof (scanEvents_all ToLower _ _ _ Hs) as Hall.
    pose proof (scanEvents_accepts _ _ _ Hs e0 (or_introl eq_refl)) as Hacc.
    destruct b.
    + assert (H : ValidEvents !! "create" = Some CreateEvent) by reflexivity.
      rewrite Hempty, lookup_empty in H. discriminate.
    + apply accepted_iff in Hacc as [Hall0|Hvalid].
      { assert (false = true); [|discriminate].
        apply Hall. right. left. exact Hall0. }
      apply ValidEvents_keys in Hvalid.
      assert (Hk : exists k, k <> AttributeChange
                             /\ specTypeName k = ToLower e0).
      { destruct Hvalid as [H|[H|[H|[H|[]]]]];
          [exists Create | exists Delete | exists Modify | exists Rename];
          (split; [discriminate | exact H]). }
      destruct Hk as (k & Hk & Hname).
      assert (Hin : is_Some (populate ToLower (e0 :: events) !! specTypeName k)).
      { apply populate_lookup; [exact Hk|]. left. now rewrite Hname. }
      rewrite Hempty, lookup_empty in Hin. destruct Hin; discriminate.
  - intros k v Hk. apply Hwithin in Hk.
    assert (Hkey : In k ["create"; "delete"; "modify"; "rename"])
      by (apply ValidEvents_keys; eauto).
    split; [exact Hkey|].
    unfold ValidEvents in Hk.
    destruct Hkey as [<-|[<-|[<-|[<-|[]]]]];
      rewrite ?lookup_insert_eq, ?lookup_insert_ne in Hk by discriminate;
      rewrite ?lookup_insert_eq in Hk; now injection Hk as <-.
Qed.

End Validation.

(** ** More on the sync step *)

Section SyncStep.

Variable W : World.
Variable PathSeparator : ascii.

(** X9: whatever the event, the sync step returns after at most two
    questions to the world, leaves the root path, the configuration, the
    mask and the pattern alone, changes the watch set at most at the
    event's path, never adds a fingerprint, and leaves every fingerprint
    alone whose path is neither the event's path nor below it. *)
Theorem sync_frame (w : WatchService) (evt : FileEvent) (t : nat) :
  exists w' t' l,
    syncWatchersAndCaches W PathSeparator w evt t = (Ret w', t', l)
    /\ t <= t' <= t + 2
    /\ path w' = path w /\ config w' = config w
    /\ watchFlags w' = watchFlags w
    /\ includePatternRegexp w' = includePatternRegexp w
    /\ (forall q, q <> Name evt -> dirs w' !! q = dirs w !! q)
    /\ (forall q e, entries w' !! q = Some e -> entries w !! q = Some e)
    /\ (forall q,
          q <> Name evt ->
          GoStrings.HasPrefix q (Name evt +:+ String PathSeparator "") = false ->
          entries w' !! q = entries w !! q).
Proof.
  unfold syncWatchersAndCaches.
  unfold bind, emit, osStat, watcherWatch, watcherRemoveWatch, ret.
  destruct (IsCreate evt).
  - destruct (statAt W t (Name evt)) as [info|]; cbn;
      [destruct (fi_isDir info); cbn|];
      do 3 eexists; (split; [reflexivity|]);
      cbn [path config watchFlags includePatternRegexp dirs entries
           setDirs setEntries];
      repeat split; auto; try lia.
    intros q Hq. now rewrite lookup_insert_ne.
  - destruct (IsRename evt || IsDelete evt); cbn;
      [destruct (isDir w (Name evt)); cbn|];
      do 3 eexists; (split; [reflexivity|]);
      cbn [path config watchFlags includePatternRegexp dirs entries
           setDirs setEntries];
      repeat split; auto; try lia.
    + intros q Hq. now rewrite lookup_delete_ne.
    + intros q e. rewrite lookup_purgePrefix.
      now destruct (GoStrings.HasPrefix q _).
    + intros q _ Hq. now rewrite lookup_purgePrefix, Hq.
    + intros q e. destruct (decide (Name evt = q)) as [<-|Hne].
      * rewrite lookup_delete_eq. discriminate.
      * now rewrite lookup_delete_ne.
    + intros q Hq _. now rewrite lookup_delete_ne.
Qed.

(** X10: after the sync step the event's path is in the watch set exactly
    when, for a create event, it was there before or stats as a directory,
    and, for an event that is neither a create nor a rename nor a delete,
    it was there before; after a rename or delete it never is.  The watcher
    is asked to watch the path exactly when a create event's path stats as
    a directory, and to stop watching it exactly when a rename or delete
    event's path was in the watch set. *)
Theorem sync_target_membership (w : WatchService) (evt : FileEvent) (t : nat) :
  exists w' t' l,
    syncWatchersAndCaches W PathSeparator w evt t = (Ret w', t', l)
    /\ isDir w' (Name evt)
       = (if IsCreate evt
          then isDir w (Name evt) || statsAsDir W t (Name evt)
          else if IsRename evt || IsDelete evt then false
               else isDir w (Name evt))
    /\ (In (AWatch (Name evt) (watchAt W (S t) (Name evt))) l
        <-> IsCreate evt = true /\ statsAsDir W t (Name evt) = true)
    /\ (In (ARemoveWatch (Name evt)) l
        <-> IsCreate evt = false
            /\ IsRename evt || IsDelete evt = true
            /\ isDir w (Name evt) = true).
Proof.
  unfold syncWatchersAndCaches, statsAsDir.
  unfold bind, emit, osStat, watcherWatch, watcherRemoveWatch, ret.
  destruct (IsCreate evt).
  - destruct (statAt W t (Name evt)) as [info|]; cbn;
      [destruct (fi_isDir info); cbn|];
      do 3 eexists; (split; [reflexivity|]);
      unfold isDir; cbn [dirs setDirs]; (split; [|split]);
      rewrite ?orb_false_r, ?orb_true_r; try reflexivity;
      try (split; [intros [H|[H|[H|[]]]]; discriminate H
                  | intros [? ?]; discriminate]);
      try (split; [intros [H|[H|[]]]; discriminate H
                  | intros [? ?]; discriminate]).
    + apply bool_decide_eq_true_2. rewrite lookup_insert_eq. eauto.
    + split; [auto | intros _; right; right; now left].
  - destruct (IsRename evt || IsDelete evt); cbn.
    + unfold isDir. case_bool_decide as Hd; cbn;
        do 3 eexists; (split; [reflexivity|]);
        cbn [dirs setDirs setEntries]; (split; [|split]).
      * apply bool_decide_eq_false_2. rewrite lookup_delete_eq.
        intros [? ?]; discriminate.
      * split; [intros [H|[H|[]]]; discriminate H | intros [? ?]; discriminate].
      * split; [auto | intros _; right; now left].
      * now apply bool_decide_eq_false_2.
      * split; [intros [H|[]]; discriminate H | intros [? ?]; discriminate].
      * split; [intros [H|[]]; discriminate H | intros (_ & _ & ?); discriminate].
    + do 3 eexists. split; [reflexivity|]. split; [reflexivity|]. split.
      * split; [intros [H|[]]; discriminate H | intros [? ?]; discriminate].
      * split; [intros [H|[]]; discriminate H | intros (_ & ? & _); discriminate].
Qed.

(** X11: a rename or delete event on a path that is not in the watch set
    removes that path's fingerprint and nothing else, fingerprints of paths
    below it included; the watch set stays as it is, the watcher is not
    called and the world is asked nothing. *)
Theorem sync_forgets_removed_file (w : WatchService) (evt : FileEvent)
    (t : nat) :
  IsCreate evt = false ->
  IsRename evt = true \/ IsDelete evt = true ->
  dirs w !! Name evt = None ->
  exists w',
    syncWatchersAndCaches W PathSeparator w evt t
    = (Ret w', t, [ACall "syncWatchersAndCaches"])
    /\ dirs w' = dirs w
    /\ entries w' = delete (Name evt) (entries w)
    /\ entries w' !! Name evt = None
    /\ (forall q, q <> Name evt -> entries w' !! q = entries w !! q).
Proof.
  intros Hc Hrd Hdir. eexists. split.
  - unfold syncWatchersAndCaches. rewrite Hc.
    assert (Hor : IsRename evt || IsDelete evt = true)
      by (destruct Hrd as [-> | ->]; [reflexivity | apply orb_true_r]).
    rewrite Hor. unfold isDir.
    rewrite bool_decide_eq_false_2 by (rewrite Hdir; intros [? ?]; discriminate).
    reflexivity.
  - cbn [dirs entries setEntries]. repeat split.
    + apply lookup_delete_eq.
    + intros q Hq. now apply lookup_delete_ne.
Qed.

(** X12: the sync step does to the watch set what its calls do to the
    watcher's registrations when every registration succeeds: from a watch
    set that holds the registered paths it leads to a watch set that holds
    the registered paths. *)
Theorem sync_keeps_watch_set_registered (w : WatchService) (evt : FileEvent)
    (t : nat) (reg : gset string) :
  (forall t' q, watchAt W t' q = true) ->
  dom (dirs w) = reg ->
  exists w' t' l,
    syncWatchersAndCaches W PathSeparator w evt t = (Ret w', t', l)
    /\ dom (dirs w') = registeredAfter reg l.
Proof.
  intros Hwatch <-. unfold syncWatchersAndCaches.
  unfold bind, emit, osStat, watcherWatch, watcherRemoveWatch, ret.
  destruct (IsCreate evt).
  - destruct (statAt W t (Name evt)) as [info|]; cbn;
      [destruct (fi_isDir info); cbn|];
      do 3 eexists; (split; [reflexivity|]);
      cbn [dirs setDirs registeredAfter fold_left registerAction];
      try reflexivity.
    rewrite Hwatch. apply dom_insert_L.
  - destruct (IsRename evt || IsDelete evt); cbn;
      [destruct (isDir w (Name evt)); cbn|];
      do 3 eexists; (split; [reflexivity|]);
      cbn [dirs setDirs setEntries registeredAfter fold_left registerAction];
      try reflexivity.
    apply dom_delete_L.
Qed.

End SyncStep.

(** ** More on the debouncer *)

Section Fingerprints.

Variable W : World.

(** X13: a call of the debouncer changes the cache at most at its path: it
    never touches another path's fingerprint, never removes the path's
    own, has a fingerprint for the path whenever it answers "changed", and
    gives the cache back as it was when it answers "unchanged" after reads
    that all succeeded. *)
Theorem checkFileContentChanged_frame (fuel : nat)
    (es es' : gmap string FileEntry) (p : string) (t : nat) (b : bool) :
  outcome (checkFileContentChanged W fuel es p t) = Ret (b, es') ->
  (forall q, q <> p -> es' !! q = es !! q)
  /\ (is_Some (es !! p) -> is_Some (es' !! p))
  /\ (b = true -> is_Some (es' !! p))
  /\ (b = false ->
      existsb isReadFailure (actions (checkFileContentChanged W fuel es p t))
      = false ->
      es' = es).
Proof.
  rewrite checkFileContentChanged_unfold.
  destruct (waitLoop_trace W fuel p 0 0 t) as (_ & _ & Hfail).
  fold (waitForFileClose W fuel p t) in Hfail.
  destruct (waitForFileClose W fuel p t) as [[[[|]|] t1] l1];
    rewrite ?outcome_prepend, ?actions_prepend;
    unfold outcome, actions in *; cbn [fst snd] in *;
    [| | discriminate].
  - destruct (es !! p) as [cached|] eqn:Hes;
      (destruct (pollAt W p t1) as [sz|];
       [destruct (Z.eqb_spec (size cached) sz) as [Hsz|Hsz] || idtac;
        (destruct (readAt W (S t1) p) as [bs|];
         [destruct (Z.eqb_spec (hash cached) (adler32 bs)) as [Hh|Hh]
          || idtac|])|]);
      cbn [fst snd negb orb]; intros [= <- <-];
      (split; [intros q Hq; rewrite ?lookup_insert_ne by congruence;
               reflexivity|]);
      (split; [intros Hsome; rewrite ?lookup_insert_eq, ?Hes;
               first [now eauto | destruct Hsome; discriminate]|]);
      (split; [intros Hb; try discriminate Hb;
               rewrite ?lookup_insert_eq; now eauto|]);
      intros Hb Hnf; try discriminate Hb; try reflexivity;
      rewrite !existsb_app in Hnf; cbn in Hnf;
      rewrite orb_true_r in Hnf; discriminate Hnf.
  - intros [= <- <-]. repeat split; auto; discriminate.
Qed.

(** X14: when the wait has ended without error and the size and the
    contents are read successfully, the debouncer leaves the fingerprint it
    has read in the cache, and answers "changed" exactly when the cache did
    not hold that very fingerprint for the path before. *)
Theorem checkFileContentChanged_detects (fuel : nat)
    (es : gmap string FileEntry) (p : string) (t t1 : nat)
    (l1 : list Action) (sz : Z) (bs : list Byte.byte) :
  waitForFileClose W fuel p t = (Ret nil_error, t1, l1) ->
  pollAt W p t1 = Some sz ->
  readAt W (S t1) p = Some bs ->
  let seen := {| size := sz; hash := adler32 bs |} in
  exists b es',
    outcome (checkFileContentChanged W fuel es p t) = Ret (b, es')
    /\ es' = <[p := seen]> es
    /\ (b = true <-> es !! p <> Some seen).
Proof.
  intros Hw Hsz Hread seen.
  rewrite checkFileContentChanged_unfold, Hw, Hsz, Hread.
  rewrite !outcome_prepend. unfold outcome. cbn [fst].
  destruct (es !! p) as [[csz ch]|] eqn:Hes; cbn [size hash].
  - do 2 eexists. split; [reflexivity|].
    destruct (Z.eqb_spec csz sz) as [->|Hs];
      destruct (Z.eqb_spec ch (adler32 bs)) as [->|Hh]; cbn [negb orb];
      subst seen.
    + split; [symmetry; now apply insert_id|].
      split; [discriminate | congruence].
    + split; [reflexivity|]. split; [congruence | reflexivity].
    + split; [reflexivity|]. split; [congruence | reflexivity].
    + split; [apply insert_insert_eq|]. split; [congruence | reflexivity].
  - do 2 eexists. split; [reflexivity|]. split; [reflexivity|].
    split; [discriminate | reflexivity].
Qed.

End Fingerprints.

(** ** The bootstrap *)

Section Bootstrap.

Variable W : World.






Lemma grownBy_refl (paths : list string) (d : gmap string bool) :
  grownBy paths d d.
Proof. split; auto. Qed.

Lemma grownBy_app (paths1 paths2 : list string) (d d1 d2 : gmap string bool) :
  grownBy paths1 d d1 -> grownBy paths2 d1 d2 ->
  grownBy (paths1 ++ paths2) d d2.
Proof.
  intros [Hup1 Hdown1] [Hup2 Hdown2]. split; [auto|].
  intros q Hq. destruct (Hdown2 q Hq) as [Hq1|(x & Hx & ->)].
  - destruct (Hdown1 q Hq1) as [?|(x & Hx & ->)]; [now left|].
    right. exists x. split; [apply in_app_iff; auto | reflexivity].
  - right. exists x. split; [apply in_app_iff; auto | reflexivity].
Qed.

Lemma grownBy_more (paths paths' : list string) (d d' : gmap string bool) :
  grownBy paths d d' -> grownBy (paths ++ paths') d d'.
Proof.
  intros H. rewrite <- (app_nil_r paths) in H.
  replace (paths ++ paths') with ((paths ++ []) ++ paths')
    by now rewrite app_nil_r.
  apply (grownBy_app _ _ d d' d'); [exact H | apply grownBy_refl].
Qed.

Lemma grownBy_insert (p : string) (d : gmap string bool) :
  grownBy [p] d (<["./" +:+ p := true]> d).
Proof.
  split; intros q; destruct (decide (q = "./" +:+ p)) as [->|Hne];
    rewrite ?lookup_insert_eq, ?lookup_insert_ne by congruence; eauto.
  intros _. right. exists p. split; [now left | reflexivity].
Qed.

(** The function of the walk on a directory. *)
Lemma walkFn_grows (d : gmap string bool) (p : string) (errPath : bool)
    (t : nat) :
  exists d' e t' l,
    walkFn W d p true errPath t = (Ret (d', e), t', l)
    /\ grownBy [p] d d'
    /\ (errPath = false -> walkFn W d' p true true t'
                          = (Ret (d', SkipDir), t', [])).
Proof.
  unfold walkFn, bind, watcherWatch, ret. destruct errPath; cbn.
  - do 4 eexists. split; [reflexivity|]. split; [apply grownBy_refl|].
    discriminate.
  - destruct (watchAt W t p); do 4 eexists;
      (split; [reflexivity|]); (split; [apply grownBy_insert|]); reflexivity.
Qed.

(** Whatever the world answers, the walk returns, and the watch set has
    only grown, by relative names of directories of the tree. *)
Lemma walk_grows (tree : Tree) :
  forall d t,
    exists d' e t' l,
      walk W tree d t = (Ret (d', e), t', l)
      /\ grownBy (dirPaths tree) d d'.
Proof.
  induction tree as [p|p readable children IH] using Tree_forall_ind;
    intros d t.
  - do 4 eexists. split; [reflexivity | apply grownBy_refl].
  - cbn [walk dirPaths].
    destruct (walkFn_grows d p false t) as (d1 & e1 & t1 & l1 & Hfn & Hg1 & Hskip).
    rewrite (bind_ret_eq _ _ _ _ _ _ Hfn).
    change (p :: flat_map dirPaths children)
      with ([p] ++ flat_map dirPaths children).
    destruct e1;
      try (do 4 eexists; split; [reflexivity | now apply grownBy_more]).
    destruct readable; cbn [negb].
    + assert (Hlist : forall d0 t0,
        exists d' e t' l,
          walkList (walk W) children d0 t0 = (Ret (d', e), t', l)
          /\ grownBy (flat_map dirPaths children) d0 d').
      { clear Hfn Hg1 Hskip. induction IH as [|c cs Hc _ IHcs]; intros d0 t0.
        - do 4 eexists. split; [reflexivity | apply grownBy_refl].
        - cbn [walkList flat_map].
          destruct (Hc d0 t0) as (d2 & e2 & t2 & l2 & Hrun & Hg2).
          rewrite (bind_ret_eq _ _ _ _ _ _ Hrun).
          destruct (IHcs d2 t2) as (d3 & e3 & t3 & l3 & Hrest & Hg3).
          destruct e2; [| destruct (isDirTree c) |];
            try (rewrite Hrest; do 4 eexists; split; [reflexivity|];
                 now apply (grownBy_app _ _ d0 d2 d3));
            do 4 eexists; (split; [reflexivity|]); now apply grownBy_more. }
      destruct (Hlist d1 t1) as (d2 & e2 & t2 & l2 & Hrun & Hg2).
      rewrite Hrun. do 4 eexists. split; [reflexivity|].
      now apply (grownBy_app _ _ d d1 d2).
    + rewrite (Hskip eq_refl). do 4 eexists. split; [reflexivity|].
      now apply grownBy_more.
Qed.


(** X27: the bootstrap files directories under "./" and their path, while
    the sync step looks an event up under its bare name.  After the
    bootstrap of a service whose watch set was empty, an event whose name
    does not begin with "./" never names a directory of the watch set, so
    the sync step on a rename or delete of it asks the watcher to remove
    nothing, leaves the watch set as it is and drops only the fingerprint
    of the path itself. *)
Theorem bootstrap_names_unknown_to_sync (PathSeparator : ascii)
    (w : WatchService) (tree : Tree) (evt : FileEvent) (t t2 : nat) :
  dirs w = ∅ ->
  GoStrings.HasPrefix (Name evt) "./" = false ->
  exists w' e t' l,
    watchFolders W w tree t = (Ret (w', e), t', l)
    /\ isDir w' (Name evt) = false
    /\ (IsCreate evt = false ->
        IsRename evt = true \/ IsDelete evt = true ->
        syncWatchersAndCaches W PathSeparator w' evt t2
        = (Ret (setEntries w' (delete (Name evt) (entries w'))), t2,
           [ACall "syncWatchersAndCaches"])).
Proof.
  intros Hempty Hname.
  assert (Hsync : forall w',
    isDir w' (Name evt) = false ->
    IsCreate evt = false ->
    IsRename evt = true \/ IsDelete evt = true ->
    syncWatchersAndCaches W PathSeparator w' evt t2
    = (Ret (setEntries w' (delete (Name evt) (entries w'))), t2,
       [ACall "syncWatchersAndCaches"])).
  { intros w' Hdir Hc Hrd. unfold syncWatchersAndCaches. rewrite Hc.
    assert (Hor : IsRename evt || IsDelete evt = true)
      by (destruct Hrd as [-> | ->]; [reflexivity | apply orb_true_r]).
    now rewrite Hor, Hdir. }
  unfold watchFolders. destruct (Recursive (config w)).
  - destruct (walk_grows tree (dirs w) t)
      as (d' & e & t' & l & Hrun & _ & Hdown).
    rewrite (bind_ret_eq _ _ _ _ _ _ Hrun). unfold prepend, ret. cbn.
    assert (Hdir : isDir (setDirs w d') (Name evt) = false).
    { unfold isDir. cbn [dirs setDirs]. apply bool_decide_eq_false.
      intros Hq. destruct (Hdown _ Hq) as [Hold|(p & _ & Heq)].
      - rewrite Hempty, lookup_empty in Hold. now destruct Hold.
      - rewrite Heq in Hname.
        pose proof (GoStringsFacts.prefix_self_append "./" p) as Hpre.
        unfold GoStrings.HasPrefix in Hname. congruence. }
    do 4 eexists. split; [reflexivity|]. split; [exact Hdir|].
    now apply Hsync.
  - unfold bind, watcherWatch, ret. cbn.
    assert (Hdir : isDir w (Name evt) = false).
    { unfold isDir. apply bool_decide_eq_false.
      rewrite Hempty, lookup_empty. now intros [? ?]. }
    do 4 eexists. split; [reflexivity|]. split; [exact Hdir|].
    now apply Hsync.
Qed.

End Bootstrap.

(** ** The command sequence *)

Section CommandSequence.

Variable W : World.
Variable ContinueOnError : bool.

Lemma runArgs_app (l l' : list Action) :
  runArgs (l ++ l') = runArgs l ++ runArgs l'.
Proof. apply omap_app. Qed.

Lemma runResults_app (l l' : list Action) :
  runResults (l ++ l') = runResults l ++ runResults l'.
Proof. apply omap_app. Qed.

(** The loop of [run]: it returns; it runs the commands in their order,
    each with its substituted argument vector; it runs all of them when
    errors are to be ignored or none occurs; otherwise a failed command is
    the last one run. *)
Lemma runCommands_sequence (commands : list string) (evt : FileEvent)
    (t : nat) :
  let r := runCommands W ContinueOnError commands evt t in
  outcome r = Ret tt
  /\ forallb isRun (actions r) = true
  /\ runArgs (actions r) `prefix_of` map (fun c => commandArgs c evt) commands
  /\ (ContinueOnError = true \/ forallb id (runResults (actions r)) = true ->
      runArgs (actions r) = map (fun c => commandArgs c evt) commands)
  /\ (ContinueOnError = false ->
      forall i, runResults (actions r) !! i = Some false ->
                List.length (runResults (actions r)) = S i).
Proof.
  revert t. induction commands as [|c cs IH]; intros t; cbn zeta.
  { cbn. repeat split; auto. intros _ i Hi. discriminate Hi. }
  cbn [runCommands map].
  rewrite (bind_ret_eq _ _ _ _ _ _ (execute_result W c evt t)).
  assert (Hgo : forall ok,
    let r := prepend [ARun (commandArgs c evt) ok]
               (runCommands W ContinueOnError cs evt (S t)) in
    outcome r = Ret tt
    /\ forallb isRun (actions r) = true
    /\ runArgs (actions r)
       `prefix_of` commandArgs c evt :: map (fun c => commandArgs c evt) cs
    /\ (ContinueOnError = true \/ forallb id (runResults (actions r)) = true ->
        runArgs (actions r)
        = commandArgs c evt :: map (fun c => commandArgs c evt) cs)
    /\ (ContinueOnError = false -> ok = true ->
        forall i, runResults (actions r) !! i = Some false ->
                  List.length (runResults (actions r)) = S i)).
  { intros ok. cbn zeta. destruct (IH (S t)) as (H1 & H2 & H3 & H4 & H5).
    rewrite outcome_prepend, actions_prepend, runArgs_app, runResults_app.
    cbn [forallb isRun app runArgs runResults omap andb List.length].
    change (omap _ [ARun (commandArgs c evt) ok]) with [commandArgs c evt].
    split; [exact H1|]. split; [exact H2|]. split; [|split].
    - now apply prefix_cons.
    - intros [Hc|Hall]; f_equal; apply H4; [now left|].
      right. cbn in Hall. now apply andb_true_iff in Hall as [_ ?].
    - intros Hc -> [|i] Hi; [discriminate Hi|].
      cbn in Hi |- *. f_equal. now apply H5. }
  destruct (runAt W t (commandArgs c evt)) eqn:Hok; cbn [is_nil negb andb].
  - destruct (Hgo true) as (H1 & H2 & H3 & H4 & H5).
    repeat split; auto.
  - destruct ContinueOnError eqn:Hcoe; cbn [negb].
    + destruct (Hgo false) as (H1 & H2 & H3 & H4 & _).
      repeat split; auto. discriminate.
    + unfold prepend, ret, outcome, actions. cbn.
      split; [reflexivity|]. split; [reflexivity|]. split; [|split].
      * exists (map (fun c => commandArgs c evt) cs). reflexivity.
      * intros [?|?]; discriminate.
      * intros _ [|i] Hi; [reflexivity | discriminate Hi].
Qed.

(** X17: [run] always returns; it runs the configured commands in their
    order, each with the argument vector of its substituted template; with
    "continue on error" set, or when no command fails, every command is
    run; without it no command is run after one that failed. *)
Theorem run_sequence (w : WatchService) (evt : FileEvent) (t : nat) :
  let r := run W ContinueOnError w evt t in
  let expected := map (fun c => commandArgs c evt) (Commands (config w)) in
  outcome r = Ret tt
  /\ runArgs (actions r) `prefix_of` expected
  /\ (ContinueOnError = true \/ forallb id (runResults (actions r)) = true ->
      runArgs (actions r) = expected)
  /\ (ContinueOnError = false ->
      forall i, runResults (actions r) !! i = Some false ->
                List.length (runResults (actions r)) = S i).
Proof.
  cbn zeta. unfold run.
  destruct (runCommands_sequence (Commands (config w)) evt t)
    as (H1 & _ & H3 & H4 & H5).
  unfold bind, emit.
  destruct (runCommands W ContinueOnError (Commands (config w)) evt t)
    as [[o t'] l].
  unfold outcome, actions in *. cbn [fst snd] in *.
  change (runArgs ([ACall "run"] ++ l)) with (runArgs l).
  change (runResults ([ACall "run"] ++ l)) with (runResults l).
  now repeat split.
Qed.

End CommandSequence.

(** ** The worker, event by event *)

Section WorkerAtWork.

Variable W : World.
Variable PathSeparator : ascii.
Variable ContinueOnError : bool.

(** The worker's handling of one event, step by step. *)
Lemma handleEvent_unfold (fuel : nat) (w : WatchService) (lastExec : Z)
    (evt : FileEvent) (t : nat) :
  handleEvent W PathSeparator ContinueOnError fuel w lastExec evt t
  = match syncWatchersAndCaches W PathSeparator w evt t with
    | (Ret w1, t1, l1) =>
        prepend l1
          (prepend [AStage "check filename is matching the pattern"]
             (if includePatternRegexp w1 (Name evt) then
                prepend
                  [AStage "check filesystem event is matching watch events flag"]
                  (if eventTypeMatched (watchFlags w1) evt then
                     prepend [ANow (nowAt W t1)]
                       (prepend [AStage "check execution interval"]
                          (if allowedAt lastExec (Interval (config w1))
                                (nowAt W t1)
                           then
                             if isDir w1 (Name evt)
                             then stampAndRun W ContinueOnError w1 evt (S t1)
                             else if IsModify evt then
                               match checkFileContentChanged W fuel
                                       (entries w1) (Name evt) (S t1) with
                               | (Ret (changed, es), t2, l2) =>
                                   prepend l2
                                     (if changed
                                      then stampAndRun W ContinueOnError
                                             (setEntries w1 es) evt t2
                                      else (Ret (setEntries w1 es, lastExec),
                                            t2, []))
                               | (OutOfFuel, t2, l2) => (OutOfFuel, t2, l2)
                               end
                             else stampAndRun W ContinueOnError w1 evt (S t1)
                           else (Ret (w1, lastExec), S t1, [])))
                   else (Ret (w1, lastExec), t1, []))
              else (Ret (w1, lastExec), t1, [])))
    | (OutOfFuel, t1, l1) => (OutOfFuel, t1, l1)
    end.
Proof.
  unfold handleEvent.
  destruct (syncWatchersAndCaches W PathSeparator w evt t)
    as [[[w1|] t1] l1] eqn:Hs.
  2:{ now rewrite (bind_stuck_eq _ _ _ _ _ Hs). }
  rewrite (bind_ret_eq _ _ _ _ _ _ Hs).
  unfold checkPatternMatching. rewrite decorator_ret_bind.
  destruct (includePatternRegexp w1 (Name evt)); [|reflexivity].
  unfold checkEventType. rewrite decorator_ret_bind.
  destruct (eventTypeMatched (watchFlags w1) evt); [|reflexivity].
  rewrite timeNow_bind. unfold checkExecInterval.
  rewrite decorator_ret_bind. fold (allowedAt lastExec (Interval (config w1))
                                      (nowAt W t1)).
  destruct (allowedAt lastExec (Interval (config w1)) (nowAt W t1));
    [|reflexivity].
  destruct (isDir w1 (Name evt)); [reflexivity|].
  destruct (IsModify evt); [|reflexivity].
  destruct (checkFileContentChanged W fuel (entries w1) (Name evt) (S t1))
    as [[[[changed es]|] t2] l2] eqn:Hd.
  - rewrite (bind_ret_eq _ _ _ _ _ _ Hd). destruct changed; reflexivity.
  - now rewrite (bind_stuck_eq _ _ _ _ _ Hd).
Qed.

(** The last two steps: the time is read, then [run] is entered and the
    commands are run; nothing else happens, and the time read is the new
    [lastExec]. *)
Lemma stampAndRun_shape (w : WatchService) (evt : FileEvent) (t : nat) :
  exists t' lrun,
    stampAndRun W ContinueOnError w evt t
    = (Ret (w, nowAt W t), t', ANow (nowAt W t) :: ACall "run" :: lrun)
    /\ forallb isRun lrun = true.
Proof.
  unfold stampAndRun. rewrite timeNow_bind. unfold run, bind at 1.
  unfold bind, emit.
  destruct (runCommands_sequence W ContinueOnError (Commands (config w)) evt
              (S t)) as (Hout & Hrun & _).
  destruct (runCommands W ContinueOnError (Commands (config w)) evt (S t))
    as [[o t'] l].
  unfold outcome, actions in Hout, Hrun. cbn [fst snd] in *. subst o.
  exists t', l. unfold prepend, ret. cbn. now rewrite app_nil_r.
Qed.

Lemma forallb_isRun_facts (l : list Action) :
  forallb isRun l = true ->
  stagesOf l = [] /\ existsb isFingerprintRead l = false.
Proof.
  induction l as [|a l IH]; [now split|].
  cbn [forallb]. intros [Ha Hl]%andb_true_iff.
  destruct (IH Hl) as [Hst Hf]. destruct a; try discriminate Ha.
  cbn. now rewrite Hf.
Qed.

(** What the sync step leaves for the rest of the handling. *)
Lemma sync_state (w : WatchService) (evt : FileEvent) (t : nat) :
  exists w1 t1 l1,
    syncWatchersAndCaches W PathSeparator w evt t = (Ret w1, t1, l1)
    /\ stagesOf l1 = [Sync]
    /\ existsb isRun l1 = false
    /\ existsb isFingerprintRead l1 = false
    /\ (path w1 = path w /\ config w1 = config w
        /\ watchFlags w1 = watchFlags w
        /\ includePatternRegexp w1 = includePatternRegexp w)
    /\ (forall q, is_Some (dirs w1 !! q) ->
          is_Some (dirs w !! q) \/ (IsCreate evt = true /\ q = Name evt))
    /\ (forall q, is_Some (entries w1 !! q) -> is_Some (entries w !! q))
    /\ (IsCreate evt = false -> t1 = t)
    /\ (IsCreate evt = false -> IsRename evt = false ->
        IsDelete evt = false ->
        w1 = w /\ l1 = [ACall "syncWatchersAndCaches"]).
Proof.
  unfold syncWatchersAndCaches.
  unfold bind, emit, osStat, watcherWatch, watcherRemoveWatch, ret.
  destruct (IsCreate evt).
  - destruct (statAt W t (Name evt)) as [info|]; cbn;
      [destruct (fi_isDir info); cbn|];
      do 3 eexists; (split; [reflexivity|]);
      cbn [path config watchFlags includePatternRegexp dirs entries
           setDirs setEntries];
      repeat split; auto; try discriminate.
    intros q. destruct (decide (Name evt = q)) as [<-|Hne]; [auto|].
    rewrite lookup_insert_ne by exact Hne. auto.
  - destruct (IsRename evt) eqn:Hr, (IsDelete evt) eqn:Hd; cbn;
      try destruct (isDir w (Name evt)); cbn;
      do 3 eexists; (split; [reflexivity|]);
      cbn [path config watchFlags includePatternRegexp dirs entries
           setDirs setEntries];
      repeat split; auto; try discriminate.
    all: intros q; try rewrite lookup_purgePrefix;
      try (destruct (GoStrings.HasPrefix q _); [intros [? ?]; discriminate|]);
      destruct (decide (Name evt = q)) as [<-|Hne];
      rewrite ?lookup_delete_eq, ?lookup_delete_ne by exact Hne; auto;
      intros [? ?]; discriminate.
Qed.

(** The debouncer adds no key to the cache but its path. *)
Lemma checkFileContentChanged_keys (fuel : nat)
    (es es' : gmap string FileEntry) (p : string) (t : nat) (b : bool) :
  outcome (checkFileContentChanged W fuel es p t) = Ret (b, es') ->
  forall q, is_Some (es' !! q) -> is_Some (es !! q) \/ q = p.
Proof.
  rewrite checkFileContentChanged_unfold.
  destruct (waitForFileClose W fuel p t) as [[[[|]|] t1] l1];
    rewrite ?outcome_prepend; unfold outcome; cbn [fst];
    [| intros [= <- <-]; auto | discriminate].
  destruct (es !! p) as [cached|];
    (destruct (pollAt W p t1) as [sz|];
     [destruct (readAt W (S t1) p) as [bs|]|]);
    cbn [fst]; intros [= <- <-] q;
    repeat match goal with |- context [if ?c then _ else _] => destruct c end;
    destruct (decide (p = q)) as [<-|Hne]; auto;
    rewrite ?lookup_insert_ne by exact Hne; auto.
Qed.

Ltac trace_pieces :=
  rewrite ?actions_prepend, ?outcome_prepend, ?clock_prepend,
          ?stagesOf_app, ?existsb_app;
  unfold actions, outcome, clock; cbn [fst snd].

Ltac not_in_stages :=
  let H := fresh in
  intros H;
  repeat (apply elem_of_cons in H as [H|H]; [discriminate H|]);
  now apply elem_of_nil in H.

(** X18: for an event that is not a create, passes the pattern and is
    admitted, the throttle gate decides by the time read at the worker's
    first question: with a non-zero interval and a time not after
    [lastExec + interval] the event is dropped on the spot (no debouncing,
    no command, [lastExec] and the service as the sync step left them);
    with a zero interval or a later time the event goes on to the debouncer
    or to the command runner. *)
Theorem throttle_gate (fuel : nat) (w : WatchService) (lastExec : Z)
    (evt : FileEvent) (t : nat) :
  IsCreate evt = false ->
  includePatternRegexp w (Name evt) = true ->
  eventTypeMatched (watchFlags w) evt = true ->
  let r := handleEvent W PathSeparator ContinueOnError fuel w lastExec evt t in
  let now := nowAt W t in
  let interval := Interval (config w) in
  exists w1 l1,
    syncWatchersAndCaches W PathSeparator w evt t = (Ret w1, t, l1)
    /\ (interval <> 0%Z -> (now <= lastExec + interval)%Z ->
        r = (Ret (w1, lastExec), S t,
             l1 ++ [AStage "check filename is matching the pattern";
                    AStage "check filesystem event is matching watch events flag";
                    ANow now; AStage "check execution interval"]))
    /\ (interval = 0%Z \/ (lastExec + interval < now)%Z ->
        Debounce ∈ stagesOf (actions r) \/ Runner ∈ stagesOf (actions r)).
Proof.
  intros Hc Hp Ha r now interval. subst r now interval.
  destruct (sync_state w evt t)
    as (w1 & t1 & l1 & Hs & Hst & _ & _ & (_ & Hcfg & Hfl & Hre) & _ & _
        & Ht & _).
  rewrite (Ht Hc) in *. exists w1, l1. split; [exact Hs|].
  rewrite handleEvent_unfold, Hs, Hre, Hp, Hfl, Ha, Hcfg. unfold allowedAt.
  split.
  - intros Hi Hnow. apply Z.eqb_neq in Hi. rewrite Hi.
    assert (Hlt : (0 <? nowAt W t - (lastExec + Interval (config w)))%Z
                  = false) by (apply Z.ltb_ge; lia).
    rewrite Hlt. unfold prepend. cbn [fst snd].
    now rewrite app_nil_r.
  - intros Hgo.
    assert (Hallow : (if (Interval (config w) =? 0)%Z then true
                      else (0 <? nowAt W t - (lastExec + Interval (config w)))%Z)
                     = true).
    { destruct Hgo as [-> | Hlt]; [reflexivity|].
      destruct (_ =? _)%Z; [reflexivity|]. apply Z.ltb_lt. lia. }
    rewrite Hallow.
    assert (Hrunner : forall w2 t2 pre,
      Runner ∈ stagesOf (pre ++ actions (stampAndRun W ContinueOnError w2
                                           evt t2))).
    { intros w2 t2 pre.
      destruct (stampAndRun_shape w2 evt t2) as (t' & lrun & -> & _).
      rewrite stagesOf_app. apply elem_of_app. right.
      unfold actions. cbn [snd].
      change (stagesOf (ANow ?x :: ACall "run" :: lrun))
        with (Runner :: stagesOf lrun). apply list_elem_of_here. }
    destruct (isDir w1 (Name evt)).
    { right. rewrite !actions_prepend, !app_assoc. apply Hrunner. }
    destruct (IsModify evt).
    2:{ right. rewrite !actions_prepend, !app_assoc. apply Hrunner. }
    left.
    destruct (checkFileContentChanged_trace W fuel (entries w1) (Name evt)
                (S t)) as (Hd & _ & _).
    destruct (checkFileContentChanged W fuel (entries w1) (Name evt) (S t))
      as [[[[changed es]|] t2] l2]; unfold actions in Hd; cbn [snd] in Hd;
      trace_pieces; rewrite ?stagesOf_app, Hd, Hst; cbn;
      do 4 apply list_elem_of_further; apply list_elem_of_here.
Qed.

(** X19: the worker changes [lastExec] only when it enters the command
    runner, and then to the time it reads immediately before entering it:
    when the runner is not entered, the [lastExec] it returns is the one it
    was given; when it is entered, the actions end with the reading of the
    returned time, the entry into [run] and the commands. *)
Theorem lastExec_follows_run (fuel : nat) (w w' : WatchService)
    (lastExec lastExec' : Z) (evt : FileEvent) (t : nat) :
  let r := handleEvent W PathSeparator ContinueOnError fuel w lastExec evt t in
  outcome r = Ret (w', lastExec') ->
  (Runner ∉ stagesOf (actions r) -> lastExec' = lastExec)
  /\ (Runner ∈ stagesOf (actions r) ->
      exists before lrun,
        actions r = before ++ ANow lastExec' :: ACall "run" :: lrun
        /\ forallb isRun lrun = true
        /\ Runner ∉ stagesOf before).
Proof.
  cbn zeta. rewrite handleEvent_unfold.
  destruct (sync_state w evt t)
    as (w1 & t1 & l1 & Hs & Hst & _). rewrite Hs.
  assert (Hrun : forall w2 t2 pre,
    stagesOf pre `prefix_of` [Sync; Pattern; Classify; Throttle; Debounce] ->
    outcome (prepend pre (stampAndRun W ContinueOnError w2 evt t2))
    = Ret (w', lastExec') ->
    (Runner ∉ stagesOf (actions (prepend pre
                (stampAndRun W ContinueOnError w2 evt t2))) ->
     lastExec' = lastExec)
    /\ (Runner ∈ stagesOf (actions (prepend pre
                (stampAndRun W ContinueOnError w2 evt t2))) ->
        exists before lrun,
          actions (prepend pre (stampAndRun W ContinueOnError w2 evt t2))
          = before ++ ANow lastExec' :: ACall "run" :: lrun
          /\ forallb isRun lrun = true
          /\ Runner ∉ stagesOf before)).
  { intros w2 t2 pre Hpre.
    destruct (stampAndRun_shape w2 evt t2) as (t' & lrun & -> & Hl).
    trace_pieces. intros [= <- <-]. split.
    - intros Hno. exfalso. apply Hno. apply elem_of_app. right.
      change (stagesOf (ANow ?x :: ACall "run" :: lrun))
        with (Runner :: stagesOf lrun). apply list_elem_of_here.
    - intros _. exists pre, lrun. repeat split; auto.
      destruct Hpre as [k Hk]. intros Hin.
      assert (Hall : Runner ∈ [Sync; Pattern; Classify; Throttle; Debounce])
        by (rewrite Hk; apply elem_of_app; now left).
      revert Hall. not_in_stages. }
  destruct (includePatternRegexp w1 (Name evt)).
  2:{ trace_pieces. intros [= <- <-]. rewrite Hst. cbn.
      split; [auto | not_in_stages]. }
  destruct (eventTypeMatched (watchFlags w1) evt).
  2:{ trace_pieces. intros [= <- <-]. rewrite Hst. cbn.
      split; [auto | not_in_stages]. }
  destruct (allowedAt lastExec (Interval (config w1)) (nowAt W t1)).
  2:{ trace_pieces. intros [= <- <-]. rewrite Hst. cbn.
      split; [auto | not_in_stages]. }
  assert (Hdirect :
    stagesOf (l1 ++ [AStage "check filename is matching the pattern"] ++
              [AStage "check filesystem event is matching watch events flag"]
              ++ [ANow (nowAt W t1)] ++ [AStage "check execution interval"])
    `prefix_of` [Sync; Pattern; Classify; Throttle; Debounce]).
  { rewrite stagesOf_app, Hst. now exists [Debounce]. }
  destruct (isDir w1 (Name evt)).
  { intros Hout. specialize (Hrun w1 (S t1) _ Hdirect).
    unfold prepend in *. cbn [fst snd] in *. rewrite <- !app_assoc in Hrun.
    now apply Hrun. }
  destruct (IsModify evt).
  2:{ intros Hout. specialize (Hrun w1 (S t1) _ Hdirect).
      unfold prepend in *. cbn [fst snd] in *. rewrite <- !app_assoc in Hrun.
      now apply Hrun. }
  destruct (checkFileContentChanged_trace W fuel (entries w1) (Name evt)
              (S t1)) as (Hd & _ & _).
  destruct (checkFileContentChanged W fuel (entries w1) (Name evt) (S t1))
    as [[[[changed es]|] t2] l2]; unfold actions in Hd; cbn [snd] in Hd.
  - destruct changed.
    + intros Hout.
      assert (Hpre : stagesOf
          (l1 ++ [AStage "check filename is matching the pattern"] ++
           [AStage "check filesystem event is matching watch events flag"]
           ++ [ANow (nowAt W t1)] ++ [AStage "check execution interval"]
           ++ l2)
          `prefix_of` [Sync; Pattern; Classify; Throttle; Debounce]).
      { rewrite !stagesOf_app, Hst, Hd. now exists []. }
      specialize (Hrun (setEntries w1 es) t2 _ Hpre).
      unfold prepend in *. cbn [fst snd] in *. rewrite <- !app_assoc in Hrun.
      now apply Hrun.
    + trace_pieces. intros [= <- <-]. rewrite Hst, Hd. cbn.
      split; [auto | not_in_stages].
  - trace_pieces. discriminate.
Qed.

Lemma handleEvent_state (fuel : nat) (w w' : WatchService)
    (lastExec lastExec' : Z) (evt : FileEvent) (t : nat) :
  outcome (handleEvent W PathSeparator ContinueOnError fuel w lastExec evt t)
  = Ret (w', lastExec') ->
  (path w' = path w /\ config w' = config w
   /\ watchFlags w' = watchFlags w
   /\ includePatternRegexp w' = includePatternRegexp w)
  /\ (forall q, is_Some (dirs w' !! q) ->
        is_Some (dirs w !! q) \/ (IsCreate evt = true /\ q = Name evt))
  /\ (forall q, is_Some (entries w' !! q) ->
        is_Some (entries w !! q) \/ (IsModify evt = true /\ q = Name evt)).
Proof.
  rewrite handleEvent_unfold.
  destruct (sync_state w evt t)
    as (w1 & t1 & l1 & Hs & _ & _ & _ & Hcfg & Hdirs & Hent & _).
  rewrite Hs.
  assert (Hsame : forall w2, w2 = w1 ->
    (path w2 = path w /\ config w2 = config w
     /\ watchFlags w2 = watchFlags w
     /\ includePatternRegexp w2 = includePatternRegexp w)
    /\ (forall q, is_Some (dirs w2 !! q) ->
          is_Some (dirs w !! q) \/ (IsCreate evt = true /\ q = Name evt))
    /\ (forall q, is_Some (entries w2 !! q) ->
          is_Some (entries w !! q) \/ (IsModify evt = true /\ q = Name evt))).
  { intros w2 ->. repeat split; try apply Hcfg; auto. }
  assert (Hrun : forall w2 t2,
    outcome (stampAndRun W ContinueOnError w2 evt t2) = Ret (w', lastExec') ->
    w' = w2).
  { intros w2 t2. destruct (stampAndRun_shape w2 evt t2) as (t' & lrun & -> & _).
    unfold outcome. cbn [fst]. now intros [= <- _]. }
  destruct (includePatternRegexp w1 (Name evt));
    [| trace_pieces; intros [= <- <-]; now apply Hsame].
  destruct (eventTypeMatched (watchFlags w1) evt);
    [| trace_pieces; intros [= <- <-]; now apply Hsame].
  destruct (allowedAt lastExec (Interval (config w1)) (nowAt W t1));
    [| trace_pieces; intros [= <- <-]; now apply Hsame].
  destruct (isDir w1 (Name evt)).
  { rewrite !outcome_prepend. intros H. apply Hrun in H. now apply Hsame. }
  destruct (IsModify evt) eqn:Hm.
  2:{ rewrite !outcome_prepend. intros H. apply Hrun in H. now apply Hsame. }
  pose proof (checkFileContentChanged_keys fuel (entries w1)) as Hkeys.
  specialize (Hkeys) with (p := Name evt) (t := S t1).
  destruct (checkFileContentChanged W fuel (entries w1) (Name evt) (S t1))
    as [[[[changed es]|] t2] l2]; [| trace_pieces; discriminate].
  specialize (Hkeys es changed eq_refl).
  assert (Hset : w' = setEntries w1 es ->
    (path w' = path w /\ config w' = config w
     /\ watchFlags w' = watchFlags w
     /\ includePatternRegexp w' = includePatternRegexp w)
    /\ (forall q, is_Some (dirs w' !! q) ->
          is_Some (dirs w !! q) \/ (IsCreate evt = true /\ q = Name evt))
    /\ (forall q, is_Some (entries w' !! q) ->
          is_Some (entries w !! q) \/ (true = true /\ q = Name evt))).
  { intros ->. cbn [setEntries path config watchFlags includePatternRegexp
                    dirs entries].
    split; [exact Hcfg|]. split; [exact Hdirs|].
    intros q Hq. destruct (Hkeys q Hq) as [H| ->]; auto. }
  destruct changed.
  - rewrite !outcome_prepend. intros H. apply Hrun in H. now apply Hset.
  - trace_pieces. intros [= <- <-]. now apply Hset.
Qed.

Lemma workerLoop_cons (fuel : nat) (w : WatchService) (lastExec : Z)
    (evt : FileEvent) (rest : list FileEvent) (t : nat) :
  workerLoop W PathSeparator ContinueOnError fuel w lastExec (evt :: rest) t
  = match handleEvent W PathSeparator ContinueOnError fuel w lastExec evt t with
    | (Ret (w1, le1), t1, l1) =>
        prepend l1
          (workerLoop W PathSeparator ContinueOnError fuel w1 le1 rest t1)
    | (OutOfFuel, t1, l1) => (OutOfFuel, t1, l1)
    end.
Proof.
  cbn [workerLoop]. unfold bind at 1.
  destruct (handleEvent W PathSeparator ContinueOnError fuel w lastExec evt t)
    as [[[[w1 le1]|] t1] l1]; [|reflexivity].
  unfold prepend.
  now destruct (workerLoop W PathSeparator ContinueOnError fuel w1 le1 rest t1)
    as [[o t2] l2].
Qed.

(** X20: over any sequence of events the worker leaves the root path, the
    configuration, the event mask and the pattern of the service as they
    were; a path is in the directory map afterwards only if it was before
    or a create event of the sequence names it, and a file has a cached
    fingerprint afterwards only if it had one before or a modify event of
    the sequence names it. *)
Theorem worker_state_invariant (fuel : nat) (events : list FileEvent)
    (w w' : WatchService) (lastExec lastExec' : Z) (t : nat) :
  outcome (workerLoop W PathSeparator ContinueOnError fuel w lastExec events t)
  = Ret (w', lastExec') ->
  (path w' = path w /\ config w' = config w
   /\ watchFlags w' = watchFlags w
   /\ includePatternRegexp w' = includePatternRegexp w)
  /\ (forall q, is_Some (dirs w' !! q) ->
        is_Some (dirs w !! q)
        \/ exists evt, evt ∈ events /\ IsCreate evt = true /\ Name evt = q)
  /\ (forall q, is_Some (entries w' !! q) ->
        is_Some (entries w !! q)
        \/ exists evt, evt ∈ events /\ IsModify evt = true /\ Name evt = q).
Proof.
  revert w lastExec t.
  induction events as [|evt rest IH]; intros w lastExec t.
  - unfold outcome. cbn. intros [= <- <-]. repeat split; auto.
  - rewrite workerLoop_cons.
    pose proof (handleEvent_state fuel w) as Hstep.
    specialize Hstep with (lastExec := lastExec) (evt := evt) (t := t).
    destruct (handleEvent W PathSeparator ContinueOnError fuel w lastExec
                evt t) as [[[[w1 le1]|] t1] l1];
      [| unfold outcome; cbn; discriminate].
    destruct (Hstep w1 le1 eq_refl)
      as ((Hp & Hc & Hf & Hr) & Hd1 & He1).
    rewrite outcome_prepend. intros Hout.
    destruct (IH _ _ _ Hout) as ((Hp' & Hc' & Hf' & Hr') & Hd & He).
    split; [repeat split; congruence|]. split.
    + intros q Hq. destruct (Hd q Hq) as [H1 | (e & Hin & Hce & Hn)].
      * destruct (Hd1 q H1) as [H0 | [Hce ->]]; [now left|].
        right. exists evt. split; [apply list_elem_of_here | auto].
      * right. exists e. split; [now apply list_elem_of_further | auto].
    + intros q Hq. destruct (He q Hq) as [H1 | (e & Hin & Hce & Hn)].
      * destruct (He1 q H1) as [H0 | [Hce ->]]; [now left|].
        right. exists evt. split; [apply list_elem_of_here | auto].
      * right. exists e. split; [now apply list_elem_of_further | auto].
Qed.

(** X21: a modified file that never stops changing size blocks the worker.
    For a modify event on a file (not a known directory) that passes the
    pattern, the event-type check and the throttle, when every size poll
    succeeds and no two consecutive polls are unchanged, the worker is still
    polling after any number of iterations: it has gone through the stages
    up to the debouncer, has run no command, and none of the events that
    follow is handled. *)
Theorem worker_blocked_by_changing_file (fuel : nat) (w : WatchService)
    (lastExec : Z) (evt : FileEvent) (rest : list FileEvent) (t : nat) :
  IsCreate evt = false -> IsRename evt = false -> IsDelete evt = false ->
  IsModify evt = true ->
  includePatternRegexp w (Name evt) = true ->
  eventTypeMatched (watchFlags w) evt = true ->
  (Interval (config w) = 0%Z
   \/ (lastExec + Interval (config w) < nowAt W t)%Z) ->
  isDir w (Name evt) = false ->
  (forall i, is_Some (pollAt W (Name evt) (S t + i))) ->
  (forall n, ~ stableFrom W (Name evt) (S t) 0 n) ->
  let r := workerLoop W PathSeparator ContinueOnError fuel w lastExec
             (evt :: rest) t in
  outcome r = OutOfFuel
  /\ clock r = S t + fuel
  /\ stagesOf (actions r) = [Sync; Pattern; Classify; Throttle; Debounce]
  /\ existsb isRun (actions r) = false.
Proof.
  intros Hc Hr Hd Hm Hp Ha Hgo Hdir Hok Hns. cbn zeta.
  rewrite workerLoop_cons, handleEvent_unfold.
  destruct (sync_state w evt t)
    as (w1 & t1 & l1 & Hs & _ & _ & _ & _ & _ & _ & _ & Hpure).
  destruct (Hpure Hc Hr Hd) as [-> ->].
  assert (Ht : t1 = t).
  { revert Hs. unfold syncWatchersAndCaches. rewrite Hc, Hr, Hd.
    unfold bind, emit, ret. cbn. now intros [= <-]. }
  subst t1. rewrite Hs, Hp, Ha, Hdir, Hm.
  assert (Hallow : allowedAt lastExec (Interval (config w)) (nowAt W t)
                   = true).
  { unfold allowedAt. destruct Hgo as [-> | Hlt]; [reflexivity|].
    destruct (_ =? _)%Z; [reflexivity|]. apply Z.ltb_lt. lia. }
  rewrite Hallow, checkFileContentChanged_unfold.
  destruct (waitLoop_never_stable W (Name evt) fuel 0 0 (S t) Hok)
    as [Hout Hclock]; [intros [? _]; lia | exact Hns |].
  destruct (waitLoop_trace W fuel (Name evt) 0 0 (S t)) as (Hst & Hrun & _).
  fold (waitForFileClose W fuel (Name evt) (S t)) in Hout, Hclock, Hst, Hrun.
  destruct (waitForFileClose W fuel (Name evt) (S t)) as [[[e|] t2] l2];
    unfold outcome, clock, actions in Hout, Hclock, Hst, Hrun;
    cbn [fst snd] in Hout, Hclock, Hst, Hrun; [discriminate|].
  subst t2. unfold prepend, outcome, clock, actions. cbn [fst snd].
  split; [reflexivity|]. split; [reflexivity|].
  rewrite !stagesOf_app, !existsb_app, Hst, Hrun. now split.
Qed.

(** X22: the worker reads the size or the checksum of a file only in the
    debouncer: if handling an event reads either, the event is a modify
    event whose name passes the pattern and whose type is among the watched
    ones, and the debounce stage was entered. *)
Theorem fingerprint_read_only_when_debouncing (fuel : nat) (w : WatchService)
    (lastExec : Z) (evt : FileEvent) (t : nat) :
  let r := handleEvent W PathSeparator ContinueOnError fuel w lastExec evt t in
  existsb isFingerprintRead (actions r) = true ->
  IsModify evt = true
  /\ includePatternRegexp w (Name evt) = true
  /\ eventTypeMatched (watchFlags w) evt = true
  /\ Debounce ∈ stagesOf (actions r).
Proof.
  cbn zeta. rewrite handleEvent_unfold.
  destruct (sync_state w evt t)
    as (w1 & t1 & l1 & Hs & Hst & _ & Hnf & (_ & _ & Hfl & Hre) & _).
  rewrite Hs, Hre, Hfl.
  assert (Hrun : forall w2 t2,
    existsb isFingerprintRead
      (actions (stampAndRun W ContinueOnError w2 evt t2)) = false).
  { intros w2 t2.
    destruct (stampAndRun_shape w2 evt t2) as (t' & lrun & -> & Hl).
    unfold actions. cbn [snd existsb isFingerprintRead orb].
    now apply forallb_isRun_facts. }
  destruct (includePatternRegexp w (Name evt));
    [| trace_pieces; rewrite Hnf; discriminate].
  destruct (eventTypeMatched (watchFlags w) evt);
    [| trace_pieces; rewrite Hnf; discriminate].
  destruct (allowedAt lastExec (Interval (config w1)) (nowAt W t1));
    [| trace_pieces; rewrite Hnf; discriminate].
  destruct (isDir w1 (Name evt)).
  { rewrite !actions_prepend, !existsb_app, Hnf, Hrun. discriminate. }
  destruct (IsModify evt).
  2:{ rewrite !actions_prepend, !existsb_app, Hnf, Hrun. discriminate. }
  intros _. repeat split.
  destruct (checkFileContentChanged_trace W fuel (entries w1) (Name evt)
              (S t1)) as (Hd & _ & _).
  destruct (checkFileContentChanged W fuel (entries w1) (Name evt) (S t1))
    as [[[[changed es]|] t2] l2]; unfold actions in Hd; cbn [snd] in Hd;
    trace_pieces; rewrite ?stagesOf_app, Hd, Hst; cbn;
    do 4 apply list_elem_of_further; apply list_elem_of_here.
Qed.

End WorkerAtWork.

(** ** The daemon *)

Section DaemonLifecycle.
Import daemon.

Variable H : Host.
Variable Itoa : Z -> string.
Variable Atoi : string -> Z * bool.

Ltac daemon_unfold :=
  unfold Start, Stop, IsRunning, readPidFromFile, andThen, pure,
    ioutilReadFile, ioutilWriteFile, osRemove, osFindProcess, processSignal,
    isOSProcessRunning, serviceStart, serviceStop, result, calls.

Ltac daemon_case :=
  match goal with
  | |- context [match ?x with _ => _ end] =>
      lazymatch x with
      | running _ => fail
      | _ => destruct x eqn:?
      end
  | |- context [if ?x then _ else _] => destruct x eqn:?
  end.

Ltac not_constant c :=
  lazymatch c with true => fail | false => fail | _ => idtac end.

Ltac split_ifs :=
  repeat (match goal with
          | |- context [if negb ?c then _ else _] =>
              not_constant c; destruct c eqn:?
          | |- context [if ?c then _ else _] =>
              not_constant c; destruct c eqn:?
          end; cbn).

Ltac use_answers :=
  repeat match goal with
         | Hx : ?c = true |- context [?c] => rewrite Hx; cbn
         | Hx : ?c = false |- context [?c] => rewrite Hx; cbn
         end.

Ltac in_calls := cbn; repeat (first [left; reflexivity | right]).

Ltac same_file d :=
  repeat match goal with
         | |- context [getPidFilename ?x] =>
             lazymatch x with
             | d => fail
             | _ => change (getPidFilename x) with (getPidFilename d)
             end
         end.

(** What [IsRunning] does. *)
Lemma IsRunning_cases (d : Daemon) (t : nat) :
  (running d = true /\ IsRunning H Atoi d t = ((d, true), t, []))
  \/ (running d = false
      /\ exists data p ok,
           readFileAt H t (getPidFilename d) = data
           /\ match data with Some s => Atoi s | None => (0%Z, false) end
              = (p, ok)
           /\ IsRunning H Atoi d t
              = if ok
                then ((setRunning (setPid d p) (runningAt H (S t) p),
                       runningAt H (S t) p),
                      S (S t),
                      [ReadFile (getPidFilename d) data;
                       ProcessRunning p (runningAt H (S t) p)])
                else ((setPid d p, false), S t,
                      [ReadFile (getPidFilename d) data])).
Proof.
  daemon_unfold. destruct (running d) eqn:Hr; [left; now split|right].
  split; [reflexivity|].
  exists (readFileAt H t (getPidFilename d)).
  destruct (readFileAt H t (getPidFilename d)) as [s|].
  - destruct (Atoi s) as [p ok]. exists p, ok.
    split; [reflexivity|]. split; [reflexivity|].
    destruct ok; cbn; [|now rewrite Hr]. reflexivity.
  - exists 0%Z, false. cbn. now rewrite Hr.
Qed.

Lemma wellOrdered_app (started : bool) (l1 l2 : list Call) :
  wellOrdered started (l1 ++ l2)
  = wellOrdered started l1 && wellOrdered (started || existsb isStarted l1) l2.
Proof.
  revert started. induction l1 as [|c l1 IH]; intros started.
  - cbn. now rewrite orb_false_r.
  - cbn [app wellOrdered existsb]. rewrite IH, orb_assoc.
    now rewrite !andb_assoc.
Qed.

(** X23: a daemon that [Start] has started is running in the foreground
    under the process's own pid, and the last two things [Start] did were
    to write that pid to the pid file and to start the service, in this
    order.  [Stop] on it asks nothing about the pid file or the process:
    it stops the service and only then removes the pid file; when the
    service does not stop the pid file is not touched, and unless both
    succeed the daemon still counts as running. *)
Theorem Start_then_Stop (d d1 : Daemon) (t t1 : nat) (l1 : list Call) :
  Start H Itoa Atoi d t = ((d1, no_error), t1, l1) ->
  let pidfile := getPidFilename d in
  (name d1 = name d /\ pid d1 = Getpid H
   /\ foreground d1 = true /\ running d1 = true)
  /\ l1 = calls (IsRunning H Atoi d t)
          ++ [WriteFile pidfile (Itoa (Getpid H)) true; ServiceStart true]
  /\ Stop H Atoi d1 t1
     = if stopAt H t1
       then if removeAt H (S t1) pidfile
            then ((setRunning d1 false, no_error), S (S t1),
                  [ServiceStop true; Remove pidfile true])
            else ((d1, call_error), S (S t1),
                  [ServiceStop true; Remove pidfile false])
       else ((d1, call_error), S t1, [ServiceStop false]).
Proof.
  intros Hstart pidfile. subst pidfile. revert Hstart.
  unfold Start, IsRunning, readPidFromFile, andThen, pure, ioutilReadFile,
    ioutilWriteFile, isOSProcessRunning, serviceStart, calls.
  destruct (running d) eqn:Hr; [cbn; discriminate|].
  assert (Hf : forall p r,
            getPidFilename (setRunning (setPid d p) r) = getPidFilename d)
    by reflexivity.
  assert (Hf' : forall p, getPidFilename (setPid d p) = getPidFilename d)
    by reflexivity.
  destruct (readFileAt H t (getPidFilename d)) as [s|];
    [destruct (Atoi s) as [p [|]]|]; cbn;
    rewrite ?Hf, ?Hf', ?Hr;
    split_ifs; cbn; try discriminate;
    intros [= <- <- <-]; (split; [now repeat split|]);
    (split; [reflexivity|]);
    unfold Stop, IsRunning, andThen, pure, serviceStop, osRemove; cbn;
    same_file d; use_answers; reflexivity.
Qed.

(** X24: [Stop] on a daemon that is not in the foreground never stops the
    service and never removes the pid file, whatever the host answers; the
    daemon stays in the background.  It signals at most one process: the
    one it has just looked up, whose pid is the daemon's own when the
    daemon counted as running, and otherwise the number in the pid file it
    has just read, which the host has reported as running.  It returns no
    error only after it has looked the process up, signalled it and found
    it gone, and then the daemon no longer counts as running. *)
Theorem background_Stop_only_signals (d : Daemon) (t : nat) :
  foreground d = false ->
  let r := Stop H Atoi d t in
  let d' := (result r).1 in
  existsb isShutdown (calls r) = false
  /\ name d' = name d /\ foreground d' = false
  /\ (forall p ok, In (Signal p ok) (calls r) ->
        p = pid d'
        /\ In (FindProcess p true) (calls r)
        /\ (running d = true -> p = pid d)
        /\ (running d = false ->
            exists s, In (ReadFile (getPidFilename d) (Some s)) (calls r)
                      /\ Atoi s = (p, true)
                      /\ In (ProcessRunning p true) (calls r)))
  /\ ((result r).2 = no_error ->
      running d' = false
      /\ exists before,
           calls r = before ++ [FindProcess (pid d') true;
                                Signal (pid d') true;
                                ProcessRunning (pid d') false]).
Proof.
  intros Hfg. cbn zeta. daemon_unfold.
  destruct (running d) eqn:Hr; cbn; rewrite ?Hfg;
    [| destruct (readFileAt H t (getPidFilename d)) as [s|];
       [destruct (Atoi s) as [p [|]] eqn:Ha|]; cbn; rewrite ?Hfg, ?Hr; cbn ];
    split_ifs; rewrite ?Hfg; cbn;
    (split; [reflexivity|]); (split; [reflexivity|]);
    (split; [reflexivity|]); (split; [| try discriminate]).
  all: try (intros _; split; [reflexivity|];
            first [now exists [] | now eexists [_; _]]).
  all: intros p0 ok0 Hin;
    repeat (destruct Hin as [Hin|Hin]; [try discriminate Hin|]);
    try contradiction; injection Hin as <- <-;
    (split; [reflexivity|]); (split; [in_calls|]);
    (split; [intros; first [reflexivity | discriminate]|]);
    first [ discriminate
          | intros _; exists s; split; [in_calls|];
            split; [assumption | in_calls] ].
Qed.

Lemma invoke_ordered (m : Method) (d : Daemon) (t : nat) :
  let r := invoke H Itoa Atoi m d t in
  name (result r) = name d
  /\ foreground (result r) = foreground d || existsb isStarted (calls r)
  /\ wellOrdered (foreground d) (calls r) = true.
Proof.
  cbn zeta. unfold invoke. daemon_unfold.
  destruct m, (foreground d) eqn:Hfg, (running d) eqn:Hr; cbn;
    rewrite ?Hfg, ?Hr; cbn;
    try (destruct (readFileAt H t (getPidFilename d)) as [s|];
         [destruct (Atoi s) as [p [|]]|]; cbn; rewrite ?Hfg, ?Hr; cbn);
    split_ifs; rewrite ?Hfg, ?Hr; cbn; auto.
Qed.

(** X25: over any sequence of calls of [Start], [Stop] and [IsRunning] on
    one daemon the name never changes, and the daemon is in the foreground
    afterwards exactly when it was before or one of the calls has started
    the service: the foreground mark is never taken back.  The service is
    stopped and the pid file removed only after the service has been
    started (or by a daemon that was in the foreground from the
    beginning), and a process is looked up and signalled only before. *)
Theorem foreground_is_never_reset (ms : list Method) (d : Daemon) (t : nat) :
  let r := invokeAll H Itoa Atoi ms d t in
  name (result r) = name d
  /\ foreground (result r) = foreground d || existsb isStarted (calls r)
  /\ wellOrdered (foreground d) (calls r) = true.
Proof.
  cbn zeta. revert d t. induction ms as [|m ms IH]; intros d t.
  { cbn. now rewrite orb_false_r. }
  cbn [invokeAll]. unfold andThen.
  pose proof (invoke_ordered m d t) as Hm. cbn zeta in Hm.
  destruct (invoke H Itoa Atoi m d t) as [[d1 t1] l1].
  specialize (IH d1 t1).
  destruct (invokeAll H Itoa Atoi ms d1 t1) as [[d2 t2] l2].
  unfold result, calls in *. cbn [fst snd] in *.
  destruct Hm as (Hn1 & Hf1 & Hw1), IH as (Hn2 & Hf2 & Hw2).
  split; [congruence|].
  rewrite wellOrdered_app, existsb_app, Hw1, <- Hf1, Hw2, Hf2, Hf1.
  now rewrite orb_assoc.
Qed.

(** X26: [Start] never removes the pid file it has written.  When it has
    failed because the service did not start, the pid file has been
    written, and the daemon does not count as running and is no more in the
    foreground than before.  If the host then gives back the file as it was
    written, reads the process's own pid from it and reports that process
    as running, a second [Start] refuses with "already running" without
    starting the service, and marks the daemon as running under the
    process's own pid. *)
Theorem failed_Start_blocks_retry (d d1 : Daemon) (t t1 : nat)
    (l1 : list Call) :
  Start H Itoa Atoi d t = ((d1, call_error), t1, l1) ->
  In (ServiceStart false) l1 ->
  readFileAt H t1 (getPidFilename d) = Some (Itoa (Getpid H)) ->
  Atoi (Itoa (Getpid H)) = (Getpid H, true) ->
  runningAt H (S t1) (Getpid H) = true ->
  let pidfile := getPidFilename d in
  existsb isShutdown l1 = false
  /\ In (WriteFile pidfile (Itoa (Getpid H)) true) l1
  /\ name d1 = name d /\ foreground d1 = foreground d /\ running d1 = false
  /\ Start H Itoa Atoi d1 t1
     = ((setRunning (setPid d1 (Getpid H)) true,
         errorString (name d +:+ " is already running")),
        S (S t1),
        [ReadFile pidfile (Some (Itoa (Getpid H)));
         ProcessRunning (Getpid H) true]).
Proof.
  intros Hstart Hin Hfile Hatoi Halive pidfile. subst pidfile.
  revert Hstart Hin.
  unfold Start at 1.
  unfold IsRunning, readPidFromFile, andThen, pure, ioutilReadFile,
    ioutilWriteFile, isOSProcessRunning, serviceStart, calls.
  destruct (running d) eqn:Hr; [cbn; discriminate|].
  destruct (readFileAt H t (getPidFilename d)) as [s|];
    [destruct (Atoi s) as [p [|]]|]; cbn; rewrite ?Hr;
    split_ifs; try discriminate;
    intros [= <- <- <-] Hin;
    try (exfalso; revert Hin; clear; cbn; intros Hin;
         repeat (destruct Hin as [Hin|Hin]; [discriminate Hin|]);
         contradiction);
    (split; [reflexivity|]); (split; [in_calls|]);
    (split; [reflexivity|]); (split; [reflexivity|]);
    (split; [first [reflexivity | assumption]|]);
    unfold Start, IsRunning, readPidFromFile, andThen, pure, ioutilReadFile,
      isOSProcessRunning; cbn; rewrite ?Hr; same_file d;
    revert Hfile Halive; cbn; intros Hfile Halive;
    rewrite Hfile, Hatoi; cbn; rewrite Halive; reflexivity.
Qed.

End DaemonLifecycle.

(** ** The properties of the rest of the sources, on the sample data *)

Lemma Split_Join_round_trip_sample :
  Join (GoStrings.Split "a,b,,c" ",") "," = "a,b,,c"
  /\ GoStrings.Split (Join ["a"; ""; "c"] ",") "," = ["a"; ""; "c"].
Proof.
  destruct (Split_Join_round_trip "," "a,b,,c" ["a"; ""; "c"])
    as ((_ & _ & H1) & H2).
  split; [exact H1|]. apply H2; [discriminate|]. repeat constructor.
Defined.

Lemma PaddingLeft_pads_sample :
  (- 2 ^ 63 <= 5 - 2 < 2 ^ 63)%Z /\ PaddingLeft "ab" 5 "*" = "***ab".
Proof.
  assert (H : (- 2 ^ 63 <= 5 - 2 < 2 ^ 63)%Z) by lia.
  split; [exact H|].
  destruct (PaddingLeft_pads "ab" 5 "*" H) as (_ & Hpad & _).
  - intros _. cbn. lia.
  - apply Hpad. reflexivity.
Defined.

Lemma validateWatchFlags_mask_valid_sample :
  exists M,
    validateWatchFlags (fun s => s) ["modify"; "create"; "modify"] = Some M
    /\ M <> ∅
    /\ (forall k v, M !! k = Some v -> ValidEvents !! k = Some v)
    /\ (forall k v, M !! k = Some v ->
          In k ["create"; "delete"; "modify"; "rename"]
          /\ EventBit.Name v = k).
Proof.
  eexists. split; [reflexivity|].
  apply (validateWatchFlags_mask_valid (fun s => s)
           ["modify"; "create"; "modify"]).
  reflexivity.
Defined.

Lemma sync_forgets_removed_file_sample :
  exists w',
    syncWatchersAndCaches steadyWorld "/" (sampleService 0)
      (rawEvent Delete "src/a.go") 0
    = (Ret w', 0, [ACall "syncWatchersAndCaches"])
    /\ dirs w' = dirs (sampleService 0)
    /\ entries w' = delete "src/a.go" (entries (sampleService 0))
    /\ entries w' !! "src/a.go" = None
    /\ (forall q, q <> "src/a.go" ->
          entries w' !! q = entries (sampleService 0) !! q).
Proof.
  exact (sync_forgets_removed_file steadyWorld "/" (sampleService 0)
           (rawEvent Delete "src/a.go") 0 eq_refl (or_intror eq_refl)
           eq_refl).
Defined.

Lemma sync_keeps_watch_set_registered_sample :
  exists w' t' l,
    syncWatchersAndCaches directoryWorld "/" (sampleService 0)
      (rawEvent Create "src/pkg") 0 = (Ret w', t', l)
    /\ dom (dirs w') = registeredAfter (dom (dirs (sampleService 0))) l.
Proof.
  exact (sync_keeps_watch_set_registered directoryWorld "/" (sampleService 0)
           (rawEvent Create "src/pkg") 0 (dom (dirs (sampleService 0)))
           (fun _ _ => eq_refl) eq_refl).
Defined.

Lemma checkFileContentChanged_frame_sample :
  exists b es',
    outcome (checkFileContentChanged steadyWorld 3 (entries (sampleService 0))
               "src/main.go" 0) = Ret (b, es')
    /\ (forall q, q <> "src/main.go" ->
          es' !! q = entries (sampleService 0) !! q)
    /\ (b = true -> is_Some (es' !! "src/main.go")).
Proof.
  eexists _, _. split; [reflexivity|].
  destruct (checkFileContentChanged_frame steadyWorld 3
              (entries (sampleService 0)) _ "src/main.go" 0 _ eq_refl)
    as (Hothers & _ & Hnew & _).
  split; [exact Hothers | exact Hnew].
Defined.

Lemma checkFileContentChanged_detects_sample :
  exists b es',
    outcome (checkFileContentChanged steadyWorld 3 (entries (sampleService 0))
               "src/a.go" 0) = Ret (b, es')
    /\ es' = <["src/a.go" := {| size := 5; hash := 103547413 |}]>
               (entries (sampleService 0))
    /\ (b = true <->
        entries (sampleService 0) !! "src/a.go"
        <> Some {| size := 5; hash := 103547413 |}).
Proof.
  exact (checkFileContentChanged_detects steadyWorld 3
           (entries (sampleService 0)) "src/a.go" 0 _ _ 5
           [Byte.x68; Byte.x65; Byte.x6c; Byte.x6c; Byte.x6f]
           eq_refl eq_refl eq_refl).
Defined.


Lemma throttle_gate_sample :
  exists w1 l1,
    syncWatchersAndCaches steadyWorld "/" (sampleService 10)
      (rawEvent Modify "src/main.go") 7 = (Ret w1, 7, l1)
    /\ handleEvent steadyWorld "/" false 3 (sampleService 10) 5
         (rawEvent Modify "src/main.go") 7
       = (Ret (w1, 5%Z), 8,
          l1 ++ [AStage "check filename is matching the pattern";
                 AStage "check filesystem event is matching watch events flag";
                 ANow 7; AStage "check execution interval"]).
Proof.
  destruct (throttle_gate steadyWorld "/" false 3 (sampleService 10) 5
              (rawEvent Modify "src/main.go") 7 eq_refl eq_refl eq_refl)
    as (w1 & l1 & Hs & Hdrop & _).
  exists w1, l1. split; [exact Hs|].
  apply Hdrop; [discriminate | cbn; lia].
Defined.

Lemma lastExec_follows_run_sample :
  let r := handleEvent steadyWorld "/" false 3 (sampleService 0) zeroTime
             (rawEvent Modify "src/main.go") 4 in
  exists w' lastExec',
    outcome r = Ret (w', lastExec')
    /\ (Runner ∉ stagesOf (actions r) -> lastExec' = zeroTime)
    /\ (Runner ∈ stagesOf (actions r) ->
        exists before lrun,
          actions r = before ++ ANow lastExec' :: ACall "run" :: lrun
          /\ forallb isRun lrun = true
          /\ Runner ∉ stagesOf before).
Proof.
  cbn zeta. eexists _, _. split; [reflexivity|].
  eapply (lastExec_follows_run steadyWorld "/" false 3 (sampleService 0)).
  reflexivity.
Defined.

Lemma worker_state_invariant_sample :
  let events := [rawEvent Create "src/pkg"; rawEvent Modify "src/pkg/x.go"] in
  exists w' lastExec',
    outcome (workerLoop directoryWorld "/" false 3 (sampleService 0) zeroTime
               events 0) = Ret (w', lastExec')
    /\ config w' = config (sampleService 0)
    /\ (forall q, is_Some (dirs w' !! q) ->
          is_Some (dirs (sampleService 0) !! q)
          \/ exists evt, evt ∈ events /\ IsCreate evt = true /\ Name evt = q)
    /\ (forall q, is_Some (entries w' !! q) ->
          is_Some (entries (sampleService 0) !! q)
          \/ exists evt, evt ∈ events /\ IsModify evt = true /\ Name evt = q).
Proof.
  cbn zeta. eexists _, _. split; [reflexivity|].
  destruct (worker_state_invariant directoryWorld "/" false 3
              [rawEvent Create "src/pkg"; rawEvent Modify "src/pkg/x.go"]
              (sampleService 0) _ zeroTime _ 0 eq_refl)
    as ((_ & Hc & _) & Hd & He).
  split; [exact Hc|]. split; [exact Hd | exact He].
Defined.

Lemma worker_blocked_by_changing_file_sample :
  let r := workerLoop growingWorld "/" false 100 (sampleService 0) zeroTime
             [rawEvent Modify "src/main.go"; rawEvent Modify "src/a.go"] 0 in
  outcome r = OutOfFuel
  /\ clock r = 101
  /\ stagesOf (actions r) = [Sync; Pattern; Classify; Throttle; Debounce]
  /\ existsb isRun (actions r) = false.
Proof.
  apply (worker_blocked_by_changing_file growingWorld "/" false 100
           (sampleService 0) zeroTime (rawEvent Modify "src/main.go")
           [rawEvent Modify "src/a.go"] 0);
    try reflexivity.
  - left. reflexivity.
  - intros i. eexists. reflexivity.
  - intros n [_ (z & H1 & H2)].
    assert (Hpoll : forall t,
              pollAt growingWorld "src/main.go" t = Some (Z.of_nat t + 1)%Z)
      by reflexivity.
    cbn [Name rawEvent] in H1, H2. rewrite Hpoll in H1, H2.
    assert (H : (Z.of_nat (1 + n) + 1 = Z.of_nat (1 + S n) + 1)%Z)
      by congruence.
    clear -H. lia.
Defined.

Lemma fingerprint_read_only_when_debouncing_sample :
  let r := handleEvent steadyWorld "/" false 3 (sampleService 0) zeroTime
             (rawEvent Modify "src/main.go") 0 in
  existsb isFingerprintRead (actions r) = true
  /\ Debounce ∈ stagesOf (actions r).
Proof.
  assert (H : existsb isFingerprintRead
                (actions (handleEvent steadyWorld "/" false 3
                            (sampleService 0) zeroTime
                            (rawEvent Modify "src/main.go") 0)) = true)
    by reflexivity.
  split; [exact H|].
  apply (fingerprint_read_only_when_debouncing steadyWorld "/" false 3
           (sampleService 0) zeroTime (rawEvent Modify "src/main.go") 0 H).
Defined.

Lemma Start_then_Stop_sample :
  exists d1,
    daemon.Start (sampleHost true) decimalItoa decimalAtoi
      (daemon.NewDaemon "watchf") 0
    = ((d1, daemon.no_error), 3,
       [daemon.ReadFile ".watchf.pid" None;
        daemon.WriteFile ".watchf.pid" "4242" true;
        daemon.ServiceStart true])
    /\ daemon.pid d1 = 4242%Z
    /\ daemon.Stop (sampleHost true) decimalAtoi d1 3
       = ((daemon.setRunning d1 false, daemon.no_error), 5,
          [daemon.ServiceStop true; daemon.Remove ".watchf.pid" true]).
Proof.
  eexists. split; [reflexivity|].
  destruct (Start_then_Stop (sampleHost true) decimalItoa decimalAtoi
              (daemon.NewDaemon "watchf") _ 0 3 _ eq_refl)
    as ((_ & Hpid & _) & _ & Hstop).
  split; [exact Hpid | exact Hstop].
Defined.

Lemma background_Stop_only_signals_sample :
  let r := daemon.Stop (sampleHost true) decimalAtoi
             (daemon.NewDaemon "watchf") 1 in
  existsb daemon.isShutdown (daemon.calls r) = false
  /\ daemon.foreground (daemon.result r).1 = false
  /\ (daemon.result r).2 = daemon.cannot_stop 4242.
Proof.
  destruct (background_Stop_only_signals (sampleHost true) decimalAtoi
              (daemon.NewDaemon "watchf") 1 eq_refl)
    as (Hnone & _ & Hbg & _).
  split; [exact Hnone|]. split; [exact Hbg | reflexivity].
Defined.

Lemma failed_Start_blocks_retry_sample :
  exists d1,
    daemon.Start (sampleHost false) decimalItoa decimalAtoi
      (daemon.NewDaemon "watchf") 0
    = ((d1, daemon.call_error), 3,
       [daemon.ReadFile ".watchf.pid" None;
        daemon.WriteFile ".watchf.pid" "4242" true;
        daemon.ServiceStart false])
    /\ daemon.Start (sampleHost false) decimalItoa decimalAtoi d1 3
       = ((daemon.setRunning (daemon.setPid d1 4242) true,
           daemon.errorString "watchf is already running"),
          5,
          [daemon.ReadFile ".watchf.pid" (Some "4242");
           daemon.ProcessRunning 4242 true]).
Proof.
  eexists. split; [reflexivity|].
  refine (proj2 (proj2 (proj2 (proj2 (proj2
    (failed_Start_blocks_retry (sampleHost false) decimalItoa decimalAtoi
       (daemon.NewDaemon "watchf") _ 0 3 _ eq_refl _ eq_refl eq_refl
       eq_refl)))))).
  cbn. auto.
Defined.

Lemma bootstrap_names_unknown_to_sync_sample :
  exists w' e t' l,
    watchFolders steadyWorld recursiveService sampleTree 0
    = (Ret (w', e), t', l)
    /\ isDir w' "src/pkg" = false
    /\ syncWatchersAndCaches steadyWorld "/" w' (rawEvent Delete "src/pkg") 9
       = (Ret (setEntries w' (delete "src/pkg" (entries w'))), 9,
          [ACall "syncWatchersAndCaches"]).
Proof.
  destruct (bootstrap_names_unknown_to_sync steadyWorld "/" recursiveService
              sampleTree (rawEvent Delete "src/pkg") 0 9 eq_refl eq_refl)
    as (w' & e & t' & l & Hrun & Hdir & Hsync).
  exists w', e, t', l. split; [exact Hrun|]. split; [exact Hdir|].
  apply Hsync; [reflexivity | right; reflexivity].
Defined.
